(** * irc_api: a shallow embedding of [irc.py] and [api.py]

    The development follows the two source modules.  Python [str] values are
    modelled by [string]; an [ascii] stands for one code point below 256, so
    the character classes below are the ones Python uses on that range.
    Python [int] is [Z].  Code that can raise returns a [result]; code that
    can also block on the inbound queue returns an [outcome].  The handlers
    of the rules are user code: what they do is given by an environment the
    dispatch loop is run in, and the properties of the loop say which
    handlers they are about. *)

From Stdlib Require Import String Ascii List ZArith Lia Bool Arith.
From Stdlib Require Import Numbers.DecimalString.
Import ListNotations.

Open Scope list_scope.
Open Scope string_scope.

(* ================================================================= *)
(** ** Python runtime: exceptions and values *)

Inductive exn : Type :=
| AttributeError
| NameError
| KeyError
| IndexError
| ValueError
| TypeError
| RuntimeError
| OtherError (class_name : string).

Inductive result (A : Type) : Type :=
| Ok (a : A)
| Raise (e : exn).
Arguments Ok {A} a.
Arguments Raise {A} e.

(** What a call that may wait on a queue does: it returns, raises, or never
    finds what it waits for in the lines that arrive. *)
Inductive outcome (A : Type) : Type :=
| Returned (a : A)
| Raised (e : exn)
| Blocked.
Arguments Returned {A} a.
Arguments Raised {A} e.
Arguments Blocked {A}.

Inductive pyval : Type :=
| VInt (z : Z)
| VStr (s : string)
| VBool (b : bool)
| VNone
| VStrTuple (l : list string)
| VObj (descr : string).

(* ================================================================= *)
(** ** Python [str] methods used by the sources *)

Module PyStr.

Definition dquote : ascii := "034"%char.
Definition squote : ascii := "'"%char.
Definition CR : ascii := "013"%char.
Definition LF : ascii := "010"%char.
Definition TAB : ascii := "009"%char.
Definition CRLF : string := String CR (String LF EmptyString).

Definition code (c : ascii) : nat := nat_of_ascii c.

Definition between (lo hi : nat) (c : ascii) : bool :=
  (lo <=? code c)%nat && (code c <=? hi)%nat.

(** [str.isspace] on one code point below 256; also the class [\s] of [re]. *)
Definition isspace (c : ascii) : bool :=
  between 9 13 c || between 28 32 c || (code c =? 133)%nat || (code c =? 160)%nat.

(** The class [\w] of [re] on a [str] pattern, code points below 256. *)
Definition isword (c : ascii) : bool :=
  between 48 57 c || between 65 90 c || (code c =? 95)%nat || between 97 122 c
  || (code c =? 170)%nat || between 178 179 c || (code c =? 181)%nat
  || between 185 186 c || between 188 190 c
  || between 192 214 c || between 216 246 c || between 248 255 c.

Definition isdigit10 (c : ascii) : bool := between 48 57 c.

Fixpoint drop (n : nat) (s : string) : string :=
  match n, s with
  | O, _ => s
  | S _, EmptyString => EmptyString
  | S k, String _ s' => drop k s'
  end.

Fixpoint take (n : nat) (s : string) : string :=
  match n, s with
  | O, _ => EmptyString
  | S _, EmptyString => EmptyString
  | S k, String c s' => String c (take k s')
  end.

(** [s.startswith(p)] *)
Definition startswith (p s : string) : bool := String.prefix p s.

(** [s.endswith(p)] *)
Definition endswith (p s : string) : bool :=
  (String.length p <=? String.length s)%nat
  && String.eqb (drop (String.length s - String.length p) s) p.

(** [sub in s] *)
Fixpoint contains (sub s : string) : bool :=
  String.prefix sub s
  || match s with
     | EmptyString => false
     | String _ s' => contains sub s'
     end.

(** [s.replace(old, new)] for a non-empty [old]: occurrences are found from
    the left and do not overlap; [skip] counts the characters of the
    occurrence just replaced that are still to be passed over. *)
Fixpoint replace_from (old new : string) (skip : nat) (s : string) : string :=
  match s with
  | EmptyString => EmptyString
  | String c s' =>
      match skip with
      | S k => replace_from old new k s'
      | O =>
          if String.prefix old s
          then new ++ replace_from old new (String.length old - 1) s'
          else String c (replace_from old new 0 s')
      end
  end.

Definition replace (old new s : string) : string := replace_from old new 0 s.

(** [s.split(sep)] for a non-empty [sep]; [cur] is the piece being read. *)
Fixpoint split_from (sep : string) (skip : nat) (cur s : string) : list string :=
  match s with
  | EmptyString => [cur]
  | String c s' =>
      match skip with
      | S k => split_from sep k cur s'
      | O =>
          if String.prefix sep s
          then cur :: split_from sep (String.length sep - 1) EmptyString s'
          else split_from sep 0 (cur ++ String c EmptyString) s'
      end
  end.

Definition split (sep s : string) : list string := split_from sep 0 EmptyString s.

Fixpoint lstrip (s : string) : string :=
  match s with
  | String c s' => if isspace c then lstrip s' else s
  | EmptyString => EmptyString
  end.

Fixpoint rstrip (s : string) : string :=
  match s with
  | EmptyString => EmptyString
  | String c s' =>
      match rstrip s' with
      | EmptyString => if isspace c then EmptyString else String c EmptyString
      | r => String c r
      end
  end.

Definition strip (s : string) : string := rstrip (lstrip s).

(** [s[1:-1]] *)
Definition slice_1_m1 (s : string) : string :=
  take (String.length s - 2) (drop 1 s).

(** A line boundary of [str.splitlines] on code points below 256 ([CR LF]
    counts once and is handled by [splitlines_from]). *)
Definition islinebreak (c : ascii) : bool :=
  between 10 13 c || between 28 30 c || (code c =? 133)%nat.

Fixpoint splitlines_from (cur s : string) : list string :=
  match s with
  | EmptyString =>
      match cur with
      | EmptyString => []
      | _ => [cur]
      end
  | String c s' =>
      if islinebreak c then
        match s' with
        | String c' s'' =>
            if (Ascii.eqb c CR && Ascii.eqb c' LF)%bool
            then cur :: splitlines_from EmptyString s''
            else cur :: splitlines_from EmptyString s'
        | EmptyString => [cur]
        end
      else splitlines_from (cur ++ String c EmptyString) s'
  end.

Definition splitlines (s : string) : list string := splitlines_from EmptyString s.

(** [str(n)] for an [int]. *)
Definition str_of_int (z : Z) : string := NilZero.string_of_int (Z.to_int z).

End PyStr.

(* ================================================================= *)
(** ** The fragment of [re] the sources use

    Both patterns of the repository are built from literals, greedy
    repetitions of a character class, alternation, an optional group and
    capture groups.  [run] is the backtracking matcher: the continuation
    receives what is left of the input and the groups captured so far, and a
    [None] from it makes the matcher try its next choice, the longest
    repetition first and the left alternative first. *)

Module Re.
Import PyStr.

Inductive regex : Type :=
| Lit (s : string)
| Plus (cls : ascii -> bool)
| Star (cls : ascii -> bool)
| Seq (r1 r2 : regex)
| Alt (r1 r2 : regex)
| Opt (r : regex)
| Grp (name : string) (r : regex).

Definition captures : Type := list (string * string).

Definition matched : Type := (string * captures)%type.

Fixpoint group (cs : captures) (name : string) : option string :=
  match cs with
  | [] => None
  | (n, v) :: cs' => if String.eqb n name then Some v else group cs' name
  end.

(** A group that did not take part in the match reads as the empty string
    in the tuples of [re.findall]. *)
Definition group_or_empty (cs : captures) (name : string) : string :=
  match group cs name with
  | Some v => v
  | None => EmptyString
  end.

Fixpoint rep (cls : ascii -> bool) (s : string)
    (k : string -> option matched) : option matched :=
  match s with
  | String c s' =>
      if cls c then
        match rep cls s' k with
        | Some res => Some res
        | None => k s
        end
      else k s
  | EmptyString => k s
  end.

Fixpoint run (r : regex) (s : string) (cs : captures)
    (k : string -> captures -> option matched) : option matched :=
  match r with
  | Lit l =>
      if String.prefix l s then k (drop (String.length l) s) cs else None
  | Plus cls =>
      match s with
      | String c s' => if cls c then rep cls s' (fun rest => k rest cs) else None
      | EmptyString => None
      end
  | Star cls => rep cls s (fun rest => k rest cs)
  | Seq r1 r2 => run r1 s cs (fun rest cs' => run r2 rest cs' k)
  | Alt r1 r2 =>
      match run r1 s cs k with
      | Some res => Some res
      | None => run r2 s cs k
      end
  | Opt r1 =>
      match run r1 s cs k with
      | Some res => Some res
      | None => k s cs
      end
  | Grp name r1 =>
      run r1 s cs
        (fun rest cs' =>
           k rest ((name, take (String.length s - String.length rest) s) :: cs'))
  end.

(** A match of [r] that starts at the first character of [s]: what is left
    of [s] after it, and its groups. *)
Definition match_here (r : regex) (s : string) : option matched :=
  run r s [] (fun rest cs => Some (rest, cs)).

(** [re.findall]: matches are taken from the left and do not overlap;
    [skip] counts the characters of the last match still to be passed
    over.  Where there is no match the scan moves on by one character. *)
Fixpoint findall_from (r : regex) (skip : nat) (s : string) : list captures :=
  match s with
  | EmptyString =>
      match skip with
      | O =>
          match match_here r s with
          | Some (_, cs) => [cs]
          | None => []
          end
      | S _ => []
      end
  | String _ s' =>
      match skip with
      | S k => findall_from r k s'
      | O =>
          match match_here r s with
          | Some (rest, cs) =>
              cs :: findall_from r (String.length s - String.length rest - 1) s'
          | None => findall_from r 0 s'
          end
      end
  end.

Definition findall (r : regex) (s : string) : list captures := findall_from r 0 s.

End Re.

(* ================================================================= *)
(** ** irc.py *)

(** *** class Message *)

Record Message : Type := mkMessage {
  author : string;
  to : string;
  text : string
}.

Module MessagePattern.
Import PyStr Re.

(** [[\w.~|\-\[\]]] *)
Definition author_class (c : ascii) : bool :=
  isword c
  || Ascii.eqb c "."%char || Ascii.eqb c "~"%char || Ascii.eqb c "|"%char
  || Ascii.eqb c "-"%char || Ascii.eqb c "["%char || Ascii.eqb c "]"%char.

(** [\S] *)
Definition nonspace (c : ascii) : bool := negb (isspace c).

(** [.] without the DOTALL flag *)
Definition dot (c : ascii) : bool := negb (Ascii.eqb c LF).

(** [^:(?P<author>[\w.~|\-\[\]]+)(?:!(?P<host>\S+))? PRIVMSG (?P<to>\S+) :(?P<text>.+)]
    The leading [^] (no MULTILINE flag) lets [re.search] succeed at the
    first character of the line only, so the search is [match_here]. *)
Definition pattern : regex :=
  Seq (Lit ":")
    (Seq (Grp "author" (Plus author_class))
       (Seq (Opt (Seq (Lit "!") (Grp "host" (Plus nonspace))))
          (Seq (Lit " PRIVMSG ")
             (Seq (Grp "to" (Plus nonspace))
                (Seq (Lit " :")
                   (Grp "text" (Plus dot))))))).

Definition search (raw : string) : option matched := match_here pattern raw.

End MessagePattern.

(** [Message.__init__] *)
Definition Message_init (raw : string) : Message :=
  match MessagePattern.search raw with
  | Some (_, cs) =>
      {| author := Re.group_or_empty cs "author";
         to := Re.group_or_empty cs "to";
         text := Re.group_or_empty cs "text" |}
  | None =>
      {| author := EmptyString; to := EmptyString; text := EmptyString |}
  end.

(** *** class History *)

Module History.

Record t (A : Type) : Type := mk {
  content : list A;
  limit : Z
}.
Arguments mk {A} content limit.
Arguments content {A} _.
Arguments limit {A} _.

(** The limit [History.__init__] stores: a falsy argument (the integer 0)
    selects 100. *)
Definition stored_limit (lim : Z) : Z := if (lim =? 0)%Z then 100%Z else lim.

(** [History.__init__] *)
Definition init {A : Type} (lim : Z) : t A :=
  {| content := []; limit := stored_limit lim |}.

(** [list.pop(0)] *)
Definition pop0 {A : Type} (l : list A) : result (A * list A) :=
  match l with
  | [] => Raise IndexError
  | x :: l' => Ok (x, l')
  end.

(** [History.add] *)
Definition add {A : Type} (h : t A) (elmnt : A) : result (t A) :=
  if (Z.of_nat (List.length (content h)) =? limit h)%Z then
    match pop0 (content h) with
    | Raise e => Raise e
    | Ok (_, rest) => Ok {| content := (rest ++ [elmnt])%list; limit := limit h |}
    end
  else Ok {| content := (content h ++ [elmnt])%list; limit := limit h |}.

(** [History.get] *)
Definition get {A : Type} (h : t A) : list A := content h.

(** [History.__len__] *)
Definition len {A : Type} (h : t A) : nat := List.length (content h).

(** Successive calls of [add], stopping at the first one that raises. *)
Fixpoint add_all {A : Type} (h : t A) (xs : list A) : result (t A) :=
  match xs with
  | [] => Ok h
  | x :: xs' =>
      match add h x with
      | Ok h' => add_all h' xs'
      | Raise e => Raise e
      end
  end.

End History.

(** *** class IRC *)

Module IRC.
Import PyStr.

(** [inbox] holds the lines the reader thread has put and nobody has got
    yet; [sent] the lines written to the socket, oldest first. *)
Record t : Type := mk {
  connected : bool;
  inbox : list string;
  sent : list string
}.

(** [IRC.__init__] *)
Definition init : t := {| connected := false; inbox := []; sent := [] |}.

(** [IRC.send] *)
Definition send (st : t) (raw : string) : t :=
  {| connected := connected st;
     inbox := inbox st;
     sent := (sent st ++ [(raw ++ CRLF)%string])%list |}.

Definition put (st : t) (msg : string) : t :=
  {| connected := connected st;
     inbox := (inbox st ++ [msg])%list;
     sent := sent st |}.

Definition with_inbox (st : t) (q : list string) : t :=
  {| connected := connected st; inbox := q; sent := sent st |}.

Definition set_connected (st : t) : t :=
  {| connected := true; inbox := inbox st; sent := sent st |}.

(** [IRC.waitfor]: gets lines until one satisfies [condition]; [None] when
    the queue runs dry first and the call stays blocked in [Queue.get]. *)
Fixpoint waitfor_in (condition : string -> bool) (q : list string)
    : option (string * list string) :=
  match q with
  | [] => None
  | msg :: q' => if condition msg then Some (msg, q') else waitfor_in condition q'
  end.

Definition waitfor (st : t) (condition : string -> bool) : t * outcome string :=
  match waitfor_in condition (inbox st) with
  | Some (msg, q') => (with_inbox st q', Returned msg)
  | None => (with_inbox st [], Blocked)
  end.

(** [IRC.receive]: a [Message] object is always truthy, so the first line
    that contains [" PRIVMSG "] is returned whatever its parse gave. *)
Fixpoint receive_in (q : list string) : option (Message * list string) :=
  match q with
  | [] => None
  | message :: q' =>
      if contains " PRIVMSG " message
      then Some (Message_init message, q')
      else receive_in q'
  end.

Definition receive (st : t) : t * outcome Message :=
  match receive_in (inbox st) with
  | Some (msg, q') => (with_inbox st q', Returned msg)
  | None => (with_inbox st [], Blocked)
  end.

(** [IRC.join] *)
Definition join (st : t) (channel : string) : t := send st ("JOIN " ++ channel).

(** One line of the loop body of [IRC.__handle]. *)
Definition handle_line (st : t) (msg : string) : t :=
  if startswith "PING" msg then send st (replace "PING" "PONG" msg)
  else if negb (String.length msg =? 0)%nat then put st msg
  else st.

(** One turn of [IRC.__handle] on the text [data] that [recv] returned. *)
Definition handle (st : t) (data : string) : t :=
  fold_left handle_line (split CRLF data) st.

(** Names a free variable of [IRC.connexion] can resolve to: its
    parameters, then the globals of irc.py.  No builtin is called
    [username] or [password]. *)
Definition connexion_scope (nick : string) (auth : list string)
    : list (string * pyval) :=
  [ ("self", VObj "IRC"); ("nick", VStr nick); ("auth", VStrTuple auth);
    ("logging", VObj "module"); ("re", VObj "module");
    ("socket", VObj "module"); ("ssl", VObj "module");
    ("Queue", VObj "class"); ("Thread", VObj "class");
    ("IRC", VObj "class"); ("History", VObj "class");
    ("Message", VObj "class") ].

Fixpoint load_name (scope : list (string * pyval)) (x : string) : result pyval :=
  match scope with
  | [] => Raise NameError
  | (n, v) :: scope' => if String.eqb n x then Ok v else load_name scope' x
  end.

(** [format(v)] inside an f-string. *)
Definition format (v : pyval) : string :=
  match v with
  | VInt z => str_of_int z
  | VStr s => s
  | VBool true => "True"
  | VBool false => "False"
  | VNone => "None"
  | VStrTuple _ => "(...)"
  | VObj d => d
  end.

Definition login_prompt (m : string) : bool :=
  contains "NOTICE" m && contains "/AUTH" m.

Definition logged_in (m : string) : bool := contains "You are now logged in" m.

(** The tail of [IRC.connexion], from the second [waitfor] on. *)
Definition connexion_finish (st : t) : t * outcome unit :=
  match waitfor st logged_in with
  | (st', Returned _) => (set_connected st', Returned tt)
  | (st', Raised e) => (st', Raised e)
  | (st', Blocked) => (st', Blocked)
  end.

(** [IRC.connexion]; [auth] is the tuple, truthy when not empty.  The
    reader thread started first is represented by the lines in [inbox]. *)
Definition connexion (st : t) (nick : string) (auth : list string)
    : t * outcome unit :=
  let st1 := send st ("USER " ++ nick ++ " * * :" ++ nick) in
  let st2 := send st1 ("NICK " ++ nick) in
  match auth with
  | [] => connexion_finish st2
  | _ :: _ =>
      match waitfor st2 login_prompt with
      | (st3, Returned _) =>
          let scope := connexion_scope nick auth in
          match load_name scope "username" with
          | Raise e => (st3, Raised e)
          | Ok u =>
              match load_name scope "password" with
              | Raise e => (st3, Raised e)
              | Ok p =>
                  connexion_finish
                    (send st3 ("AUTH " ++ format u ++ ":" ++ format p))
              end
          end
      | (st3, Raised e) => (st3, Raised e)
      | (st3, Blocked) => (st3, Blocked)
      end
  end.

End IRC.

(* ================================================================= *)
(** ** Python [dict] with [str] keys

    A dict keeps its keys in the order of their first insertion; assigning
    to a key that is present replaces the value where it stands. *)

Module Dict.

Definition t (V : Type) : Type := list (string * V).

Definition empty {V : Type} : t V := [].

Fixpoint get {V : Type} (d : t V) (k : string) : option V :=
  match d with
  | [] => None
  | (k', v) :: d' => if String.eqb k' k then Some v else get d' k
  end.

(** [k in d.keys()] *)
Definition mem {V : Type} (d : t V) (k : string) : bool :=
  match get d k with
  | Some _ => true
  | None => false
  end.

(** [d[k] = v] *)
Fixpoint set {V : Type} (d : t V) (k : string) (v : V) : t V :=
  match d with
  | [] => [(k, v)]
  | (k', v') :: d' =>
      if String.eqb k' k then (k', v) :: d' else (k', v') :: set d' k v
  end.

(** The dict without the key [k] (keys are unique in a dict, so at most
    one binding goes). *)
Definition remove {V : Type} (d : t V) (k : string) : t V :=
  filter (fun kv => negb (String.eqb (fst kv) k)) d.

(** [d.pop(k)] without a default *)
Definition pop {V : Type} (d : t V) (k : string) : result (V * t V) :=
  match get d k with
  | Some v => Ok (v, remove d k)
  | None => Raise KeyError
  end.

(** [d.values()] *)
Definition values {V : Type} (d : t V) : list V := map snd d.

Definition keys {V : Type} (d : t V) : list string := map fst d.

End Dict.

(* ================================================================= *)
(** ** api.py *)

(** *** Handlers

    What the sources read of a handler function: [__name__], [__doc__]
    (empty when there is none), [__annotations__] (the values, in order)
    and [__defaults__].  An annotation is called on the
    token, so it is modelled by what that call gives: [int], [str], [bool],
    or any other callable, with [None] where the call raises. *)

Inductive pytype : Type :=
| TInt
| TStr
| TBool
| TCallable (f : string -> option pyval).

Record pyfunc : Type := mkFunc {
  fn_name : string;
  fn_doc : string;
  annotations : list pytype;
  defaults : list pyval
}.

Module Builtins.
Import PyStr.

Definition digit_value (c : ascii) : Z := Z.of_nat (code c - 48).

(** The whitespace [int] skips around the number, code points below 256:
    the ASCII ones (tab to carriage return, and the blank) and the two
    above 127 that Unicode counts as spaces.  The separators U+001C to
    U+001F, which [str.strip] removes, are not among them: [int] raises
    on a text that has one. *)
Definition int_space (c : ascii) : bool :=
  between 9 13 c || (code c =? 32)%nat || (code c =? 133)%nat || (code c =? 160)%nat.

Fixpoint skip_spaces (s : string) : string :=
  match s with
  | String c s' => if int_space c then skip_spaces s' else s
  | EmptyString => EmptyString
  end.

(** The digits of an [int] literal: decimal digits, with single
    underscores between digits only, up to the whitespace that ends the
    text.  The result is the value and the number of digits read. *)
Fixpoint digits (acc : Z) (count : nat) (after_digit : bool) (s : string)
    : option (Z * nat) :=
  match s with
  | EmptyString => if after_digit then Some (acc, count) else None
  | String c s' =>
      if isdigit10 c then digits (10 * acc + digit_value c)%Z (S count) true s'
      else if Ascii.eqb c "_"%char
           then if after_digit then digits acc count false s' else None
           else if int_space c
                then match skip_spaces s' with
                     | EmptyString => if after_digit then Some (acc, count) else None
                     | String _ _ => None
                     end
                else None
  end.

(** [sys.int_info.default_max_str_digits]: a text with more digits raises
    [ValueError] (CPython 3.11, and the earlier releases that took the
    limit over). *)
Definition max_str_digits : nat := 4300.

Definition within_limit (r : option (Z * nat)) : option Z :=
  match r with
  | Some (z, count) => if (count <=? max_str_digits)%nat then Some z else None
  | None => None
  end.

(** [int(s)] for a [str]; [None] where it raises [ValueError]. *)
Definition int (s : string) : option Z :=
  match skip_spaces s with
  | String "+"%char r => within_limit (digits 0 0 false r)
  | String "-"%char r => option_map Z.opp (within_limit (digits 0 0 false r))
  | t => within_limit (digits 0 0 false t)
  end.

(** [new_type(data)] for a token; [None] where the call raises. *)
Definition construct (new_type : pytype) (data : string) : option pyval :=
  match new_type with
  | TInt => option_map VInt (int data)
  | TStr => Some (VStr data)
  | TBool => Some (VBool (negb (String.eqb data EmptyString)))
  | TCallable f => f data
  end.

(** [l[z]] on a list: a negative index counts from the end. *)
Definition getitem {A : Type} (l : list A) (z : Z) : result A :=
  let n := Z.of_nat (List.length l) in
  let i := if (z <? 0)%Z then (z + n)%Z else z in
  if ((0 <=? i) && (i <? n))%Z then
    match nth_error l (Z.to_nat i) with
    | Some a => Ok a
    | None => Raise IndexError
    end
  else Raise IndexError.

End Builtins.

(** *** Commands *)

(** A predicate of a rule: a pure function of the message that returns a
    [bool], as the documentation of [on] asks and the specification states.
    The one [command] generates reads the module global [PREFIX] when it is
    called, so every predicate receives its current value first. *)
Definition event : Type := string -> Message -> bool.

(** What the attribute [events] of a [Command] holds: the list of its
    predicates, or, for a command made by [every], the interval, a number
    (whole seconds here; the sources hand it to [time.sleep] only). *)
Inductive events_attr : Type :=
| Predicates (l : list event)
| Interval (time : Z).

Record Command : Type := mkCommand {
  name : string;
  func : pyfunc;
  events : events_attr;
  desc : string;
  cmnd_type : Z
}.

(** [Command.__init__] *)
Definition Command_init (name : string) (func : pyfunc) (events : events_attr)
    (desc : string) (cmnd_type : Z) : Command :=
  {| name := name;
     func := func;
     events := events;
     desc :=
       if negb (String.eqb desc EmptyString) then desc
       else if negb (String.eqb (fn_doc func) EmptyString) then fn_doc func
       else "...";
     cmnd_type := cmnd_type |}.

Module Decorators.
Import PyStr.

(** The tuple [alias] after the first statement of [command]. *)
Definition aliases (name : string) (alias : list string) : list string :=
  match alias with
  | [] => (alias ++ [name])%list
  | _ :: _ =>
      if negb (existsb (String.eqb name) alias)
      then (alias ++ [name])%list
      else alias
  end.

(** The lambda [command] puts in [events]:
    [True in [m.text == PREFIX + cmd or m.text.startswith(PREFIX + cmd + " ") for cmd in alias]] *)
Definition command_event (alias : list string) : event :=
  fun PREFIX m =>
    existsb
      (fun cmd =>
         String.eqb (text m) (PREFIX ++ cmd)
         || startswith (PREFIX ++ cmd ++ " ") (text m))
      alias.

(** [command(name, alias, desc)(func)] *)
Definition command (name : string) (alias : list string) (desc : string)
    (func : pyfunc) : Command :=
  Command_init name func (Predicates [command_event (aliases name alias)]) desc 1.

(** [events.append(event)] on what the attribute holds: a number has no
    [append]. *)
Definition events_append (evs : events_attr) (ev : event) : result events_attr :=
  match evs with
  | Predicates l => Ok (Predicates (l ++ [ev])%list)
  | Interval _ => Raise AttributeError
  end.

(** The body shared by the decorators [on], [channel] and [user].  Given a
    function it makes a new command.  Given a [Command] it appends the
    predicate to the [events] of that object and returns the object: the
    result is the state of that same [Command] after the call, so [desc],
    which the branch does not read, is dropped.  On a command made by
    [every] the append raises. *)
Definition attach (ev : event) (description : string)
    (func_or_cmnd : pyfunc + Command) : result Command :=
  match func_or_cmnd with
  | inr cmnd =>
      match events_append (events cmnd) ev with
      | Ok evs' =>
          Ok (mkCommand (name cmnd) (func cmnd) evs' (desc cmnd) (cmnd_type cmnd))
      | Raise e => Raise e
      end
  | inl f => Ok (Command_init (fn_name f) f (Predicates [ev]) description 0)
  end.

Definition on (ev : Message -> bool)
    : string -> pyfunc + Command -> result Command :=
  attach (fun _ m => ev m).

Definition channel (channel_name : string)
    : string -> pyfunc + Command -> result Command :=
  attach (fun _ m => String.eqb (to m) channel_name).

Definition user (user_name : string)
    : string -> pyfunc + Command -> result Command :=
  attach (fun _ m => String.eqb (author m) user_name).

(** [every(time, desc)(func)]: [events] holds the interval. *)
Definition every (time : Z) (desc : string) (func : pyfunc) : Command :=
  Command_init (fn_name func) func (Interval time) desc 2.

End Decorators.

(** *** parse *)

Module Parse.
Import PyStr Re.

Definition not_dquote (c : ascii) : bool := negb (Ascii.eqb c dquote).
Definition not_squote (c : ascii) : bool := negb (Ascii.eqb c squote).
Definition not_blank (c : ascii) : bool := negb (Ascii.eqb c " "%char).
Definition blank (c : ascii) : bool := Ascii.eqb c " "%char.

Definition DQ : string := String dquote EmptyString.
Definition SQ : string := String squote EmptyString.

(** The pattern of [parse]; group 1 is the whole match, groups 2 to 4 its
    three alternatives: a double-quoted run, a single-quoted run, a run
    without blanks, each with the blanks that follow it. *)
Definition pattern : regex :=
  Grp "1"
    (Alt (Grp "2" (Seq (Lit DQ) (Seq (Plus not_dquote) (Seq (Lit DQ) (Star blank)))))
       (Alt (Grp "3" (Seq (Lit SQ) (Seq (Plus not_squote) (Seq (Lit SQ) (Star blank)))))
          (Grp "4" (Seq (Plus not_blank) (Star blank))))).

(** The body of the loop of [parse] on [match[0]]. *)
Definition clean (m0 : string) : string :=
  let m := rstrip (strip m0) in
  if (startswith DQ m && endswith DQ m) || (startswith SQ m && endswith SQ m)
  then slice_1_m1 m
  else m.

Definition parse (message : string) : list string :=
  map (fun cs => clean (group_or_empty cs "1")) (findall pattern message).

End Parse.

(** *** convert and check_args *)

(** An entry of [converted_args]: a value, or the [WrongArg] instance that
    [check_args] creates for the call. *)
Inductive slot : Type :=
| wrong_arg
| Value (v : pyval).

Definition is_wrong_arg (x : slot) : bool :=
  match x with
  | wrong_arg => true
  | Value _ => false
  end.

(** [convert]: the bare [except] turns every failure into [default]. *)
Definition convert (data : string) (new_type : pytype) (default : slot) : slot :=
  match Builtins.construct new_type data with
  | Some v => Value v
  | None => default
  end.

Module CheckArgs.

(** The body of the [for] loop of [check_args] at [index], the slots
    collected so far being [converted_args]. *)
Definition step (defaults : list pyval) (required_args : Z)
    (input_args : list string) (index : nat) (arg_type : pytype)
    (converted_args : list slot) : result (list slot) :=
  let pair :=
    if (Z.of_nat index + 1 >? required_args)%Z then
      match Builtins.getitem defaults (Z.of_nat index - required_args) with
      | Ok d => Ok (arg_type, Value d)
      | Raise e => Raise e
      end
    else Ok (arg_type, wrong_arg) in
  match pair with
  | Raise e => Raise e
  | Ok (ty, default) =>
      if (index <? List.length input_args)%nat then
        match nth_error input_args index with
        | Some tok => Ok (converted_args ++ [convert tok ty default])%list
        | None => Raise IndexError
        end
      else Ok (converted_args ++ [default])%list
  end.

(** [for index, arg_type in enumerate(annotations.values())] *)
Fixpoint loop (defaults : list pyval) (required_args : Z)
    (input_args : list string) (index : nat) (types : list pytype)
    (converted_args : list slot) : result (list slot) :=
  match types with
  | [] => Ok converted_args
  | arg_type :: types' =>
      match step defaults required_args input_args index arg_type converted_args with
      | Raise e => Raise e
      | Ok converted_args' =>
          loop defaults required_args input_args (S index) types' converted_args'
      end
  end.

Definition unwrap (x : slot) : list pyval :=
  match x with
  | wrong_arg => []
  | Value v => [v]
  end.

End CheckArgs.

(** [check_args]: [Ok None] is the returned [None], [Ok (Some l)] the
    returned list. *)
Definition check_args (func : pyfunc) (input_args : list string)
    : result (option (list pyval)) :=
  let defaults := defaults func in
  let annotations := annotations func in
  match annotations with
  | [] => Ok (Some [])
  | _ :: _ =>
      let required_args :=
        (Z.of_nat (List.length annotations) - Z.of_nat (List.length defaults))%Z in
      if (Z.of_nat (List.length input_args) <? required_args)%Z then Ok None
      else
        match CheckArgs.loop defaults required_args input_args 0 annotations [] with
        | Raise e => Raise e
        | Ok converted_args =>
            if existsb is_wrong_arg converted_args then Ok None
            else Ok (Some (flat_map CheckArgs.unwrap converted_args))
        end
  end.

(** *** class Bot *)

(** What the attribute [history] of a bot holds: [Bot.__init__] stores the
    integer it was given; a [History] object is there only if one is
    assigned to the public attribute afterwards. *)
Inductive history_attr : Type :=
| HistoryInt (limit : Z)
| HistoryObj (h : History.t Message).

(** [PREFIX] is the module global of api.py, which [Bot.__init__] assigns;
    [threads] names the periodic commands, one thread each. *)
Record Bot : Type := mkBot {
  PREFIX : string;
  prefix : string;
  irc : IRC.t;
  history : history_attr;
  channels : list string;
  auth : list string;
  callbacks : Dict.t Command;
  commands_help : Dict.t Command;
  threads : list string
}.

(** What the main loop does that is visible from outside the bot: the call
    of a handler with its arguments.  Lines sent are kept in [IRC.sent]. *)
Inductive action : Type :=
| Called (cmnd : string) (msg : Message) (args : list pyval).

Module BotOps.

Definition with_irc (b : Bot) (i : IRC.t) : Bot :=
  mkBot (PREFIX b) (prefix b) i (history b) (channels b) (auth b)
    (callbacks b) (commands_help b) (threads b).

Definition with_history (b : Bot) (h : history_attr) : Bot :=
  mkBot (PREFIX b) (prefix b) (irc b) h (channels b) (auth b)
    (callbacks b) (commands_help b) (threads b).

Definition with_callbacks (b : Bot) (d : Dict.t Command) : Bot :=
  mkBot (PREFIX b) (prefix b) (irc b) (history b) (channels b) (auth b)
    d (commands_help b) (threads b).

Definition with_commands_help (b : Bot) (d : Dict.t Command) : Bot :=
  mkBot (PREFIX b) (prefix b) (irc b) (history b) (channels b) (auth b)
    (callbacks b) d (threads b).

Definition with_threads (b : Bot) (l : list string) : Bot :=
  mkBot (PREFIX b) (prefix b) (irc b) (history b) (channels b) (auth b)
    (callbacks b) (commands_help b) l.

End BotOps.
Import BotOps.

(** [Bot.__init__] without command modules. *)
Definition Bot_init (auth channels : list string) (prefix : string) (limit : Z)
    : Bot :=
  {| PREFIX := prefix;
     prefix := prefix;
     irc := IRC.init;
     history := HistoryInt limit;
     channels := channels;
     auth := auth;
     callbacks := Dict.empty;
     commands_help := Dict.empty;
     threads := [] |}.

(** [Bot.send] *)
Definition Bot_send (b : Bot) (target message : string) : Bot :=
  with_irc b
    (fold_left
       (fun i line => IRC.send i ("PRIVMSG " ++ target ++ " :" ++ line))
       (PyStr.splitlines message) (irc b)).

(** [Bot.add_command] *)
Definition add_command (b : Bot) (command : Command) (add_to_help : bool) : Bot :=
  let b1 :=
    if (cmnd_type command =? 2)%Z
    then with_threads b (threads b ++ [name command])%list
    else with_callbacks b (Dict.set (callbacks b) (name command) command) in
  if add_to_help
  then with_commands_help b1 (Dict.set (commands_help b1) (name command) command)
  else b1.

(** [Bot.add_commands] *)
Definition add_commands (b : Bot) (commands : list Command) : Bot :=
  let add_to_help := existsb (fun c => String.eqb "auto_help" (name c)) commands in
  fold_left (fun b' c => add_command b' c add_to_help) commands b.

(** [Bot.remove_command]; the bot returned is the one left behind, also
    when the call raises. *)
Definition remove_command (b : Bot) (command_name : string) : Bot * result unit :=
  if Dict.mem (callbacks b) command_name then
    match Dict.pop (callbacks b) command_name with
    | Raise e => (b, Raise e)
    | Ok (_, callbacks') =>
        let b1 := with_callbacks b callbacks' in
        match Dict.pop (commands_help b1) command_name with
        | Raise e => (b1, Raise e)
        | Ok (_, help') => (with_commands_help b1 help', Ok tt)
        end
    end
  else (b, Ok tt).

(** *** Calling a handler

    A handler is user code: called with the bot, it may send, change
    any attribute of the bot, and return or raise.  The sources never
    look inside it, so what each function does when it is called is given
    from outside, by an environment: [call f bot msg args] is the whole
    call [f(bot, msg, *args)], the binding of the arguments to the
    parameters of [f] (a TypeError when their number does not fit)
    and the run of the body.  It gives the bot as the call leaves it and
    how the call ends. *)
Definition handlers : Type :=
  pyfunc -> Bot -> Message -> list pyval -> Bot * result unit.

(** [Command.__call__]: [self.func(self.bot, msg, *args)].  [self.bot] is
    the bot that registered the command, here the one bot the model
    follows. *)
Definition Command_call (call : handlers) (b : Bot) (cmnd : Command)
    (msg : Message) (args : list pyval) : Bot * result unit :=
  call (func cmnd) b msg args.

Module Dispatch.

(** [not False in [event(message) for event in callback.events]]; a
    number in [events] cannot be iterated over. *)
Definition all_events (b : Bot) (message : Message) (callback : Command)
    : result bool :=
  match events callback with
  | Predicates evs =>
      Ok (negb (existsb negb (map (fun ev : event => ev (PREFIX b) message) evs)))
  | Interval _ => Raise TypeError
  end.

(** The fixed reply to a call whose arguments are rejected. *)
Definition error_reply : string :=
  "Erreur : les arguments donn" ++ String (ascii_of_nat 233) "s ne correspondent pas.".

(** [callback(message, *args)] in the loop: the call is made, and an
    exception it raises leaves the loop. *)
Definition invoke (call : handlers) (b : Bot) (message : Message)
    (callback : Command) (args : list pyval) : Bot * list action * option exn :=
  match Command_call call b callback message args with
  | (b', Ok _) => (b', [Called (name callback) message args], None)
  | (b', Raise e) => (b', [Called (name callback) message args], Some e)
  end.

(** The body of [for callback in self.callbacks.values()]: the bot it
    leaves, the call it made if any, and the exception that ends it if
    any. *)
Definition run_callback (call : handlers) (b : Bot) (message : Message)
    (callback : Command) : Bot * list action * option exn :=
  match all_events b message callback with
  | Raise e => (b, [], Some e)
  | Ok false => (b, [], None)
  | Ok true =>
      if (cmnd_type callback =? 0)%Z then invoke call b message callback []
      else if (cmnd_type callback =? 1)%Z then
        match check_args (func callback) (tl (Parse.parse (text message))) with
        | Raise e => (b, [], Some e)
        | Ok (Some args) => invoke call b message callback args
        | Ok None => (Bot_send b (to message) error_reply, [], None)
        end
      else (b, [], None)
  end.

Fixpoint same_keys (l1 l2 : list string) : bool :=
  match l1, l2 with
  | [], [] => true
  | k1 :: l1', k2 :: l2' => String.eqb k1 k2 && same_keys l1' l2'
  | _, _ => false
  end.

(** The [for] loop over [self.callbacks.values()].  The iterator reads the
    dict as it is when each value is asked for, so a handler that assigns
    to a key that is present is followed.  [keys0] holds the keys the dict
    had when the loop started and [todo] the number of values still to
    come.  Python leaves an iteration over a dict whose keys are changed
    meanwhile undefined; CPython raises RuntimeError as soon as their
    number has changed (and, with the number kept, raises or goes on with
    other entries, by the layout of its table): the model raises for any
    change of the keys.  [done] holds the calls made so far. *)
Fixpoint loop (call : handlers) (keys0 : list string) (message : Message)
    (todo : nat) (b : Bot) (done : list action) : Bot * list action * option exn :=
  if negb (same_keys (Dict.keys (callbacks b)) keys0) then (b, done, Some RuntimeError)
  else
    match todo with
    | O => (b, done, None)
    | S todo' =>
        match nth_error (Dict.values (callbacks b)) (List.length keys0 - todo) with
        | None => (b, done, None)
        | Some callback =>
            match run_callback call b message callback with
            | (b', acts, None) => loop call keys0 message todo' b' (done ++ acts)%list
            | (b', acts, Some e) => (b', (done ++ acts)%list, Some e)
            end
        end
    end.

Definition dispatch (call : handlers) (b : Bot) (message : Message)
    : Bot * list action * option exn :=
  loop call (Dict.keys (callbacks b)) message
    (List.length (Dict.keys (callbacks b))) b [].

End Dispatch.

(** One turn of the [while True] loop of [Bot.start]: the bot it leaves,
    the calls it made, and how it ends.  [message] is never [None], so the
    test that guards the dispatch always passes. *)
Definition start_iteration (call : handlers) (b : Bot)
    : Bot * list action * outcome unit :=
  match IRC.receive (irc b) with
  | (irc', Returned message) =>
      let b1 := with_irc b irc' in
      match history b1 with
      | HistoryInt _ => (b1, [], Raised AttributeError)
      | HistoryObj h =>
          match History.add h message with
          | Raise e => (b1, [], Raised e)
          | Ok h' =>
              match Dispatch.dispatch call (with_history b1 (HistoryObj h')) message with
              | (b2, acts, None) => (b2, acts, Returned tt)
              | (b2, acts, Some e) => (b2, acts, Raised e)
              end
          end
      end
  | (irc', Raised e) => (with_irc b irc', [], Raised e)
  | (irc', Blocked) => (with_irc b irc', [], Blocked)
  end.

(** The [while True] loop: it ends blocked in [receive], when no line that
    is left holds a message, or on an exception.  [fuel] bounds the turns;
    the loop itself never returns, and [Returned] stands for a loop that
    has used up its turns and is still running. *)
Fixpoint mainloop (call : handlers) (fuel : nat) (b : Bot) (done : list action)
    : Bot * list action * outcome unit :=
  match fuel with
  | O => (b, done, Returned tt)
  | S fuel' =>
      match start_iteration call b with
      | (b', acts, Returned _) => mainloop call fuel' b' (done ++ acts)%list
      | (b', acts, Raised e) => (b', (done ++ acts)%list, Raised e)
      | (b', acts, Blocked) => (b', (done ++ acts)%list, Blocked)
      end
  end.

(** [Bot.start] on the lines the reader has queued; [fuel] bounds the turns
    of its main loop. *)
Definition start (call : handlers) (fuel : nat) (b : Bot) (nick : string)
    : Bot * list action * outcome unit :=
  match IRC.connexion (irc b) nick (auth b) with
  | (i, Returned _) =>
      let b1 := with_irc b (fold_left IRC.join (channels b) i) in
      mainloop call fuel b1 []
  | (i, Raised e) => (with_irc b i, [], Raised e)
  | (i, Blocked) => (with_irc b i, [], Blocked)
  end.

(** *** Bot.add_commands_modules *)

(** What the loop over [dir(commands_module)] reads of a module: the names
    [dir] lists, in its order, each with the attribute when that attribute
    is a [Command]. *)
Definition pymodule : Type := list (string * option Command).

(** The body of the outer loop of [Bot.add_commands_modules]. *)
Definition add_commands_module (b : Bot) (commands_module : pymodule) : Bot :=
  let add_to_help :=
    existsb (String.eqb "auto_help") (map fst commands_module) in
  fold_left
    (fun b' attr =>
       match snd attr with
       | Some cmnd => add_command b' cmnd add_to_help
       | None => b'
       end)
    commands_module b.

(** [Bot.add_commands_modules] *)
Definition add_commands_modules (b : Bot) (commands_modules : list pymodule) : Bot :=
  fold_left add_commands_module commands_modules b.

(** [Bot.__init__] with command modules. *)
Definition Bot_init_modules (auth channels : list string) (prefix : string)
    (limit : Z) (commands_modules : list pymodule) : Bot :=
  match commands_modules with
  | [] => Bot_init auth channels prefix limit
  | _ :: _ => add_commands_modules (Bot_init auth channels prefix limit) commands_modules
  end.

(** *** auto_help *)

Module AutoHelp.

(** [getattr(cmnd, attr)] on a [Command]: the instance attributes that
    [Command.__init__] sets; any other name raises. *)
Definition Command_getattr (cmnd : Command) (attr : string) : result pyval :=
  if String.eqb attr "name" then Ok (VStr (name cmnd))
  else if String.eqb attr "desc" then Ok (VStr (desc cmnd))
  else if String.eqb attr "cmnd_type" then Ok (VInt (cmnd_type cmnd))
  else if String.eqb attr "func" then Ok (VObj "function")
  else if String.eqb attr "events" then
    match events cmnd with
    | Predicates _ => Ok (VObj "list")
    | Interval time => Ok (VInt time)
    end
  else if String.eqb attr "bot" then Ok (VObj "Bot")
  else Raise AttributeError.

(** [v == 1] *)
Definition equals_one (v : pyval) : bool :=
  match v with
  | VInt 1 => true
  | VBool true => true
  | _ => false
  end.

Definition LFs : string := String PyStr.LF EmptyString.

(** The loop of the first branch; [bar] is the text put before each line
    of the description, a blank, the character U+2502 and a blank in the
    source (that character is outside the code points modelled). *)
Fixpoint describe (bar : string) (lines : list string) (answer : string) : string :=
  match lines with
  | [] => answer
  | line :: lines' => describe bar lines' (answer ++ bar ++ line ++ LFs)
  end.

(** The loop of the second branch, over [bot.commands_help.items()]; it
    reads the attribute [type] of each command. *)
Fixpoint list_commands (items : list (string * Command)) (answer : string)
    : result string :=
  match items with
  | [] => Ok answer
  | (cmnd_name, cmnd) :: items' =>
      match Command_getattr cmnd "type" with
      | Raise e => Raise e
      | Ok v =>
          list_commands items'
            (if equals_one v then answer ++ " - " ++ cmnd_name ++ LFs else answer)
      end
  end.

(** The body of [auto_help]. *)
Definition auto_help (bar : string) (bot : Bot) (msg : Message) (fct_name : string)
    : Bot * result unit :=
  let answer :=
    if negb (String.eqb fct_name EmptyString) && Dict.mem (commands_help bot) fct_name
    then
      match Dict.get (commands_help bot) fct_name with
      | Some cmnd =>
          Ok (describe bar (PyStr.splitlines (desc cmnd))
                ("Help on the command: " ++ prefix bot ++ fct_name ++ LFs))
      | None => Raise KeyError
      end
    else
      list_commands (commands_help bot)
        ("List of available commands (" ++ PREFIX bot
         ++ "help <cmnd> for more informations)" ++ LFs) in
  match answer with
  | Ok text => (Bot_send bot (to msg) text, Ok tt)
  | Raise e => (bot, Raise e)
  end.

(** The command the module defines with [@command("help")]. *)
Definition command : Command :=
  Decorators.command "help" [] EmptyString
    (mkFunc "auto_help" "Auto generated help command." [TStr] [VStr EmptyString]).

(** [auto_help(bot, msg, *args)]: the parameter [fct_name] takes the one
    argument or its default; a value that is not a [str] is no key of
    [commands_help], which leads to the listing like the empty name. *)
Definition call_auto_help (bar : string) (bot : Bot) (msg : Message) (args : list pyval)
    : Bot * result unit :=
  match args with
  | [] => auto_help bar bot msg EmptyString
  | [VStr fct_name] => auto_help bar bot msg fct_name
  | [_] => auto_help bar bot msg EmptyString
  | _ :: _ :: _ => (bot, Raise TypeError)
  end.

(** The environment in which the function named auto_help is the one of
    api.py and every other function does what [user] says. *)
Definition with_auto_help (bar : string) (user : handlers) : handlers :=
  fun f bot msg args =>
    if String.eqb (fn_name f) "auto_help" then call_auto_help bar bot msg args
    else user f bot msg args.

End AutoHelp.

(* ================================================================= *)
(** * Definitions used to state the properties *)

Section SpecDefinitions.
Import PyStr Re Parse Dispatch.

(** Every character of [s] is in the class. *)
Fixpoint all_in (cls : ascii -> bool) (s : string) : bool :=
  match s with
  | EmptyString => true
  | String c s' => cls c && all_in cls s'
  end.

(** [Matches r s cs rest cs']: [r] matches a prefix of [s] and leaves
    [rest]; the groups go from [cs] to [cs'].  This is what a regular
    expression denotes, without the order in which the matcher tries. *)
Inductive Matches : regex -> string -> captures -> string -> captures -> Prop :=
| MLit : forall l rest cs,
    Matches (Lit l) (l ++ rest) cs rest cs
| MPlus : forall cls c pre rest cs,
    cls c = true -> all_in cls pre = true ->
    Matches (Plus cls) (String c pre ++ rest) cs rest cs
| MStar : forall cls pre rest cs,
    all_in cls pre = true ->
    Matches (Star cls) (pre ++ rest) cs rest cs
| MSeq : forall r1 r2 s cs mid cs1 rest cs2,
    Matches r1 s cs mid cs1 -> Matches r2 mid cs1 rest cs2 ->
    Matches (Seq r1 r2) s cs rest cs2
| MAltL : forall r1 r2 s cs rest cs',
    Matches r1 s cs rest cs' -> Matches (Alt r1 r2) s cs rest cs'
| MAltR : forall r1 r2 s cs rest cs',
    Matches r2 s cs rest cs' -> Matches (Alt r1 r2) s cs rest cs'
| MOptSome : forall r s cs rest cs',
    Matches r s cs rest cs' -> Matches (Opt r) s cs rest cs'
| MOptNone : forall r s cs,
    Matches (Opt r) s cs s cs
| MGrp : forall name r s cs rest cs',
    Matches r s cs rest cs' ->
    Matches (Grp name r) s cs rest
      ((name, take (String.length s - String.length rest) s) :: cs').

(** The last [n] elements of a list (all of it when it is shorter). *)
Definition lastn {A : Type} (n : nat) (l : list A) : list A :=
  skipn (List.length l - n) l.

(** What the generated predicate accepts for one name [C]. *)
Definition accepts (P C text : string) : Prop :=
  text = P ++ C \/ exists more, text = P ++ C ++ " " ++ more.

(** The coercion as the specification words it.  [required] is the number
    of parameters without a default; the defaults belong to the trailing
    parameters, so position [i] has one when [required <= i]. *)
Definition required (func : pyfunc) : Z :=
  (Z.of_nat (List.length (annotations func))
   - Z.of_nat (List.length (defaults func)))%Z.

Definition default_at (func : pyfunc) (i : nat) : option pyval :=
  if (required func <=? Z.of_nat i)%Z
  then nth_error (defaults func) (Z.to_nat (Z.of_nat i - required func))
  else None.

(** Position [i]: the converted token if there is a token and it converts,
    else the default of the position, else nothing. *)
Definition coerce_at (func : pyfunc) (tokens : list string) (i : nat)
    (ty : pytype) : option pyval :=
  match nth_error tokens i with
  | Some tok =>
      match Builtins.construct ty tok with
      | Some v => Some v
      | None => default_at func i
      end
  | None => default_at func i
  end.

Fixpoint coerce_from (func : pyfunc) (tokens : list string) (i : nat)
    (types : list pytype) : list (option pyval) :=
  match types with
  | [] => []
  | ty :: types' => coerce_at func tokens i ty :: coerce_from func tokens (S i) types'
  end.

Fixpoint all_some {A : Type} (l : list (option A)) : option (list A) :=
  match l with
  | [] => Some []
  | None :: _ => None
  | Some a :: l' =>
      match all_some l' with
      | Some r => Some (a :: r)
      | None => None
      end
  end.

(** Rejection for too few tokens, else every position or rejection. *)
Definition coerce_spec (func : pyfunc) (tokens : list string)
    : option (list pyval) :=
  if (Z.of_nat (List.length tokens) <? required func)%Z then None
  else all_some (coerce_from func tokens 0 (annotations func)).

Definition slot_of (o : option pyval) : slot :=
  match o with
  | Some v => Value v
  | None => wrong_arg
  end.

(** The arguments a matching rule is called with, if it is called: none
    for an event rule, the coerced tokens after the first for a Named rule
    (nothing when they are rejected), and no call for any other type. *)
Definition call_args (message : Message) (cb : Command) : option (list pyval) :=
  if (cmnd_type cb =? 0)%Z then Some []
  else if (cmnd_type cb =? 1)%Z
       then coerce_spec (func cb) (tl (Parse.parse (text message)))
       else None.

(** Every predicate of the rule is true on the message. *)
Definition matches (b : Bot) (message : Message) (cb : Command) : Prop :=
  exists evs,
    events cb = Predicates evs
    /\ forall ev : event, In ev evs -> ev (PREFIX b) message = true.

(** The calls one rule contributes to a message. *)
Definition calls_of (b : Bot) (message : Message) (cb : Command) : list action :=
  match all_events b message cb with
  | Ok true =>
      match call_args message cb with
      | Some args => [Called (name cb) message args]
      | None => []
      end
  | _ => []
  end.

(** The lines the loop itself sends for one rule: the fixed reply of a
    matching Named rule whose arguments are rejected. *)
Definition replies_of (b : Bot) (message : Message) (cb : Command) : list string :=
  match all_events b message cb with
  | Ok true =>
      if (cmnd_type cb =? 1)%Z then
        match coerce_spec (func cb) (tl (Parse.parse (text message))) with
        | Some _ => []
        | None => ["PRIVMSG " ++ to message ++ " :" ++ error_reply ++ PyStr.CRLF]
        end
      else []
  | _ => []
  end.

(** What a decorator with the condition [cond] does with a command that
    holds predicates, with a command that holds an interval, and with a
    function. *)
Definition adds_condition
    (decorator : string -> pyfunc + Command -> result Command)
    (cond : Message -> bool) : Prop :=
  forall (b : Bot) (message : Message) (description : string),
    (forall (cmnd : Command) (evs : list event),
       events cmnd = Predicates evs ->
       exists cmnd' : Command,
         decorator description (inr cmnd) = Ok cmnd'
         /\ name cmnd' = name cmnd
         /\ func cmnd' = func cmnd
         /\ desc cmnd' = desc cmnd
         /\ cmnd_type cmnd' = cmnd_type cmnd
         /\ (matches b message cmnd'
             <-> matches b message cmnd /\ cond message = true))
    /\ (forall (cmnd : Command) (time : Z),
          events cmnd = Interval time ->
          decorator description (inr cmnd) = Raise AttributeError)
    /\ (forall f : pyfunc,
          exists cmnd' : Command,
            decorator description (inl f) = Ok cmnd'
            /\ name cmnd' = fn_name f
            /\ func cmnd' = f
            /\ cmnd_type cmnd' = 0%Z
            /\ (matches b message cmnd' <-> cond message = true)).

(** The handlers leave a part of the bot as it is. *)
Definition keeps {A : Type} (part : Bot -> A) (call : handlers) : Prop :=
  forall f b m args, part (fst (call f b m args)) = part b.

(** The handlers leave alone what the dispatch loop reads of the bot: the
    registered rules and the prefix. *)
Definition keeps_rules (call : handlers) : Prop :=
  keeps callbacks call /\ keeps PREFIX call.

(** No call of a handler raises. *)
Definition returns (call : handlers) : Prop :=
  forall f b m args, snd (call f b m args) = Ok tt.

(** The bot [b'] has sent what [b] had sent, and possibly more after it,
    and is connected if [b] was. *)
Definition sent_more (b b' : Bot) : Prop :=
  (exists more, IRC.sent (irc b') = (IRC.sent (irc b) ++ more)%list)
  /\ IRC.connected (irc b') = IRC.connected (irc b).

(** The handlers only add to what the connection has sent, and leave
    [connected] alone. *)
Definition only_sends (call : handlers) : Prop :=
  forall f b m args, sent_more b (fst (call f b m args)).

(** The rules of a list in turn, on the bot each one is handed by the one
    before, up to the first exception. *)
Fixpoint run_rules (call : handlers) (b : Bot) (message : Message)
    (cbs : list Command) (done : list action) : Bot * list action * option exn :=
  match cbs with
  | [] => (b, done, None)
  | cb :: cbs' =>
      match run_callback call b message cb with
      | (b', acts, None) => run_rules call b' message cbs' (done ++ acts)%list
      | (b', acts, Some e) => (b', (done ++ acts)%list, Some e)
      end
  end.

(** Handlers for the examples: the function foo of the documentation of
    [command] answers pong where the message came from, the function boom
    raises, and any other function returns at once. *)
Definition example_handlers : handlers :=
  fun f b m args =>
    if String.eqb (fn_name f) "foo" then (Bot_send b (to m) "pong", Ok tt)
    else if String.eqb (fn_name f) "boom" then (b, Raise (OtherError "Boom"))
    else (b, Ok tt).

(** Handlers that do nothing. *)
Definition idle_handlers : handlers := fun _ b _ _ => (b, Ok tt).

(** Handlers that all answer pong where the message came from. *)
Definition pong_handlers : handlers :=
  fun _ b m _ => (Bot_send b (to m) "pong", Ok tt).

Definition push_sent (b : Bot) (lines : list string) : Bot :=
  with_irc b
    (IRC.mk (IRC.connected (irc b)) (IRC.inbox (irc b)) (IRC.sent (irc b) ++ lines)%list).

(** [rest] does not begin with a character of the class. *)
Definition stops (cls : ascii -> bool) (rest : string) : Prop :=
  match rest with
  | EmptyString => True
  | String c _ => cls c = false
  end.

Definition quoted (qc : ascii) (cls : ascii -> bool) : regex :=
  Seq (Lit (String qc "")) (Seq (Plus cls) (Seq (Lit (String qc "")) (Star blank))).

Definition word : regex := Seq (Plus not_blank) (Star blank).

(** A token without whitespace that does not begin with a quote. *)
Definition plain_word (w : string) : bool :=
  match w with
  | EmptyString => false
  | String c _ =>
      negb (Ascii.eqb c dquote) && negb (Ascii.eqb c squote)
      && all_in MessagePattern.nonspace w
  end.

(** The text made of [n] times the character [c]. *)
Fixpoint repeat_char (c : ascii) (n : nat) : string :=
  match n with
  | O => EmptyString
  | S k => String c (repeat_char c k)
  end.

(** The last character of the text [String c s]. *)
Fixpoint last_char (c : ascii) (s : string) : ascii :=
  match s with
  | EmptyString => c
  | String d s' => last_char d s'
  end.

(** A token that has no blank, no whitespace at either end, and no quote
    at its head; whitespace other than the blank may stand inside it. *)
Definition kept_word (w : string) : bool :=
  match w with
  | EmptyString => false
  | String c w' =>
      negb (Ascii.eqb c dquote) && negb (Ascii.eqb c squote)
      && all_in not_blank w
      && negb (isspace c) && negb (isspace (last_char c w'))
  end.

(** What the loop body of [parse] does after the strip: a text that
    begins and ends with the same kind of quote loses both. *)
Definition unquote (m : string) : string :=
  if (startswith DQ m && endswith DQ m) || (startswith SQ m && endswith SQ m)
  then slice_1_m1 m
  else m.

(** [" ".join(ws)] *)
Fixpoint join_blank (ws : list string) : string :=
  match ws with
  | [] => EmptyString
  | [w] => w
  | w :: ws' => w ++ " " ++ join_blank ws'
  end.

(** A bot with one rule registered without [add_to_help], and the name of
    that rule or another name. *)
Definition ping_command : Command :=
  Decorators.command "ping" [] "Answer pong." (mkFunc "foo" "" [] []).

Definition bot_with_ping : Bot :=
  add_command (Bot_init [] ["#general"] "!" 100) ping_command false.

(** A Named rule with one required [int] parameter, and a bot that has it
    after the rule ping. *)
Definition add_rule : Command :=
  Decorators.command "add" [] "Add a number." (mkFunc "add" "" [TInt] []).

Definition bot_with_ping_add : Bot := add_command bot_with_ping add_rule false.

(** A rule named boom that also answers to the name ping, and a bot that
    has it before the rule ping. *)
Definition boom_rule : Command :=
  Decorators.command "boom" ["ping"] "Raise." (mkFunc "boom" "" [] []).

Definition bot_with_boom_ping : Bot :=
  add_command (add_command (Bot_init [] ["#general"] "!" 100) boom_rule false)
    ping_command false.

(** A line the reader puts on the inbound queue. *)
Definition enqueued (l : string) : bool :=
  negb (startswith "PING" l) && negb (String.length l =? 0)%nat.

(** The answer the reader sends to a keep-alive line. *)
Definition pong (l : string) : string := replace "PING" "PONG" l ++ CRLF.

(** [CRLF.join] of the lines, each followed by the separator. *)
Fixpoint frame (lines : list string) : string :=
  match lines with
  | [] => EmptyString
  | l :: lines' => l ++ CRLF ++ frame lines'
  end.

(** A text without any of the characters [str.splitlines] breaks at. *)
Definition no_linebreak (l : string) : bool :=
  all_in (fun c => negb (islinebreak c)) l.

(** The line [Bot.send] writes for one line of the message. *)
Definition privmsg (target line : string) : string :=
  "PRIVMSG " ++ target ++ " :" ++ line ++ CRLF.

(** The commands among the attributes of a module, in the order of [dir]. *)
Definition module_commands (m : pymodule) : list Command :=
  flat_map (fun attr => match snd attr with Some c => [c] | None => [] end) m.

(** The messages the main loop receives from a queue, in order. *)
Definition received (q : list string) : list Message :=
  map Message_init (filter (contains " PRIVMSG ") q).

(** The calls the rules of [b] make for a message. *)
Definition calls_for (b : Bot) (message : Message) : list action :=
  flat_map (calls_of b message) (Dict.values (callbacks b)).

(** The line [IRC.join] writes. *)
Definition join_line (channel : string) : string := "JOIN " ++ channel ++ CRLF.

(** A bot made from a module that holds the help command of the library,
    under the name the module gives its function, and the rule ping: both
    are documented. *)
Definition bot_with_help : Bot :=
  add_commands_module (Bot_init [] ["#general"] "!" 100)
    [("auto_help", Some AutoHelp.command); ("foo", Some ping_command)].

(** A connected bot whose history is a [History] of capacity 2, with four
    lines waiting on the queue. *)
Definition bot_with_history : Bot :=
  with_history
    (with_irc bot_with_ping
       (IRC.mk true [":srv 001 bot :Welcome"; ":alice PRIVMSG #room :!ping";
                     "NOTICE PRIVMSG x"; ":bob PRIVMSG #room :hello"] []))
    (HistoryObj (History.mk [mkMessage "carol" "#room" "old"] 2)).

End SpecDefinitions.

(* ================================================================= *)
(** * Properties *)

(** ** History: a bounded first-in first-out store *)

Section HistoryFacts.
Context {A : Type}.
Implicit Types (h : History.t A) (xs c l m : list A).

Lemma lastn_short : forall n l, (List.length l <= n)%nat -> lastn n l = l.
Proof.
  intros n l Hl. unfold lastn.
  replace (List.length l - n)%nat with 0%nat by lia. reflexivity.
Qed.

Lemma lastn_length : forall n l,
  List.length (lastn n l) = Nat.min n (List.length l).
Proof.
  intros n l. unfold lastn. rewrite length_skipn. lia.
Qed.

Lemma lastn_app_lastn : forall n l m,
  lastn n (lastn n l ++ m)%list = lastn n (l ++ m)%list.
Proof.
  intros n l m.
  destruct (Nat.le_gt_cases (List.length l) n) as [Hle | Hgt].
  - rewrite (lastn_short n l Hle). reflexivity.
  - unfold lastn at 1 3.
    rewrite !length_app, lastn_length.
    replace (Nat.min n (List.length l)) with n by lia.
    unfold lastn.
    replace (n + List.length m - n)%nat with (List.length m) by lia.
    replace (List.length l + List.length m - n)%nat
      with (List.length m + (List.length l - n))%nat by lia.
    rewrite <- skipn_skipn, (skipn_app (List.length l - n) l m).
    replace (List.length l - n - List.length l)%nat with 0%nat by lia.
    reflexivity.
Qed.

Lemma add_keeps_last : forall h e,
  (0 < History.limit h)%Z ->
  (Z.of_nat (List.length (History.content h)) <= History.limit h)%Z ->
  History.add h e =
    Ok (History.mk
          (lastn (Z.to_nat (History.limit h)) (History.content h ++ [e])%list)
          (History.limit h)).
Proof.
  intros [c N] e HN Hlen; simpl in *.
  unfold History.add; simpl.
  destruct (Z.eqb_spec (Z.of_nat (List.length c)) N) as [Heq | Hne].
  - destruct c as [| x rest]; [simpl in Heq; lia |].
    simpl History.pop0. cbv iota beta. do 2 f_equal.
    unfold lastn. rewrite length_app.
    simpl List.length in *.
    replace (S (List.length rest) + 1 - Z.to_nat N)%nat with 1%nat by lia.
    reflexivity.
  - do 2 f_equal. symmetry. apply lastn_short.
    rewrite length_app. simpl. lia.
Qed.

Lemma add_all_keeps_last : forall xs h,
  (0 < History.limit h)%Z ->
  (Z.of_nat (List.length (History.content h)) <= History.limit h)%Z ->
  History.add_all h xs =
    Ok (History.mk
          (lastn (Z.to_nat (History.limit h)) (History.content h ++ xs)%list)
          (History.limit h)).
Proof.
  induction xs as [| x xs IH]; intros h HN Hlen.
  - simpl. rewrite app_nil_r, lastn_short by lia.
    destruct h; reflexivity.
  - simpl. rewrite add_keeps_last by assumption.
    rewrite IH; simpl.
    + rewrite lastn_app_lastn, <- app_assoc. reflexivity.
    + assumption.
    + rewrite lastn_length. lia.
Qed.

Lemma stored_limit_pos : forall lim,
  (0 <= lim)%Z -> (0 < History.stored_limit lim)%Z.
Proof.
  intros lim H. unfold History.stored_limit.
  destruct (Z.eqb_spec lim 0); lia.
Qed.

End HistoryFacts.

(** C5.  A History constructed with a limit [lim >= 0] has the capacity
    [N = stored_limit lim] (100 for 0).  Whatever is inserted, every [add]
    returns; the stored sequence is the last [N] elements inserted, in
    insertion order (exactly [skipn k xs] after [N + k] insertions); its
    length never exceeds [N]; and an insertion into a full History drops
    its oldest element and appends the new one. *)
Theorem C5_history_keeps_last_N :
  forall (A : Type) (lim : Z) (xs : list A),
    (0 <= lim)%Z ->
    exists h : History.t A,
      History.add_all (History.init lim) xs = Ok h
      /\ History.limit h = History.stored_limit lim
      /\ History.get h = lastn (Z.to_nat (History.stored_limit lim)) xs
      /\ (Z.of_nat (History.len h) <= History.stored_limit lim)%Z
      /\ (forall k : nat,
            List.length xs = (Z.to_nat (History.stored_limit lim) + k)%nat ->
            History.get h = skipn k xs
            /\ History.len h = Z.to_nat (History.stored_limit lim))
      /\ (forall e : A,
            Z.of_nat (History.len h) = History.stored_limit lim ->
            exists oldest rest,
              History.get h = oldest :: rest
              /\ History.add h e =
                   Ok (History.mk (rest ++ [e])%list (History.stored_limit lim))).
Proof.
  intros A lim xs Hlim.
  pose proof (stored_limit_pos lim Hlim) as HN.
  set (N := History.stored_limit lim) in *.
  exists (History.mk (lastn (Z.to_nat N) xs) N).
  assert (Hlen : List.length (lastn (Z.to_nat N) xs)
                 = Nat.min (Z.to_nat N) (List.length xs))
    by apply lastn_length.
  split; [| split; [| split; [| split; [| split]]]].
  - unfold History.init. fold N.
    rewrite add_all_keeps_last; simpl; [reflexivity | lia | lia].
  - reflexivity.
  - reflexivity.
  - unfold History.len; simpl. lia.
  - intros k Hk. unfold History.get, History.len; simpl. split.
    + unfold lastn. f_equal. lia.
    + lia.
  - intros e Hfull. unfold History.len, History.get in *.
    cbn [History.content] in *.
    destruct (lastn (Z.to_nat N) xs) as [| oldest rest] eqn:E;
      [cbn [List.length] in Hfull; lia |].
    exists oldest, rest. split; [reflexivity |].
    unfold History.add. cbn [History.content History.limit].
    rewrite (proj2 (Z.eqb_eq _ _) Hfull). reflexivity.
Qed.

Lemma C5_history_keeps_last_N_witness :
  (0 <= 3)%Z
  /\ exists h : History.t nat,
      History.add_all (History.init 3) [1; 2; 3; 4; 5]%nat = Ok h
      /\ History.limit h = History.stored_limit 3
      /\ History.get h = lastn (Z.to_nat (History.stored_limit 3)) [1; 2; 3; 4; 5]%nat
      /\ (Z.of_nat (History.len h) <= History.stored_limit 3)%Z
      /\ (forall k : nat,
            List.length [1; 2; 3; 4; 5]%nat = (Z.to_nat (History.stored_limit 3) + k)%nat ->
            History.get h = skipn k [1; 2; 3; 4; 5]%nat
            /\ History.len h = Z.to_nat (History.stored_limit 3))
      /\ (forall e : nat,
            Z.of_nat (History.len h) = History.stored_limit 3 ->
            exists oldest rest,
              History.get h = oldest :: rest
              /\ History.add h e =
                   Ok (History.mk (rest ++ [e])%list (History.stored_limit 3))).
Proof.
  split; [lia |].
  apply (C5_history_keeps_last_N nat 3 [1; 2; 3; 4; 5]%nat). lia.
Defined.

(** The stored sequence on a concrete run: capacity 3, five insertions. *)
Example history_run :
  History.add_all (History.init 3) [1; 2; 3; 4; 5]%nat
  = Ok (History.mk [3; 4; 5]%nat 3).
Proof. reflexivity. Qed.

(** A negative argument is stored as it is; no length equals it, so
    nothing is ever dropped. *)
Example history_negative_limit :
  History.add_all (History.init (-1)) [1; 2; 3]%nat
  = Ok (History.mk [1; 2; 3]%nat (-1)).
Proof. reflexivity. Qed.

(** ** Dicts *)

Section DictFacts.
Context {V : Type}.
Implicit Types (d : Dict.t V) (k : string).

Lemma dict_mem_remove : forall d k, Dict.mem (Dict.remove d k) k = false.
Proof.
  intros d k. unfold Dict.mem. induction d as [| [k' v] d IH]; simpl; [reflexivity |].
  destruct (String.eqb k' k) eqn:E; simpl; [exact IH |].
  rewrite E. exact IH.
Qed.

Lemma dict_get_remove_other : forall d k k',
  k' <> k -> Dict.get (Dict.remove d k) k' = Dict.get d k'.
Proof.
  intros d k k' Hne. induction d as [| [k0 v] d IH]; simpl; [reflexivity |].
  destruct (String.eqb_spec k0 k) as [-> | Hk0]; simpl.
  - destruct (String.eqb_spec k k'); [congruence | exact IH].
  - destruct (String.eqb k0 k'); [reflexivity | exact IH].
Qed.

Lemma dict_pop_absent : forall d k,
  Dict.mem d k = false -> Dict.pop d k = Raise KeyError.
Proof.
  intros d k. unfold Dict.mem, Dict.pop. destruct (Dict.get d k); [discriminate | reflexivity].
Qed.

Lemma dict_pop_present : forall d k,
  Dict.mem d k = true -> exists v, Dict.pop d k = Ok (v, Dict.remove d k).
Proof.
  intros d k. unfold Dict.mem, Dict.pop. destruct (Dict.get d k) as [v |]; [| discriminate].
  intros _. exists v. reflexivity.
Qed.

(** Assigning to a new key puts it last; assigning to a present key keeps
    the order of the keys. *)
Lemma dict_set_fresh : forall d k v,
  Dict.mem d k = false -> Dict.set d k v = (d ++ [(k, v)])%list.
Proof.
  intros d k v. unfold Dict.mem. induction d as [| [k' v'] d IH]; simpl; [reflexivity |].
  destruct (String.eqb k' k); [discriminate |].
  intros H. rewrite IH by exact H. reflexivity.
Qed.

Lemma dict_set_keys_present : forall d k v,
  Dict.mem d k = true -> Dict.keys (Dict.set d k v) = Dict.keys d.
Proof.
  intros d k v. unfold Dict.mem, Dict.keys.
  induction d as [| [k' v'] d IH]; simpl; [discriminate |].
  destruct (String.eqb k' k); simpl; [reflexivity |].
  intros H. rewrite IH by exact H. reflexivity.
Qed.

End DictFacts.

(** ** Bot.remove_command *)

(** C10.  For a name that is a key of [callbacks] and not of
    [commands_help], [remove_command] raises KeyError after it has taken
    the rule out of [callbacks]: the bot left behind has lost the rule in
    [callbacks] and has its [commands_help] untouched.  For a name that is
    not a key of [callbacks] the call returns and the bot is unchanged. *)
Theorem C10_remove_command_undocumented :
  forall (b : Bot) (command_name : string),
    (Dict.mem (callbacks b) command_name = true ->
     Dict.mem (commands_help b) command_name = false ->
     exists b' : Bot,
       remove_command b command_name = (b', Raise KeyError)
       /\ callbacks b' = Dict.remove (callbacks b) command_name
       /\ Dict.mem (callbacks b') command_name = false
       /\ commands_help b' = commands_help b)
    /\ (Dict.mem (callbacks b) command_name = false ->
        remove_command b command_name = (b, Ok tt)).
Proof.
  intros b command_name. split.
  - intros Hcb Hhelp. unfold remove_command. rewrite Hcb.
    destruct (dict_pop_present _ _ Hcb) as [v Hpop]. rewrite Hpop.
    cbn [commands_help with_callbacks].
    rewrite (dict_pop_absent _ _ Hhelp).
    eexists. split; [reflexivity |]. cbn [callbacks commands_help].
    split; [reflexivity |]. split; [apply dict_mem_remove | reflexivity].
  - intros Hcb. unfold remove_command. rewrite Hcb. reflexivity.
Qed.

Lemma C10_remove_command_undocumented_witness :
  (Dict.mem (callbacks bot_with_ping) "ping" = true ->
   Dict.mem (commands_help bot_with_ping) "ping" = false ->
   exists b' : Bot,
     remove_command bot_with_ping "ping" = (b', Raise KeyError)
     /\ callbacks b' = Dict.remove (callbacks bot_with_ping) "ping"
     /\ Dict.mem (callbacks b') "ping" = false
     /\ commands_help b' = commands_help bot_with_ping)
  /\ Dict.mem (callbacks bot_with_ping) "ping" = true
  /\ Dict.mem (commands_help bot_with_ping) "ping" = false.
Proof.
  split; [| split; reflexivity].
  exact (proj1 (C10_remove_command_undocumented bot_with_ping "ping")).
Defined.

(** With [add_to_help] the same removal returns and empties both dicts. *)
Example remove_documented :
  remove_command (add_command (Bot_init [] [] "!" 100) ping_command true) "ping"
  = (Bot_init [] [] "!" 100, Ok tt).
Proof. reflexivity. Qed.

Example remove_undocumented :
  remove_command bot_with_ping "ping"
  = (Bot_init [] ["#general"] "!" 100, Raise KeyError).
Proof. reflexivity. Qed.

(** ** Strings *)

Section StringFacts.
Import PyStr.
Implicit Types (s p r : string) (c : ascii).

Lemma str_app_assoc : forall s p r, (s ++ p) ++ r = s ++ (p ++ r).
Proof.
  induction s as [| c s IH]; intros p r; simpl; [reflexivity |].
  rewrite IH. reflexivity.
Qed.

Lemma str_app_nil_r : forall s, s ++ "" = s.
Proof.
  induction s as [| c s IH]; simpl; [reflexivity | rewrite IH; reflexivity].
Qed.

Lemma str_length_app : forall s p,
  String.length (s ++ p) = (String.length s + String.length p)%nat.
Proof.
  induction s as [| c s IH]; intros p; simpl; [reflexivity |].
  rewrite IH. reflexivity.
Qed.

Lemma str_app_inv_head : forall s p r, s ++ p = s ++ r -> p = r.
Proof.
  induction s as [| c s IH]; intros p r H; simpl in H; [exact H |].
  injection H as H. exact (IH _ _ H).
Qed.

Lemma prefix_app : forall p r, String.prefix p (p ++ r) = true.
Proof.
  induction p as [| c p IH]; intros r; simpl; [destruct r; reflexivity |].
  destruct (ascii_dec c c) as [_ | Hne]; [apply IH | congruence].
Qed.

Lemma prefix_split : forall p s,
  String.prefix p s = true -> exists r, s = p ++ r.
Proof.
  induction p as [| c p IH]; intros s H.
  - exists s. reflexivity.
  - destruct s as [| c' s]; simpl in H; [discriminate |].
    destruct (ascii_dec c c') as [<- | _]; [| discriminate].
    destruct (IH s H) as [r ->]. exists r. reflexivity.
Qed.

Lemma prefix_iff : forall p s,
  String.prefix p s = true <-> exists r, s = p ++ r.
Proof.
  intros p s. split; [apply prefix_split |].
  intros [r ->]. apply prefix_app.
Qed.

Lemma drop_app : forall p r, drop (String.length p) (p ++ r) = r.
Proof.
  induction p as [| c p IH]; intros r; simpl; [destruct r; reflexivity | apply IH].
Qed.

Lemma take_app : forall p r, take (String.length p) (p ++ r) = p.
Proof.
  induction p as [| c p IH]; intros r; simpl; [destruct r; reflexivity |].
  rewrite IH. reflexivity.
Qed.

Lemma contains_app : forall sub s r,
  contains sub (s ++ r) = false -> contains sub r = false.
Proof.
  intros sub s r. induction s as [| c s IH]; simpl; [tauto |].
  intros H. apply orb_false_iff in H. tauto.
Qed.

(** Where [old] does not occur, [replace] changes nothing. *)
Lemma replace_absent : forall old new s,
  contains old s = false -> replace old new s = s.
Proof.
  intros old new s. unfold replace.
  induction s as [| c s IH]; intros H; [reflexivity |].
  cbn [contains] in H. apply orb_false_iff in H. destruct H as [Hp Hc].
  cbn [replace_from]. rewrite Hp, (IH Hc). reflexivity.
Qed.

(** An occurrence at the front is replaced and the scan resumes after it. *)
Lemma replace_PING_front : forall r,
  replace "PING" "PONG" ("PING" ++ r) = "PONG" ++ replace "PING" "PONG" r.
Proof.
  intros r. unfold replace.
  change ("PING" ++ r) with (String "P" (String "I" (String "N" (String "G" r)))).
  cbn [replace_from].
  replace (String.prefix "PING" (String "P" (String "I" (String "N" (String "G" r)))))
    with true by (symmetry; apply (prefix_app "PING" r)).
  reflexivity.
Qed.

End StringFacts.

(** ** The reader thread *)

Section ReaderFacts.
Import PyStr.

Lemma handle_lines : forall lines st,
  fold_left IRC.handle_line lines st
  = IRC.mk (IRC.connected st)
      (IRC.inbox st ++ filter enqueued lines)%list
      (IRC.sent st ++ map pong (filter (startswith "PING") lines))%list.
Proof.
  induction lines as [| l lines IH]; intros st; cbn [fold_left filter map].
  - rewrite !app_nil_r. destruct st; reflexivity.
  - rewrite IH. unfold IRC.handle_line, enqueued.
    destruct (startswith "PING" l) eqn:Ep; cbn [negb andb].
    + cbn [IRC.send IRC.connected IRC.inbox IRC.sent map].
      rewrite <- app_assoc. reflexivity.
    + destruct (String.length l =? 0)%nat; cbn [negb].
      * reflexivity.
      * cbn [IRC.put IRC.connected IRC.inbox IRC.sent].
        rewrite <- app_assoc. reflexivity.
Qed.

Lemma filter_enqueued_ok : forall lines,
  forallb enqueued (filter enqueued lines) = true.
Proof.
  induction lines as [| l lines IH]; cbn [filter forallb]; [reflexivity |].
  destruct (enqueued l) eqn:E; [| exact IH].
  cbn [forallb]. rewrite E, IH. reflexivity.
Qed.

(** No occurrence of the separator begins in [line], also when the
    separator follows it. *)
Lemma prefix_CRLF_app : forall c l rest,
  contains CRLF (String c l) = false ->
  String.prefix CRLF (String c l ++ CRLF ++ rest) = false.
Proof.
  intros c l rest H. cbn [contains] in H. apply orb_false_iff in H.
  destruct H as [Hp _]. unfold CRLF in *.
  destruct l as [| c' l]; cbn [append String.prefix] in *.
  - destruct (ascii_dec CR c); [| reflexivity].
    destruct (ascii_dec LF CR); [discriminate | reflexivity].
  - destruct (ascii_dec CR c); [| reflexivity].
    destruct (ascii_dec LF c'); [| reflexivity].
    destruct l; discriminate Hp.
Qed.

Lemma prefix_CRLF_tail : forall c l,
  contains CRLF (String c l) = false ->
  String.prefix CRLF (String c l) = false.
Proof.
  intros c l H. cbn [contains] in H. apply orb_false_iff in H. tauto.
Qed.

Lemma contains_tail : forall sub c l,
  contains sub (String c l) = false -> contains sub l = false.
Proof.
  intros sub c l H. cbn [contains] in H. apply orb_false_iff in H. tauto.
Qed.

(** A piece without the separator in it, followed by the separator, is cut
    off as one piece. *)
Lemma split_from_line : forall line cur rest,
  contains CRLF line = false ->
  split_from CRLF 0 cur (line ++ CRLF ++ rest)
  = (cur ++ line) :: split_from CRLF 0 EmptyString rest.
Proof.
  induction line as [| c l IH]; intros cur rest H.
  - rewrite str_app_nil_r. unfold CRLF. cbn [append split_from String.length Nat.sub].
    replace (String.prefix (String CR (String LF "")) (String CR (String LF rest)))
      with true by (symmetry; apply (prefix_app (String CR (String LF "")) rest)).
    reflexivity.
  - change (String c l ++ CRLF ++ rest) with (String c (l ++ CRLF ++ rest)).
    cbn [split_from].
    change (String c (l ++ CRLF ++ rest)) with (String c l ++ CRLF ++ rest).
    rewrite (prefix_CRLF_app c l rest H).
    rewrite (IH _ rest (contains_tail _ _ _ H)), str_app_assoc. reflexivity.
Qed.

(** A piece without the separator in it, at the end of the data, is the
    last piece. *)
Lemma split_from_tail : forall tail cur,
  contains CRLF tail = false ->
  split_from CRLF 0 cur tail = [cur ++ tail].
Proof.
  induction tail as [| c l IH]; intros cur H.
  - rewrite str_app_nil_r. reflexivity.
  - cbn [split_from]. rewrite (prefix_CRLF_tail c l H).
    rewrite (IH _ (contains_tail _ _ _ H)), str_app_assoc. reflexivity.
Qed.

Lemma split_frame : forall lines tail,
  forallb (fun l => negb (contains CRLF l)) lines = true ->
  contains CRLF tail = false ->
  split CRLF (frame lines ++ tail) = (lines ++ [tail])%list.
Proof.
  unfold split. induction lines as [| l lines IH]; intros tail Hl Ht; cbn [frame app].
  - cbn [append]. rewrite (split_from_tail tail "" Ht). reflexivity.
  - cbn [forallb] in Hl. apply andb_true_iff in Hl. destruct Hl as [Hl Hls].
    apply negb_true_iff in Hl.
    rewrite !str_app_assoc, (split_from_line l "" _ Hl), (IH tail Hls Ht).
    reflexivity.
Qed.

End ReaderFacts.

(** The reader on framed lines and an unfinished tail. *)
Lemma handle_framed_lines : forall (st : IRC.t) (lines : list string) (tail : string),
  forallb (fun l => negb (PyStr.contains PyStr.CRLF l)) lines = true ->
  PyStr.contains PyStr.CRLF tail = false ->
  IRC.handle st (frame lines ++ tail)
  = IRC.mk (IRC.connected st)
      (IRC.inbox st ++ filter enqueued (lines ++ [tail]))%list
      (IRC.sent st
       ++ map pong (filter (PyStr.startswith "PING") (lines ++ [tail])))%list.
Proof.
  intros st lines tail Hl Ht. unfold IRC.handle.
  rewrite (split_frame lines tail Hl Ht). apply handle_lines.
Qed.

Section PingFacts.
Import PyStr.

(** Where [PING] occurs, the replacement changes the text. *)
Lemma replace_PING_present : forall s,
  contains "PING" s = true -> replace "PING" "PONG" s <> s.
Proof.
  unfold replace. induction s as [| c s IH]; intros H; [discriminate |].
  cbn [contains] in H. cbn [replace_from].
  destruct (String.prefix "PING" (String c s)) eqn:Hp.
  - destruct (prefix_split _ _ Hp) as [r Hr].
    rewrite Hr. cbn. intros E. discriminate E.
  - cbn [orb] in H. intros E. injection E as E. exact (IH H E).
Qed.

Lemma replace_PING_same_iff : forall s,
  replace "PING" "PONG" s = s <-> contains "PING" s = false.
Proof.
  intros s. split.
  - intros H. destruct (contains "PING" s) eqn:E; [| reflexivity].
    exfalso. exact (replace_PING_present s E H).
  - apply replace_absent.
Qed.

Lemma frame_one : forall line, frame [line] ++ "" = line ++ CRLF.
Proof.
  intros line. cbn [frame]. rewrite !str_app_nil_r. reflexivity.
Qed.

End PingFacts.

(** C8.  One read that carries one whole line.  A line that starts with
    PING is answered in that turn of the reader and is not put on the
    inbound queue; any other line that is not empty is put at the end of
    the queue and nothing is sent.  The answer is the line with every PING
    in it replaced by PONG, not only the first: it is PONG followed by the
    token of the PING exactly when that token holds no PING.  A token that
    does, as in the last part, comes back changed, which is not the PONG
    that corresponds to the PING. *)
Theorem C8_reader_answers_ping :
  forall (st : IRC.t) (line : string),
    PyStr.contains PyStr.CRLF line = false ->
    (PyStr.startswith "PING" line = true ->
     exists token : string,
       line = "PING" ++ token
       /\ IRC.handle st (line ++ PyStr.CRLF)
          = IRC.mk (IRC.connected st) (IRC.inbox st)
              (IRC.sent st
               ++ [("PONG" ++ PyStr.replace "PING" "PONG" token ++ PyStr.CRLF)%string])%list
       /\ (PyStr.replace "PING" "PONG" token = token
           <-> PyStr.contains "PING" token = false))
    /\ (PyStr.startswith "PING" line = false ->
        line <> "" ->
        IRC.handle st (line ++ PyStr.CRLF)
        = IRC.mk (IRC.connected st) (IRC.inbox st ++ [line])%list (IRC.sent st))
    /\ IRC.handle st ("PING :PING42" ++ PyStr.CRLF)
       = IRC.mk (IRC.connected st) (IRC.inbox st)
           (IRC.sent st ++ [("PONG :PONG42" ++ PyStr.CRLF)%string])%list.
Proof.
  intros st line Hline.
  assert (Hread : IRC.handle st (line ++ PyStr.CRLF)
                  = IRC.mk (IRC.connected st)
                      (IRC.inbox st ++ filter enqueued [line; ""])%list
                      (IRC.sent st
                       ++ map pong (filter (PyStr.startswith "PING") [line; ""]))%list).
  { rewrite <- frame_one. apply (handle_framed_lines st [line] "").
    - cbn [forallb]. rewrite Hline. reflexivity.
    - reflexivity. }
  cbn [filter] in Hread.
  change (enqueued "") with false in Hread.
  change (PyStr.startswith "PING" "") with false in Hread.
  cbv iota in Hread.
  split; [| split].
  - intros Hping. destruct (prefix_split _ _ Hping) as [token Htok].
    exists token. split; [exact Htok |]. split; [| apply replace_PING_same_iff].
    rewrite Hread. unfold enqueued. rewrite Hping. cbn [negb andb map].
    rewrite app_nil_r. unfold pong. rewrite Htok.
    rewrite replace_PING_front, !str_app_assoc. reflexivity.
  - intros Hping Hne. rewrite Hread. unfold enqueued. rewrite Hping.
    destruct line as [| c line]; [congruence |].
    cbn [negb andb String.length Nat.eqb map]. rewrite app_nil_r. reflexivity.
  - rewrite <- frame_one.
    rewrite (handle_framed_lines st ["PING :PING42"] "" eq_refl eq_refl).
    cbn. rewrite app_nil_r. reflexivity.
Qed.

Lemma C8_reader_answers_ping_witness :
  PyStr.contains PyStr.CRLF "PING :irc.example.org" = false
  /\ (exists token : string,
        "PING :irc.example.org" = "PING" ++ token
        /\ IRC.handle IRC.init ("PING :irc.example.org" ++ PyStr.CRLF)
           = IRC.mk (IRC.connected IRC.init) (IRC.inbox IRC.init)
               (IRC.sent IRC.init
                ++ [("PONG" ++ PyStr.replace "PING" "PONG" token ++ PyStr.CRLF)%string])%list
        /\ (PyStr.replace "PING" "PONG" token = token
            <-> PyStr.contains "PING" token = false))
  /\ IRC.handle IRC.init (":srv 001 bot :Welcome" ++ PyStr.CRLF)
     = IRC.mk (IRC.connected IRC.init) (IRC.inbox IRC.init ++ [":srv 001 bot :Welcome"])%list
         (IRC.sent IRC.init).
Proof.
  assert (H1 : PyStr.contains PyStr.CRLF "PING :irc.example.org" = false) by reflexivity.
  assert (H2 : PyStr.contains PyStr.CRLF ":srv 001 bot :Welcome" = false) by reflexivity.
  split; [exact H1 | split].
  - exact (proj1 (C8_reader_answers_ping IRC.init "PING :irc.example.org" H1) eq_refl).
  - apply (proj1 (proj2 (C8_reader_answers_ping IRC.init ":srv 001 bot :Welcome" H2))).
    + reflexivity.
    + discriminate.
Defined.

(** One [recv] that carries a ping, a server line and an empty tail. *)
Example handle_chunk :
  IRC.handle IRC.init
    ("PING :abc" ++ PyStr.CRLF ++ ":srv 001 bot :Welcome" ++ PyStr.CRLF)
  = IRC.mk false [":srv 001 bot :Welcome"] ["PONG :abc" ++ PyStr.CRLF].
Proof. reflexivity. Qed.

(** The replacement reaches every PING of the line, the token included. *)
Example handle_ping_token :
  IRC.sent (IRC.handle_line IRC.init "PING :PING42")
  = ["PONG :PONG42" ++ PyStr.CRLF].
Proof. reflexivity. Qed.

(** ** The handshake *)

(** C7.  With a non-empty [auth], [connexion] sends USER and NICK and waits
    for the login prompt; when that line arrives the AUTH line is never
    built, because its f-string reads the names [username] and [password],
    which nothing binds: the call raises NameError.  No credentials are
    sent and [connected] keeps its value. *)
Theorem C7_auth_raises_NameError :
  forall (st : IRC.t) (nick a : string) (auth' : list string),
    snd (IRC.connexion st nick (a :: auth'))
    = match IRC.waitfor_in IRC.login_prompt (IRC.inbox st) with
      | Some _ => Raised NameError
      | None => Blocked
      end
    /\ IRC.sent (fst (IRC.connexion st nick (a :: auth')))
       = (IRC.sent st
          ++ [("USER " ++ nick ++ " * * :" ++ nick ++ PyStr.CRLF)%string;
              ("NICK " ++ nick ++ PyStr.CRLF)%string])%list
    /\ IRC.connected (fst (IRC.connexion st nick (a :: auth'))) = IRC.connected st.
Proof.
  intros st nick a auth'.
  unfold IRC.connexion, IRC.waitfor.
  cbn [IRC.send IRC.inbox IRC.sent IRC.connected].
  destruct (IRC.waitfor_in IRC.login_prompt (IRC.inbox st)) as [[msg q'] |];
    cbn; rewrite <- !app_assoc, !str_app_assoc; cbn;
    rewrite ?str_app_assoc; repeat split; reflexivity.
Qed.

(** The server prompts, then confirms: the handshake stops at the prompt. *)
Example connexion_with_auth :
  IRC.connexion
    (IRC.mk false [":srv NOTICE * :please /AUTH"; ":srv 900 :You are now logged in"] [])
    "bot" ["user"; "secret"]
  = (IRC.mk false [":srv 900 :You are now logged in"]
       ["USER bot * * :bot" ++ PyStr.CRLF; "NICK bot" ++ PyStr.CRLF],
     Raised NameError).
Proof. reflexivity. Qed.

(** Without [auth] the same lines connect the bot. *)
Example connexion_without_auth :
  IRC.connexion
    (IRC.mk false [":srv NOTICE * :please /AUTH"; ":srv 900 :You are now logged in"] [])
    "bot" []
  = (IRC.mk true []
       ["USER bot * * :bot" ++ PyStr.CRLF; "NICK bot" ++ PyStr.CRLF],
     Returned tt).
Proof. reflexivity. Qed.

(** ** The history of a bot *)

Lemma add_command_history : forall b c h,
  history (add_command b c h) = history b.
Proof.
  intros b c h. unfold add_command.
  destruct (cmnd_type c =? 2)%Z; destruct h; reflexivity.
Qed.

Lemma add_commands_history : forall cs b,
  history (add_commands b cs) = history b.
Proof.
  intros cs b. unfold add_commands.
  generalize (existsb (fun c => String.eqb "auto_help" (name c)) cs) as h.
  revert b. induction cs as [| c cs IH]; intros b h; simpl; [reflexivity |].
  rewrite IH. apply add_command_history.
Qed.

(** C1.  A bot made by [Bot.__init__], with any commands added, holds the
    integer [limit] in [history].  Whatever lines are queued, a turn of the
    main loop that receives a message raises AttributeError at
    [self.history.add(message)] (an [int] has no [add]); otherwise it is
    blocked in [receive].  In both cases [history] is still that integer:
    no message is ever recorded. *)
Theorem C1_history_add_raises :
  forall (call : handlers)
         (auth channels : list string) (prefix : string) (limit : Z)
         (commands : list Command) (connected : bool) (q sent : list string),
    snd (start_iteration call
           (with_irc (add_commands (Bot_init auth channels prefix limit) commands)
              (IRC.mk connected q sent)))
    = match IRC.receive_in q with
      | Some _ => Raised AttributeError
      | None => Blocked
      end
    /\ snd (fst (start_iteration call
                   (with_irc (add_commands (Bot_init auth channels prefix limit) commands)
                      (IRC.mk connected q sent))))
       = []
    /\ history
         (fst (fst (start_iteration call
                      (with_irc (add_commands (Bot_init auth channels prefix limit) commands)
                         (IRC.mk connected q sent)))))
       = HistoryInt limit.
Proof.
  intros call auth channels prefix limit commands connected q sent.
  pose proof (add_commands_history commands (Bot_init auth channels prefix limit)) as Hh.
  cbn [Bot_init history] in Hh.
  unfold start_iteration, IRC.receive.
  cbn [with_irc irc IRC.inbox].
  destruct (IRC.receive_in q) as [[msg q'] |]; cbn [with_irc history fst snd].
  - rewrite Hh. cbn [fst snd history]. split; [reflexivity | split; [reflexivity | exact Hh]].
  - split; [reflexivity | split; [reflexivity | exact Hh]].
Qed.

(** A whole run of [Bot.start]: the handshake succeeds, the channel is
    joined, and the first message ends the loop before any rule is tried. *)
Example start_raises_on_first_message :
  start example_handlers 5
    (with_irc bot_with_ping
       (IRC.mk false [":srv 900 :You are now logged in";
                      ":alice!a@host PRIVMSG #general :!ping"] []))
    "bot"
  = (with_irc bot_with_ping
       (IRC.mk true []
          ["USER bot * * :bot" ++ PyStr.CRLF; "NICK bot" ++ PyStr.CRLF;
           "JOIN #general" ++ PyStr.CRLF]),
     [], Raised AttributeError).
Proof. reflexivity. Qed.

(** With a [History] object assigned to the attribute, the same message is
    recorded and dispatched: the handler of ping is called and answers. *)
Example start_with_history_object :
  start example_handlers 5
    (with_history
       (with_irc bot_with_ping
          (IRC.mk false [":srv 900 :You are now logged in";
                         ":alice!a@host PRIVMSG #general :!ping"] []))
       (HistoryObj (History.init 100)))
    "bot"
  = (with_history
       (with_irc bot_with_ping
          (IRC.mk true []
             ["USER bot * * :bot" ++ PyStr.CRLF; "NICK bot" ++ PyStr.CRLF;
              "JOIN #general" ++ PyStr.CRLF;
              "PRIVMSG #general :pong" ++ PyStr.CRLF]))
       (HistoryObj (History.mk [mkMessage "alice" "#general" "!ping"] 100)),
     [Called "ping" (mkMessage "alice" "#general" "!ping") []], Blocked).
Proof. reflexivity. Qed.

(** ** Named rules *)

Section NamedRules.
Import PyStr.

Lemma accepts_iff : forall P C t,
  (String.eqb t (P ++ C) || startswith (P ++ C ++ " ") t) = true <-> accepts P C t.
Proof.
  intros P C t. unfold accepts, startswith.
  rewrite orb_true_iff, String.eqb_eq, prefix_iff.
  split; (intros [H | [more H]]; [left; exact H | right; exists more]).
  - rewrite H, !str_app_assoc. reflexivity.
  - rewrite H, !str_app_assoc. reflexivity.
Qed.

Lemma command_event_iff : forall names P m,
  Decorators.command_event names P m = true
  <-> exists C, In C names /\ accepts P C (text m).
Proof.
  intros names P m. unfold Decorators.command_event.
  rewrite existsb_exists.
  split; intros [C [HC H]]; exists C; (split; [exact HC |]); apply accepts_iff; exact H.
Qed.

Lemma accepts_startswith : forall P C t,
  accepts P C t -> startswith (P ++ C) t = true.
Proof.
  intros P C t [-> | [more ->]]; unfold startswith.
  - rewrite <- (str_app_nil_r (P ++ C)) at 2. apply prefix_app.
  - rewrite <- str_app_assoc. apply prefix_app.
Qed.

Lemma accepts_no_space : forall P C c x,
  c <> " "%char -> ~ accepts P C (P ++ C ++ String c x).
Proof.
  intros P C c x Hc [H | [more H]].
  - apply str_app_inv_head in H.
    rewrite <- (str_app_nil_r C) in H at 2.
    apply str_app_inv_head in H. discriminate.
  - do 2 apply str_app_inv_head in H.
    simpl in H. injection H as H _. congruence.
Qed.

Lemma aliases_name : forall name alias, In name (Decorators.aliases name alias).
Proof.
  intros name alias. unfold Decorators.aliases.
  destruct alias as [| a alias]; [left; reflexivity |].
  destruct (existsb (String.eqb name) (a :: alias)) eqn:E; cbn [negb].
  - apply existsb_exists in E. destruct E as [C [HC E]].
    apply String.eqb_eq in E. subst C. exact HC.
  - apply in_or_app. right. left. reflexivity.
Qed.

Lemma aliases_alias : forall name alias C,
  In C alias -> In C (Decorators.aliases name alias).
Proof.
  intros name alias C HC. unfold Decorators.aliases.
  destruct alias as [| a alias]; [contradiction |].
  destruct (negb (existsb (String.eqb name) (a :: alias))); [| exact HC].
  apply in_or_app. left. exact HC.
Qed.

End NamedRules.

(** C3 as stated fails with aliases: the rule named help with the alias h
    accepts the text !help, which is !h directly followed by a character
    that is not a space, and accepts !h, which does not start with !help. *)
Lemma C3_alias_counterexample :
  ~ (forall (P name : string) (alias : list string) (C : string) (c : ascii)
            (x : string) (m : Message),
       In C (Decorators.aliases name alias) ->
       c <> " "%char ->
       text m = P ++ C ++ String c x ->
       Decorators.command_event (Decorators.aliases name alias) P m = false)
  /\ ~ (forall (P name : string) (alias : list string) (C : string) (m : Message),
          In C (Decorators.aliases name alias) ->
          PyStr.startswith (P ++ C) (text m) = false ->
          Decorators.command_event (Decorators.aliases name alias) P m = false).
Proof.
  split.
  - intros H.
    specialize (H "!" "help" ["h"] "h" "e"%char "lp" (mkMessage "alice" "#room" "!help")).
    cbv in H. discriminate H; [left; reflexivity | discriminate | reflexivity].
  - intros H.
    specialize (H "!" "help" ["h"] "help" (mkMessage "alice" "#room" "!h")).
    cbv in H. discriminate H; [right; left; reflexivity | reflexivity].
Qed.

(** C3, amended.  The predicate of a Named rule tries the name and every
    alias: a text matches exactly when, for some [C] among them, it is
    [P ++ C] or starts with [P ++ C] and a space.  So [P ++ C] and
    [P ++ C ++ " " ++ more] match for the name and for each alias.  A text
    that no [C] of the rule accepts does not match: for a rule whose only
    name is [C], neither [P ++ C] directly followed by a character other
    than a space nor a text that does not start with [P ++ C]. *)
Theorem C3_named_rule_matching :
  forall (P name : string) (alias : list string) (m : Message),
    In name (Decorators.aliases name alias)
    /\ (forall C, In C alias -> In C (Decorators.aliases name alias))
    /\ (forall C,
          In C (Decorators.aliases name alias) ->
          text m = P ++ C ->
          Decorators.command_event (Decorators.aliases name alias) P m = true)
    /\ (forall C more,
          In C (Decorators.aliases name alias) ->
          text m = P ++ C ++ " " ++ more ->
          Decorators.command_event (Decorators.aliases name alias) P m = true)
    /\ (Decorators.command_event (Decorators.aliases name alias) P m = true
        <-> exists C,
              In C (Decorators.aliases name alias) /\ accepts P C (text m))
    /\ (forall (c : ascii) (x : string),
          (forall C, In C (Decorators.aliases name alias) -> C = name) ->
          c <> " "%char ->
          text m = P ++ name ++ String c x ->
          Decorators.command_event (Decorators.aliases name alias) P m = false)
    /\ ((forall C,
           In C (Decorators.aliases name alias) ->
           PyStr.startswith (P ++ C) (text m) = false) ->
        Decorators.command_event (Decorators.aliases name alias) P m = false).
Proof.
  intros P name alias m.
  split; [apply aliases_name |].
  split; [apply aliases_alias |].
  split; [| split; [| split; [apply command_event_iff | split]]].
  - intros C HC Ht. apply command_event_iff. exists C. split; [exact HC |].
    left. exact Ht.
  - intros C more HC Ht. apply command_event_iff. exists C. split; [exact HC |].
    right. exists more. exact Ht.
  - intros c x Honly Hc Ht.
    destruct (Decorators.command_event (Decorators.aliases name alias) P m) eqn:E;
      [| reflexivity].
    apply command_event_iff in E. destruct E as [C [HC Hacc]].
    rewrite (Honly C HC), Ht in Hacc.
    exfalso. exact (accepts_no_space P name c x Hc Hacc).
  - intros Hnone.
    destruct (Decorators.command_event (Decorators.aliases name alias) P m) eqn:E;
      [| reflexivity].
    apply command_event_iff in E. destruct E as [C [HC Hacc]].
    apply accepts_startswith in Hacc. rewrite (Hnone C HC) in Hacc. discriminate.
Qed.

Lemma C3_named_rule_matching_witness :
  Decorators.command_event (Decorators.aliases "ping" []) "!"
    (mkMessage "alice" "#room" "!ping") = true
  /\ Decorators.command_event (Decorators.aliases "ping" []) "!"
       (mkMessage "alice" "#room" "!ping x") = true
  /\ Decorators.command_event (Decorators.aliases "ping" []) "!"
       (mkMessage "alice" "#room" "!pingx") = false
  /\ Decorators.command_event (Decorators.aliases "ping" []) "!"
       (mkMessage "alice" "#room" "hello") = false.
Proof.
  split; [| split; [| split]].
  - apply (proj1 (proj2 (proj2
      (C3_named_rule_matching "!" "ping" [] (mkMessage "alice" "#room" "!ping"))))
      "ping"); [left; reflexivity | reflexivity].
  - apply (proj1 (proj2 (proj2 (proj2
      (C3_named_rule_matching "!" "ping" [] (mkMessage "alice" "#room" "!ping x")))))
      "ping" "x"); [left; reflexivity | reflexivity].
  - apply (proj1 (proj2 (proj2 (proj2 (proj2 (proj2
      (C3_named_rule_matching "!" "ping" [] (mkMessage "alice" "#room" "!pingx")))))))
      "x"%char "").
    + intros C [<- | []]. reflexivity.
    + discriminate.
    + reflexivity.
  - apply (proj2 (proj2 (proj2 (proj2 (proj2 (proj2
      (C3_named_rule_matching "!" "ping" [] (mkMessage "alice" "#room" "hello")))))))).
    intros C [<- | []]. reflexivity.
Defined.

(** ** Argument coercion *)

Section Coercion.

Lemma getitem_nonneg : forall (A : Type) (l : list A) (z : Z),
  (0 <= z < Z.of_nat (List.length l))%Z ->
  exists a, Builtins.getitem l z = Ok a /\ nth_error l (Z.to_nat z) = Some a.
Proof.
  intros A l z Hz. unfold Builtins.getitem.
  destruct (Z.ltb_spec z 0) as [Hneg | _]; [lia |].
  destruct (Z.leb_spec 0 z) as [_ | Hneg]; [| lia].
  destruct (Z.ltb_spec z (Z.of_nat (List.length l))) as [_ | Hbig]; [| lia].
  cbn [andb].
  destruct (nth_error l (Z.to_nat z)) as [a |] eqn:E.
  - exists a. split; reflexivity.
  - apply nth_error_None in E. lia.
Qed.

Lemma step_coerces : forall func tokens index ty acc,
  (index < List.length (annotations func))%nat ->
  CheckArgs.step (defaults func) (required func) tokens index ty acc
  = Ok (acc ++ [slot_of (coerce_at func tokens index ty)])%list.
Proof.
  intros func tokens index ty acc Hidx.
  unfold CheckArgs.step, coerce_at, default_at.
  destruct (Z.gtb_spec (Z.of_nat index + 1) (required func)) as [Hdef | Hreq].
  - destruct (Z.leb_spec (required func) (Z.of_nat index)) as [_ | Hbad]; [| lia].
    destruct (getitem_nonneg _ (defaults func) (Z.of_nat index - required func))
      as [d [Hget Hnth]]; [unfold required in *; lia |].
    rewrite Hget, Hnth.
    destruct (Nat.ltb_spec index (List.length tokens)) as [Hlt | Hge].
    + destruct (nth_error tokens index) as [tok |] eqn:E;
        [| apply nth_error_None in E; lia].
      unfold convert. destruct (Builtins.construct ty tok); reflexivity.
    + apply nth_error_None in Hge. rewrite Hge. reflexivity.
  - destruct (Z.leb_spec (required func) (Z.of_nat index)) as [Hbad | _]; [lia |].
    destruct (Nat.ltb_spec index (List.length tokens)) as [Hlt | Hge].
    + destruct (nth_error tokens index) as [tok |] eqn:E;
        [| apply nth_error_None in E; lia].
      unfold convert. destruct (Builtins.construct ty tok); reflexivity.
    + apply nth_error_None in Hge. rewrite Hge. reflexivity.
Qed.

Lemma loop_coerces : forall func tokens types index acc,
  (index + List.length types = List.length (annotations func))%nat ->
  CheckArgs.loop (defaults func) (required func) tokens index types acc
  = Ok (acc ++ map slot_of (coerce_from func tokens index types))%list.
Proof.
  intros func tokens types.
  induction types as [| ty types IH]; intros index acc Hlen; cbn [CheckArgs.loop coerce_from map].
  - rewrite app_nil_r. reflexivity.
  - cbn [List.length] in Hlen.
    rewrite step_coerces by lia.
    rewrite IH by lia.
    rewrite <- app_assoc. reflexivity.
Qed.

Lemma slots_answer : forall l : list (option pyval),
  (if existsb is_wrong_arg (map slot_of l)
   then None
   else Some (flat_map CheckArgs.unwrap (map slot_of l)))
  = all_some l.
Proof.
  induction l as [| [v |] l IH]; cbn [map slot_of existsb is_wrong_arg orb all_some flat_map];
    [reflexivity | | reflexivity].
  rewrite <- IH.
  destruct (existsb is_wrong_arg (map slot_of l)); reflexivity.
Qed.

(** [check_args] never raises and computes [coerce_spec]. *)
Lemma check_args_refines : forall func tokens,
  check_args func tokens = Ok (coerce_spec func tokens).
Proof.
  intros func tokens. unfold check_args, coerce_spec.
  fold (required func).
  destruct (annotations func) as [| ty types] eqn:Eann.
  - unfold required. rewrite Eann. cbn [List.length].
    destruct (Z.ltb_spec (Z.of_nat (List.length tokens))
                (Z.of_nat 0 - Z.of_nat (List.length (defaults func)))) as [H | _];
      [lia | reflexivity].
  - replace (Z.of_nat (List.length (ty :: types))
             - Z.of_nat (List.length (defaults func)))%Z
      with (required func) by (unfold required; rewrite Eann; reflexivity).
    destruct (Z.of_nat (List.length tokens) <? required func)%Z; [reflexivity |].
    rewrite <- Eann.
    rewrite loop_coerces by reflexivity.
    cbn [app]. rewrite <- slots_answer.
    destruct (existsb is_wrong_arg
                (map slot_of (coerce_from func tokens 0 (annotations func))));
      reflexivity.
Qed.

Lemma coerce_from_ext : forall func t1 t2 types index,
  (forall i, (i < index + List.length types)%nat -> nth_error t1 i = nth_error t2 i) ->
  coerce_from func t1 index types = coerce_from func t2 index types.
Proof.
  intros func t1 t2 types.
  induction types as [| ty types IH]; intros index H; cbn [coerce_from]; [reflexivity |].
  cbn [List.length] in H. f_equal.
  - unfold coerce_at. rewrite (H index) by lia. reflexivity.
  - apply IH. intros i Hi. apply H. lia.
Qed.

Lemma required_le : forall func,
  (required func <= Z.of_nat (List.length (annotations func)))%Z.
Proof. intros func. unfold required. lia. Qed.

Lemma coerce_spec_surplus : forall func tokens extra,
  (List.length (annotations func) <= List.length tokens)%nat ->
  coerce_spec func (tokens ++ extra)%list = coerce_spec func tokens.
Proof.
  intros func tokens extra Hlen. unfold coerce_spec.
  pose proof (required_le func) as Hreq.
  rewrite length_app.
  destruct (Z.ltb_spec (Z.of_nat (List.length tokens + List.length extra)) (required func));
    [lia |].
  destruct (Z.ltb_spec (Z.of_nat (List.length tokens)) (required func)); [lia |].
  f_equal. apply coerce_from_ext.
  intros i Hi. apply nth_error_app1. lia.
Qed.

Lemma all_some_nth : forall (A : Type) (l : list (option A)) (r : list A),
  all_some l = Some r ->
  List.length r = List.length l
  /\ forall i o, nth_error l i = Some o -> o = nth_error r i.
Proof.
  intros A l. induction l as [| [a |] l IH]; intros r H; cbn [all_some] in H.
  - injection H as <-. split; [reflexivity |]. intros [| i] o Hi; discriminate.
  - destruct (all_some l) as [r' |]; [| discriminate].
    injection H as <-. destruct (IH r' eq_refl) as [Hl Hn].
    split; [cbn; rewrite Hl; reflexivity |].
    intros [| i] o Hi; cbn in *; [congruence | apply Hn; exact Hi].
  - discriminate.
Qed.

Lemma coerce_from_nth : forall func tokens types index i ty,
  nth_error types i = Some ty ->
  nth_error (coerce_from func tokens index types) i
  = Some (coerce_at func tokens (index + i) ty).
Proof.
  intros func tokens types.
  induction types as [| ty0 types IH]; intros index [| i] ty H; cbn in *; try discriminate.
  - injection H as ->. rewrite Nat.add_0_r. reflexivity.
  - rewrite (IH (S index) i ty H). do 2 f_equal. lia.
Qed.

Lemma coerce_from_length : forall func tokens types index,
  List.length (coerce_from func tokens index types) = List.length types.
Proof.
  intros func tokens types. induction types as [| ty types IH]; intros index; cbn;
    [reflexivity | rewrite IH; reflexivity].
Qed.

End Coercion.

(** C2.  [check_args] never raises and is the coercion of the
    specification: with fewer tokens than parameters without a default the
    call is rejected; otherwise every position takes its converted token,
    or its default when the conversion fails or the token is missing, and
    the call is rejected as soon as one position has neither; an accepted
    call has one value per declared parameter.  Tokens past the declared
    parameters change nothing.  The three cases of the specification
    evaluate as it says. *)
Theorem C2_check_args_coerces :
  forall (func : pyfunc) (tokens : list string),
    check_args func tokens = Ok (coerce_spec func tokens)
    /\ ((Z.of_nat (List.length tokens) < required func)%Z ->
        check_args func tokens = Ok None)
    /\ (forall args : list pyval,
          check_args func tokens = Ok (Some args) ->
          List.length args = List.length (annotations func)
          /\ forall (i : nat) (ty : pytype),
               nth_error (annotations func) i = Some ty ->
               nth_error args i = coerce_at func tokens i ty)
    /\ (forall (i : nat) (ty : pytype),
          (required func <= Z.of_nat (List.length tokens))%Z ->
          nth_error (annotations func) i = Some ty ->
          coerce_at func tokens i ty = None ->
          check_args func tokens = Ok None)
    /\ (forall extra : list string,
          (List.length (annotations func) <= List.length tokens)%nat ->
          check_args func (tokens ++ extra)%list = check_args func tokens)
    /\ check_args (mkFunc "f" "" [TInt; TStr] [VStr "hi"]) ["5"]
       = Ok (Some [VInt 5; VStr "hi"])
    /\ check_args (mkFunc "f" "" [TInt; TStr] [VStr "hi"]) [] = Ok None
    /\ check_args (mkFunc "f" "" [TInt] []) ["abc"] = Ok None.
Proof.
  intros func tokens.
  split; [apply check_args_refines |].
  split; [| split; [| split; [| split; [| repeat split; reflexivity]]]].
  - intros Hfew. rewrite check_args_refines. unfold coerce_spec.
    destruct (Z.ltb_spec (Z.of_nat (List.length tokens)) (required func));
      [reflexivity | lia].
  - intros args Hok. rewrite check_args_refines in Hok.
    injection Hok as Hok. unfold coerce_spec in Hok.
    destruct (Z.of_nat (List.length tokens) <? required func)%Z; [discriminate |].
    destruct (all_some_nth _ _ _ Hok) as [Hlen Hnth].
    rewrite coerce_from_length in Hlen. split; [exact Hlen |].
    intros i ty Hty. symmetry. apply Hnth.
    rewrite (coerce_from_nth func tokens _ 0 i ty Hty). reflexivity.
  - intros i ty Henough Hty Hnone. rewrite check_args_refines. f_equal.
    unfold coerce_spec.
    destruct (Z.ltb_spec (Z.of_nat (List.length tokens)) (required func));
      [reflexivity |].
    destruct (all_some (coerce_from func tokens 0 (annotations func))) as [r |] eqn:E;
      [| reflexivity].
    destruct (all_some_nth _ _ _ E) as [Hlen Hnth].
    pose proof (coerce_from_nth func tokens _ 0 i ty Hty) as Hi.
    cbn [Nat.add] in Hi. rewrite Hnone in Hi.
    pose proof (Hnth i None Hi) as Hr. symmetry in Hr.
    apply nth_error_None in Hr.
    rewrite Hlen, coerce_from_length in Hr.
    assert (i < List.length (annotations func))%nat
      by (apply nth_error_Some; congruence).
    lia.
  - intros extra Hlen. rewrite !check_args_refines, coerce_spec_surplus by exact Hlen.
    reflexivity.
Qed.

Lemma C2_check_args_coerces_witness :
  ((Z.of_nat (List.length (@nil string))
    < required (mkFunc "f" "" [TInt; TStr] [VStr "hi"]))%Z
   /\ check_args (mkFunc "f" "" [TInt; TStr] [VStr "hi"]) [] = Ok None)
  /\ ((List.length (annotations (mkFunc "f" "" [TInt; TStr] [VStr "hi"]))
       <= List.length ["5"; "x"])%nat
      /\ check_args (mkFunc "f" "" [TInt; TStr] [VStr "hi"]) (["5"; "x"] ++ ["y"; "z"])%list
         = check_args (mkFunc "f" "" [TInt; TStr] [VStr "hi"]) ["5"; "x"])
  /\ ((required (mkFunc "f" "" [TInt] []) <= Z.of_nat (List.length ["abc"]))%Z
      /\ nth_error (annotations (mkFunc "f" "" [TInt] [])) 0 = Some TInt
      /\ coerce_at (mkFunc "f" "" [TInt] []) ["abc"] 0 TInt = None
      /\ check_args (mkFunc "f" "" [TInt] []) ["abc"] = Ok None).
Proof.
  split; [| split].
  - assert (H : (Z.of_nat (List.length (@nil string))
                 < required (mkFunc "f" "" [TInt; TStr] [VStr "hi"]))%Z)
      by (cbv; reflexivity).
    split; [exact H |].
    exact (proj1 (proj2
      (C2_check_args_coerces (mkFunc "f" "" [TInt; TStr] [VStr "hi"]) [])) H).
  - assert (H : (List.length (annotations (mkFunc "f" "" [TInt; TStr] [VStr "hi"]))
                 <= List.length ["5"; "x"])%nat)
      by (cbn; lia).
    split; [exact H |].
    exact (proj1 (proj2 (proj2 (proj2 (proj2
      (C2_check_args_coerces (mkFunc "f" "" [TInt; TStr] [VStr "hi"]) ["5"; "x"])))))
      ["y"; "z"] H).
  - assert (H1 : (required (mkFunc "f" "" [TInt] []) <= Z.of_nat (List.length ["abc"]))%Z)
      by (cbv; discriminate).
    assert (H2 : nth_error (annotations (mkFunc "f" "" [TInt] [])) 0 = Some TInt)
      by reflexivity.
    assert (H3 : coerce_at (mkFunc "f" "" [TInt] []) ["abc"] 0 TInt = None)
      by reflexivity.
    split; [exact H1 | split; [exact H2 | split; [exact H3 |]]].
    exact (proj1 (proj2 (proj2 (proj2
      (C2_check_args_coerces (mkFunc "f" "" [TInt] []) ["abc"]))))
      0%nat TInt H1 H2 H3).
Defined.

(** [int] on the tokens Python accepts and refuses. *)
Example int_tokens :
  map Builtins.int ["5"; " 42 "; "-7"; "+3"; "1_000"; "abc"; ""; "1__0"; "_1"; "1_"; "+ 1"; "4x"]
  = [Some 5; Some 42; Some (-7); Some 3; Some 1000; None; None; None; None; None; None; None]%Z.
Proof. reflexivity. Qed.

(** The separators U+001C to U+001F are whitespace for [str.strip] and not
    for [int]; the no-break space and the next-line character are
    whitespace for both. *)
Example int_separators :
  map Builtins.int
    [String (ascii_of_nat 28) "12"; "12" ++ String (ascii_of_nat 31) "";
     String (ascii_of_nat 160) "12" ++ String (ascii_of_nat 133) "";
     String PyStr.TAB "12" ++ String PyStr.LF ""]
  = [None; None; Some 12; Some 12]%Z
  /\ PyStr.strip (String (ascii_of_nat 28) "12") = "12".
Proof. split; reflexivity. Qed.

(** A text of 4300 digits converts and one of 4301 does not. *)
Example int_digit_limit :
  (exists z, Builtins.int (repeat_char "1" 4300) = Some z)
  /\ Builtins.int (repeat_char "1" 4301) = None
  /\ Builtins.int (String "-" (repeat_char "0" 4301)) = None.
Proof.
  split; [eexists; vm_compute; reflexivity | split; vm_compute; reflexivity].
Qed.

(** A token that [int] refuses is replaced by the default of its position,
    or rejects the call. *)
Example check_args_separator :
  check_args (mkFunc "f" "" [TInt] []) [String (ascii_of_nat 28) "12"] = Ok None
  /\ check_args (mkFunc "f" "" [TInt] [VInt 0]) [String (ascii_of_nat 28) "12"]
     = Ok (Some [VInt 0]).
Proof. split; reflexivity. Qed.

(** A default stands in for a token that does not convert. *)
Example check_args_default_on_failure :
  check_args (mkFunc "f" "" [TStr; TInt] [VInt 1]) ["a"; "b"; "c"]
  = Ok (Some [VStr "a"; VInt 1]).
Proof. reflexivity. Qed.

(** ** The dispatch loop *)

Section DispatchFacts.
Import Dispatch.

Lemma push_sent_nil : forall b, push_sent b [] = b.
Proof.
  intros [P p [c q s] h ch a cbs help th]. unfold push_sent, with_irc; cbn.
  rewrite app_nil_r. reflexivity.
Qed.

Lemma push_sent_app : forall b l1 l2,
  push_sent (push_sent b l1) l2 = push_sent b (l1 ++ l2)%list.
Proof.
  intros b l1 l2. unfold push_sent, with_irc; cbn. rewrite app_assoc. reflexivity.
Qed.

Lemma all_true_iff : forall (P : string) message (evs : list event),
  negb (existsb negb (map (fun ev : event => ev P message) evs)) = true
  <-> forall ev : event, In ev evs -> ev P message = true.
Proof.
  intros P message evs. rewrite negb_true_iff. split.
  - intros H ev Hev. destruct (ev P message) eqn:E; [reflexivity |].
    assert (existsb negb (map (fun ev0 : event => ev0 P message) evs) = true)
      as Hex; [| congruence].
    apply existsb_exists. exists false. split; [| reflexivity].
    apply in_map_iff. exists ev. split; assumption.
  - intros H.
    destruct (existsb negb (map (fun ev : event => ev P message) evs))
      eqn:E; [| reflexivity].
    apply existsb_exists in E. destruct E as [x [Hin Hx]].
    apply in_map_iff in Hin. destruct Hin as [ev [<- Hev]].
    rewrite (H ev Hev) in Hx. discriminate.
Qed.

Lemma all_events_iff : forall b message cb,
  all_events b message cb = Ok true <-> matches b message cb.
Proof.
  intros b message cb. unfold all_events, matches.
  destruct (events cb) as [evs | t].
  - split.
    + intros H. injection H as H. exists evs. split; [reflexivity |].
      apply all_true_iff. exact H.
    + intros [evs' [E H]]. injection E as <-. f_equal. apply all_true_iff. exact H.
  - split; [discriminate |]. intros [evs' [E _]]. discriminate.
Qed.

Lemma all_events_PREFIX : forall b1 b2 message cb,
  PREFIX b1 = PREFIX b2 -> all_events b1 message cb = all_events b2 message cb.
Proof. intros b1 b2 message cb H. unfold all_events. rewrite H. reflexivity. Qed.

Lemma calls_of_PREFIX : forall b1 b2 message cb,
  PREFIX b1 = PREFIX b2 -> calls_of b1 message cb = calls_of b2 message cb.
Proof.
  intros b1 b2 message cb H. unfold calls_of.
  rewrite (all_events_PREFIX b1 b2 message cb H). reflexivity.
Qed.

Lemma error_reply_one_line : PyStr.splitlines error_reply = [error_reply].
Proof. reflexivity. Qed.

Lemma Bot_send_error_reply : forall b target,
  Bot_send b target error_reply
  = push_sent b ["PRIVMSG " ++ target ++ " :" ++ error_reply ++ PyStr.CRLF].
Proof.
  intros b target. unfold Bot_send. rewrite error_reply_one_line.
  unfold push_sent, IRC.send. cbn [fold_left IRC.connected IRC.inbox IRC.sent].
  rewrite !str_app_assoc. reflexivity.
Qed.

(** What one rule does, by what the loop decides before any handler runs. *)
Lemma run_callback_call : forall call b message cb args,
  calls_of b message cb = [Called (name cb) message args] ->
  run_callback call b message cb = invoke call b message cb args.
Proof.
  intros call b message cb args. unfold calls_of, run_callback, call_args.
  destruct (all_events b message cb) as [[|] | e]; try discriminate.
  destruct (cmnd_type cb =? 0)%Z.
  - intros H. injection H as <-. reflexivity.
  - destruct (cmnd_type cb =? 1)%Z; [| discriminate].
    rewrite check_args_refines.
    destruct (coerce_spec (func cb) (tl (Parse.parse (text message)))) as [r |];
      [| discriminate].
    intros H. injection H as <-. reflexivity.
Qed.

Lemma run_callback_quiet : forall call b message cb,
  (exists evs, events cb = Predicates evs) ->
  calls_of b message cb = [] ->
  run_callback call b message cb = (push_sent b (replies_of b message cb), [], None).
Proof.
  intros call b message cb [evs Hev]. unfold calls_of, replies_of, run_callback, call_args.
  unfold all_events. rewrite Hev.
  destruct (negb (existsb negb (map (fun ev : event => ev (PREFIX b) message) evs)));
    [| intros _; rewrite push_sent_nil; reflexivity].
  destruct (cmnd_type cb =? 0)%Z eqn:E0; [discriminate |].
  destruct (cmnd_type cb =? 1)%Z; [| intros _; rewrite push_sent_nil; reflexivity].
  rewrite check_args_refines.
  destruct (coerce_spec (func cb) (tl (Parse.parse (text message)))) as [r |];
    [discriminate |].
  intros _. rewrite Bot_send_error_reply. reflexivity.
Qed.

Lemma calls_of_cases : forall b message cb,
  calls_of b message cb = []
  \/ exists args, calls_of b message cb = [Called (name cb) message args].
Proof.
  intros b message cb. unfold calls_of.
  destruct (all_events b message cb) as [[|] | e]; try (left; reflexivity).
  destruct (call_args message cb) as [args |]; [| left; reflexivity].
  right. exists args. reflexivity.
Qed.

Lemma invoke_callbacks : forall call b message cb args,
  keeps callbacks call ->
  callbacks (fst (fst (invoke call b message cb args))) = callbacks b.
Proof.
  intros call b message cb args Hk. unfold invoke, Command_call.
  specialize (Hk (func cb) b message args).
  destruct (call (func cb) b message args) as [b' [u | e]]; exact Hk.
Qed.

Lemma run_callback_callbacks : forall call b message cb,
  keeps callbacks call ->
  callbacks (fst (fst (run_callback call b message cb))) = callbacks b.
Proof.
  intros call b message cb Hk. unfold run_callback.
  destruct (all_events b message cb) as [[|] | e]; try reflexivity.
  destruct (cmnd_type cb =? 0)%Z; [apply invoke_callbacks; exact Hk |].
  destruct (cmnd_type cb =? 1)%Z; [| reflexivity].
  destruct (check_args (func cb) (tl (Parse.parse (text message)))) as [[args |] | e];
    [apply invoke_callbacks; exact Hk | reflexivity | reflexivity].
Qed.

Lemma invoke_PREFIX : forall call b message cb args,
  keeps PREFIX call ->
  PREFIX (fst (fst (invoke call b message cb args))) = PREFIX b.
Proof.
  intros call b message cb args Hk. unfold invoke, Command_call.
  specialize (Hk (func cb) b message args).
  destruct (call (func cb) b message args) as [b' [u | e]]; exact Hk.
Qed.

Lemma run_callback_PREFIX : forall call b message cb,
  keeps PREFIX call ->
  PREFIX (fst (fst (run_callback call b message cb))) = PREFIX b.
Proof.
  intros call b message cb Hk. unfold run_callback.
  destruct (all_events b message cb) as [[|] | e]; try reflexivity.
  destruct (cmnd_type cb =? 0)%Z; [apply invoke_PREFIX; exact Hk |].
  destruct (cmnd_type cb =? 1)%Z; [| reflexivity].
  destruct (check_args (func cb) (tl (Parse.parse (text message)))) as [[args |] | e];
    [apply invoke_PREFIX; exact Hk | reflexivity | reflexivity].
Qed.

Lemma same_keys_eq : forall l1 l2, same_keys l1 l2 = true <-> l1 = l2.
Proof.
  induction l1 as [| k1 l1 IH]; intros [| k2 l2]; cbn [same_keys];
    try (split; [discriminate | discriminate]); [split; reflexivity |].
  rewrite andb_true_iff, String.eqb_eq, IH. split.
  - intros [-> ->]. reflexivity.
  - intros H. injection H as -> ->. split; reflexivity.
Qed.

Lemma skipn_nth_error : forall (A : Type) (l : list A) (n : nat),
  skipn n l = match nth_error l n with
              | Some a => a :: skipn (S n) l
              | None => []
              end.
Proof.
  intros A l. induction l as [| x l IH]; intros [| n]; cbn [skipn nth_error];
    try reflexivity.
  rewrite IH. destruct (nth_error l n); reflexivity.
Qed.

Lemma run_rules_nil_at_end : forall (A : Type) (l : list A) (n : nat),
  (List.length l <= n)%nat -> skipn n l = [].
Proof. intros A l n H. apply skipn_all2. exact H. Qed.

(** As long as the handlers leave [callbacks] alone, the iterator over the
    live dict goes through the values the dict had at the start. *)
Lemma loop_run_rules : forall call message cbs0,
  keeps callbacks call ->
  forall todo b done,
    callbacks b = cbs0 ->
    (todo <= List.length cbs0)%nat ->
    loop call (Dict.keys cbs0) message todo b done
    = run_rules call b message
        (skipn (List.length cbs0 - todo) (Dict.values cbs0)) done.
Proof.
  intros call message cbs0 Hk.
  assert (Hlenk : List.length (Dict.keys cbs0) = List.length cbs0)
    by (unfold Dict.keys; apply length_map).
  assert (Hlenv : List.length (Dict.values cbs0) = List.length cbs0)
    by (unfold Dict.values; apply length_map).
  induction todo as [| todo IH]; intros b done Hb Hle; cbn [loop].
  - rewrite Hb, (proj2 (same_keys_eq _ _) eq_refl). cbn [negb].
    rewrite Nat.sub_0_r, run_rules_nil_at_end by lia. reflexivity.
  - rewrite Hb, (proj2 (same_keys_eq _ _) eq_refl). cbn [negb].
    rewrite Hlenk.
    rewrite (skipn_nth_error _ (Dict.values cbs0) (List.length cbs0 - S todo)).
    destruct (nth_error (Dict.values cbs0) (List.length cbs0 - S todo)) as [cb |] eqn:E.
    + cbn [run_rules].
      pose proof (run_callback_callbacks call b message cb Hk) as Hcb.
      destruct (run_callback call b message cb) as [[b' acts] [e |]];
        cbn [fst] in Hcb; [reflexivity |].
      replace (S (List.length cbs0 - S todo)) with (List.length cbs0 - todo)%nat by lia.
      apply IH; [congruence | lia].
    + apply nth_error_None in E. lia.
Qed.

Lemma dispatch_run_rules : forall call b message,
  keeps callbacks call ->
  dispatch call b message
  = run_rules call b message (Dict.values (callbacks b)) [].
Proof.
  intros call b message Hk. unfold dispatch.
  replace (List.length (Dict.keys (callbacks b))) with (List.length (callbacks b))
    by (unfold Dict.keys; symmetry; apply length_map).
  rewrite (loop_run_rules call message (callbacks b) Hk _ b [] eq_refl (le_n _)).
  rewrite Nat.sub_diag. reflexivity.
Qed.

(** The rules whose handlers return are all taken, each on the bot the one
    before has left. *)
Lemma run_rules_all : forall call message b0 cbs,
  keeps_rules call ->
  (forall cb, In cb cbs -> exists evs, events cb = Predicates evs) ->
  (forall cb args b',
     In cb cbs ->
     calls_of b0 message cb = [Called (name cb) message args] ->
     snd (call (func cb) b' message args) = Ok tt) ->
  forall b done,
    PREFIX b = PREFIX b0 ->
    exists b',
      run_rules call b message cbs done
      = (b', (done ++ flat_map (calls_of b0 message) cbs)%list, None)
      /\ PREFIX b' = PREFIX b0
      /\ callbacks b' = callbacks b.
Proof.
  intros call message b0 cbs [Hkc HkP].
  induction cbs as [| cb cbs IH]; intros Hwf Hret b done HP; cbn [run_rules flat_map].
  - exists b. rewrite app_nil_r. repeat split. exact HP.
  - assert (Hwf' : forall cb0, In cb0 cbs -> exists evs, events cb0 = Predicates evs)
      by (intros cb0 H0; apply Hwf; right; exact H0).
    assert (Hret' : forall cb0 args b',
              In cb0 cbs ->
              calls_of b0 message cb0 = [Called (name cb0) message args] ->
              snd (call (func cb0) b' message args) = Ok tt)
      by (intros cb0 args b' H0; apply Hret; right; exact H0).
    pose proof (run_callback_PREFIX call b message cb HkP) as HP1.
    pose proof (run_callback_callbacks call b message cb Hkc) as Hc1.
    destruct (calls_of_cases b0 message cb) as [Hnone | [args Hcall]].
    + rewrite (calls_of_PREFIX b0 b message cb (eq_sym HP)) in Hnone.
      rewrite (run_callback_quiet call b message cb (Hwf cb (or_introl eq_refl)) Hnone)
        in HP1, Hc1 |- *.
      cbn [fst] in HP1, Hc1.
      rewrite (calls_of_PREFIX b b0 message cb HP) in Hnone. rewrite Hnone.
      cbn [app]. rewrite app_nil_r.
      destruct (IH Hwf' Hret' _ done (eq_trans HP1 HP)) as [b' [Hrun [HP' Hc']]].
      exists b'. split; [exact Hrun |]. split; [exact HP' | congruence].
    + pose proof Hcall as Hcall'.
      rewrite (calls_of_PREFIX b0 b message cb (eq_sym HP)) in Hcall'.
      rewrite (run_callback_call call b message cb args Hcall') in HP1, Hc1 |- *.
      unfold invoke, Command_call in *.
      pose proof (Hret cb args b (or_introl eq_refl) Hcall) as Hok.
      destruct (call (func cb) b message args) as [b1 r]. cbn [snd] in Hok. subst r.
      cbn [fst] in HP1, Hc1. rewrite Hcall.
      destruct (IH Hwf' Hret' b1 (done ++ [Called (name cb) message args])%list
                  (eq_trans HP1 HP)) as [b' [Hrun [HP' Hc']]].
      exists b'. rewrite Hrun, <- app_assoc. repeat split; congruence.
Qed.

(** The first handler that raises ends the loop: the rules after it are
    not tried. *)
Lemma run_rules_raise : forall call message b0 pre cb post args e,
  keeps_rules call ->
  (forall cb0, In cb0 pre -> exists evs, events cb0 = Predicates evs) ->
  (forall cb0 args0 b',
     In cb0 pre ->
     calls_of b0 message cb0 = [Called (name cb0) message args0] ->
     snd (call (func cb0) b' message args0) = Ok tt) ->
  calls_of b0 message cb = [Called (name cb) message args] ->
  (forall b', snd (call (func cb) b' message args) = Raise e) ->
  forall b done,
    PREFIX b = PREFIX b0 ->
    exists b',
      run_rules call b message (pre ++ cb :: post)%list done
      = (b',
         (done ++ flat_map (calls_of b0 message) pre
          ++ [Called (name cb) message args])%list,
         Some e).
Proof.
  intros call message b0 pre cb post args e [Hkc HkP].
  induction pre as [| cb0 pre IH]; intros Hwf Hret Hcall Hraise b done HP;
    cbn [app run_rules flat_map].
  - rewrite (calls_of_PREFIX b0 b message cb (eq_sym HP)) in Hcall.
    rewrite (run_callback_call call b message cb args Hcall).
    unfold invoke, Command_call. specialize (Hraise b).
    destruct (call (func cb) b message args) as [b1 r]. cbn [snd] in Hraise. subst r.
    exists b1. reflexivity.
  - assert (Hwf' : forall c, In c pre -> exists evs, events c = Predicates evs)
      by (intros c H0; apply Hwf; right; exact H0).
    assert (Hret' : forall c args0 b',
              In c pre ->
              calls_of b0 message c = [Called (name c) message args0] ->
              snd (call (func c) b' message args0) = Ok tt)
      by (intros c args0 b' H0; apply Hret; right; exact H0).
    pose proof (run_callback_PREFIX call b message cb0 HkP) as HP1.
    destruct (calls_of_cases b0 message cb0) as [Hnone | [args0 Hcall0]].
    + rewrite (calls_of_PREFIX b0 b message cb0 (eq_sym HP)) in Hnone.
      rewrite (run_callback_quiet call b message cb0 (Hwf cb0 (or_introl eq_refl)) Hnone)
        in HP1 |- *.
      cbn [fst] in HP1.
      rewrite (calls_of_PREFIX b b0 message cb0 HP) in Hnone. rewrite Hnone.
      cbn [app]. rewrite app_nil_r.
      apply (IH Hwf' Hret' Hcall Hraise _ done (eq_trans HP1 HP)).
    + pose proof Hcall0 as Hcall0'.
      rewrite (calls_of_PREFIX b0 b message cb0 (eq_sym HP)) in Hcall0'.
      rewrite (run_callback_call call b message cb0 args0 Hcall0') in HP1 |- *.
      unfold invoke, Command_call in *.
      pose proof (Hret cb0 args0 b (or_introl eq_refl) Hcall0) as Hok.
      destruct (call (func cb0) b message args0) as [b1 r]. cbn [snd] in Hok. subst r.
      cbn [fst] in HP1. rewrite Hcall0.
      destruct (IH Hwf' Hret' Hcall Hraise b1
                  (done ++ [Called (name cb0) message args0])%list
                  (eq_trans HP1 HP)) as [b' Hrun].
      exists b'. rewrite Hrun, <- !app_assoc. reflexivity.
Qed.

Lemma add_command_callbacks_new : forall b c h,
  cmnd_type c <> 2%Z ->
  Dict.mem (callbacks b) (name c) = false ->
  Dict.values (callbacks (add_command b c h)) = (Dict.values (callbacks b) ++ [c])%list.
Proof.
  intros b c h Hty Hnew. unfold add_command.
  destruct (Z.eqb_spec (cmnd_type c) 2); [contradiction |].
  assert (Dict.values (Dict.set (callbacks b) (name c) c)
          = (Dict.values (callbacks b) ++ [c])%list) as Hv.
  { rewrite dict_set_fresh by exact Hnew. unfold Dict.values.
    rewrite map_app. reflexivity. }
  destruct h; cbn [callbacks with_callbacks with_commands_help]; exact Hv.
Qed.

Lemma add_command_callbacks_again : forall b c h,
  cmnd_type c <> 2%Z ->
  Dict.mem (callbacks b) (name c) = true ->
  Dict.keys (callbacks (add_command b c h)) = Dict.keys (callbacks b).
Proof.
  intros b c h Hty Hold. unfold add_command.
  destruct (Z.eqb_spec (cmnd_type c) 2); [contradiction |].
  destruct h; cbn [callbacks with_callbacks with_commands_help];
    apply dict_set_keys_present; exact Hold.
Qed.

Lemma add_command_callbacks_periodic : forall b c h,
  cmnd_type c = 2%Z -> callbacks (add_command b c h) = callbacks b.
Proof.
  intros b c h Hty. unfold add_command. rewrite Hty. cbn [Z.eqb Pos.eqb].
  destruct h; reflexivity.
Qed.

End DispatchFacts.

(** C6 as stated fails where the arguments of a Named rule are rejected: on
    the text !add abc the one predicate of the rule add is true and its
    handler is not called.  It also fails where a handler raises: on the
    text !ping the rules boom and ping both match, the handler of boom
    raises, and the rule ping, which comes after it, is never called. *)
Lemma C6_rejected_arguments_counterexample :
  ~ (forall (call : handlers) (b : Bot) (message : Message) (cb : Command),
       In cb (Dict.values (callbacks b)) ->
       (matches b message cb
        <-> exists args,
              In (Called (name cb) message args)
                 (snd (fst (Dispatch.dispatch call b message)))))
  /\ ~ (forall (call : handlers) (b : Bot) (message : Message) (cb : Command)
               (args : list pyval),
          In cb (Dict.values (callbacks b)) ->
          calls_of b message cb = [Called (name cb) message args] ->
          In (Called (name cb) message args)
             (snd (fst (Dispatch.dispatch call b message)))).
Proof.
  split.
  - intros H.
    specialize (H idle_handlers bot_with_ping_add
                  (mkMessage "alice" "#room" "!add abc") add_rule).
    destruct H as [H _]; [right; left; reflexivity |].
    destruct H as [args Hin].
    + eexists. split; [reflexivity |]. intros ev [<- | []]. reflexivity.
    + vm_compute in Hin. exact Hin.
  - intros H.
    specialize (H example_handlers bot_with_boom_ping
                  (mkMessage "alice" "#room" "!ping") ping_command []).
    vm_compute in H.
    destruct H as [H | []]; [right; left; reflexivity | reflexivity |].
    discriminate H.
Qed.

(** C6, amended.  The dispatch loop takes the values of [callbacks] in the
    order of that dict, which is the order in which the names of the rules
    that are not periodic were first registered (a rule registered again
    under its name takes the place of the old one; periodic rules never
    enter the dict).  With handlers that leave the registered rules and the
    prefix alone, it goes through all of them for as long as no handler
    raises, and the first handler that raises ends it: the rules after that
    one are not tried.  The handler of a rule is called exactly when every
    predicate of the rule is true on the message and either the rule is an
    event rule (no arguments) or it is a Named rule and [check_args]
    accepts the tokens after the first.  A matching Named rule whose
    arguments are rejected is not called: the fixed reply goes to the
    destination of the message and the loop goes on. *)
Theorem C6_dispatch_every_matching_rule :
  forall (call : handlers) (b : Bot) (message : Message),
    (keeps_rules call ->
     (forall cb, In cb (Dict.values (callbacks b)) ->
                 exists evs, events cb = Predicates evs) ->
     (forall cb args b',
        In cb (Dict.values (callbacks b)) ->
        calls_of b message cb = [Called (name cb) message args] ->
        snd (call (func cb) b' message args) = Ok tt) ->
     exists b' : Bot,
       Dispatch.dispatch call b message
       = (b', flat_map (calls_of b message) (Dict.values (callbacks b)), None)
       /\ callbacks b' = callbacks b)
    /\ (forall (pre : list Command) (cb : Command) (post : list Command)
               (args : list pyval) (e : exn),
          keeps_rules call ->
          Dict.values (callbacks b) = (pre ++ cb :: post)%list ->
          (forall cb0, In cb0 pre -> exists evs, events cb0 = Predicates evs) ->
          (forall cb0 args0 b',
             In cb0 pre ->
             calls_of b message cb0 = [Called (name cb0) message args0] ->
             snd (call (func cb0) b' message args0) = Ok tt) ->
          calls_of b message cb = [Called (name cb) message args] ->
          (forall b', snd (call (func cb) b' message args) = Raise e) ->
          exists b' : Bot,
            Dispatch.dispatch call b message
            = (b',
               (flat_map (calls_of b message) pre
                ++ [Called (name cb) message args])%list,
               Some e))
    /\ (forall (cb : Command) (args : list pyval),
          calls_of b message cb = [Called (name cb) message args]
          <-> matches b message cb
              /\ ((cmnd_type cb = 0%Z /\ args = [])
                  \/ (cmnd_type cb = 1%Z
                      /\ check_args (func cb) (tl (Parse.parse (text message)))
                         = Ok (Some args))))
    /\ (forall cb : Command,
          calls_of b message cb = []
          \/ exists args, calls_of b message cb = [Called (name cb) message args])
    /\ (forall (cb : Command) (args : list pyval),
          calls_of b message cb = [Called (name cb) message args] ->
          Dispatch.run_callback call b message cb
          = Dispatch.invoke call b message cb args)
    /\ (forall cb : Command,
          matches b message cb ->
          cmnd_type cb = 1%Z ->
          check_args (func cb) (tl (Parse.parse (text message))) = Ok None ->
          calls_of b message cb = []
          /\ Dispatch.run_callback call b message cb
             = (Bot_send b (to message) Dispatch.error_reply, [], None)
          /\ IRC.sent (irc (Bot_send b (to message) Dispatch.error_reply))
             = (IRC.sent (irc b)
                ++ [("PRIVMSG " ++ to message ++ " :" ++ Dispatch.error_reply
                     ++ PyStr.CRLF)%string])%list)
    /\ (forall (c : Command) (h : bool),
          cmnd_type c <> 2%Z ->
          Dict.mem (callbacks b) (name c) = false ->
          Dict.values (callbacks (add_command b c h))
          = (Dict.values (callbacks b) ++ [c])%list)
    /\ (forall (c : Command) (h : bool),
          cmnd_type c <> 2%Z ->
          Dict.mem (callbacks b) (name c) = true ->
          Dict.keys (callbacks (add_command b c h)) = Dict.keys (callbacks b))
    /\ (forall (c : Command) (h : bool),
          cmnd_type c = 2%Z -> callbacks (add_command b c h) = callbacks b).
Proof.
  intros call b message.
  split; [| split; [| split; [| split; [| split; [| split; [| split; [| split]]]]]]].
  - intros Hk Hwf Hret. rewrite (dispatch_run_rules call b message (proj1 Hk)).
    destruct (run_rules_all call message b (Dict.values (callbacks b)) Hk Hwf Hret
                b [] eq_refl) as [b' [Hrun [_ Hcb]]].
    exists b'. split; [exact Hrun | exact Hcb].
  - intros pre cb post args e Hk Hvals Hwf Hret Hcall Hraise.
    rewrite (dispatch_run_rules call b message (proj1 Hk)), Hvals.
    destruct (run_rules_raise call message b pre cb post args e Hk Hwf Hret Hcall Hraise
                b [] eq_refl) as [b' Hrun].
    exists b'. exact Hrun.
  - intros cb args. rewrite <- all_events_iff.
    unfold calls_of, call_args. rewrite check_args_refines.
    destruct (Dispatch.all_events b message cb) as [[|] | e0].
    + destruct (Z.eqb_spec (cmnd_type cb) 0) as [E0 | E0].
      * split.
        -- intros H. injection H as <-. split; [reflexivity |]. left. split; [exact E0 | reflexivity].
        -- intros [_ [[_ ->] | [E1 _]]]; [reflexivity | congruence].
      * destruct (Z.eqb_spec (cmnd_type cb) 1) as [E1 | E1].
        -- destruct (coerce_spec (func cb) (tl (Parse.parse (text message)))) as [r |].
           ++ split.
              ** intros H. injection H as <-. split; [reflexivity |].
                 right. split; [exact E1 | reflexivity].
              ** intros [_ [[E _] | [_ E]]]; [congruence |].
                 injection E as <-. reflexivity.
           ++ split; [discriminate |].
              intros [_ [[E _] | [_ E]]]; [congruence | discriminate].
        -- split; [discriminate |].
           intros [_ [[E _] | [E _]]]; congruence.
    + split; [discriminate |]. intros [H _]. discriminate.
    + split; [discriminate |]. intros [H _]. discriminate.
  - apply calls_of_cases.
  - intros cb args. apply run_callback_call.
  - intros cb Hev Hty Hrej. apply all_events_iff in Hev.
    split; [| split].
    + rewrite check_args_refines in Hrej. injection Hrej as Hrej.
      unfold calls_of, call_args. rewrite Hev, Hty, Hrej. reflexivity.
    + unfold Dispatch.run_callback. rewrite Hev, Hty, Hrej. reflexivity.
    + rewrite Bot_send_error_reply. reflexivity.
  - apply add_command_callbacks_new.
  - apply add_command_callbacks_again.
  - apply add_command_callbacks_periodic.
Qed.

Section ExampleHandlers.

Lemma Bot_send_callbacks : forall b target message,
  callbacks (Bot_send b target message) = callbacks b
  /\ PREFIX (Bot_send b target message) = PREFIX b
  /\ history (Bot_send b target message) = history b
  /\ commands_help (Bot_send b target message) = commands_help b.
Proof. intros b target message. repeat split. Qed.

Lemma example_handlers_keep_rules : keeps_rules example_handlers.
Proof.
  split; intros f b m args; unfold example_handlers;
    destruct (String.eqb (fn_name f) "foo"); try reflexivity;
    destruct (String.eqb (fn_name f) "boom"); reflexivity.
Qed.

Lemma idle_handlers_keep_rules : keeps_rules idle_handlers.
Proof. split; intros f b m args; reflexivity. Qed.

End ExampleHandlers.

Lemma C6_dispatch_every_matching_rule_witness :
  (exists b' : Bot,
     Dispatch.dispatch example_handlers bot_with_ping_add
       (mkMessage "alice" "#room" "!add 5")
     = (b',
        flat_map (calls_of bot_with_ping_add (mkMessage "alice" "#room" "!add 5"))
          (Dict.values (callbacks bot_with_ping_add)),
        None)
     /\ callbacks b' = callbacks bot_with_ping_add)
  /\ (exists b' : Bot,
        Dispatch.dispatch example_handlers bot_with_boom_ping
          (mkMessage "alice" "#room" "!ping")
        = (b',
           (flat_map (calls_of bot_with_boom_ping (mkMessage "alice" "#room" "!ping")) []
            ++ [Called (name boom_rule) (mkMessage "alice" "#room" "!ping") []])%list,
           Some (OtherError "Boom")))
  /\ calls_of bot_with_ping_add (mkMessage "alice" "#room" "!add 5") add_rule
     = [Called (name add_rule) (mkMessage "alice" "#room" "!add 5") [VInt 5]]
  /\ (calls_of bot_with_ping_add (mkMessage "alice" "#room" "!add abc") add_rule = []
      /\ Dispatch.run_callback example_handlers bot_with_ping_add
           (mkMessage "alice" "#room" "!add abc") add_rule
         = (Bot_send bot_with_ping_add (to (mkMessage "alice" "#room" "!add abc"))
              Dispatch.error_reply, [], None)
      /\ IRC.sent (irc (Bot_send bot_with_ping_add
                          (to (mkMessage "alice" "#room" "!add abc"))
                          Dispatch.error_reply))
         = (IRC.sent (irc bot_with_ping_add)
            ++ [("PRIVMSG " ++ to (mkMessage "alice" "#room" "!add abc") ++ " :"
                 ++ Dispatch.error_reply ++ PyStr.CRLF)%string])%list)
  /\ Dict.values (callbacks (add_command bot_with_ping add_rule false))
     = (Dict.values (callbacks bot_with_ping) ++ [add_rule])%list.
Proof.
  split; [| split; [| split; [| split]]].
  - apply (proj1 (C6_dispatch_every_matching_rule example_handlers bot_with_ping_add
                    (mkMessage "alice" "#room" "!add 5"))).
    + exact example_handlers_keep_rules.
    + intros cb [<- | [<- | []]]; eexists; reflexivity.
    + intros cb args b' [<- | [<- | []]] H.
      * vm_compute in H. discriminate H.
      * reflexivity.
  - apply (proj1 (proj2 (C6_dispatch_every_matching_rule example_handlers
                           bot_with_boom_ping (mkMessage "alice" "#room" "!ping")))
             [] boom_rule [ping_command] [] (OtherError "Boom")).
    + exact example_handlers_keep_rules.
    + reflexivity.
    + intros cb0 [].
    + intros cb0 args0 b' [].
    + reflexivity.
    + intros b'. reflexivity.
  - apply (proj1 (proj2 (proj2
      (C6_dispatch_every_matching_rule example_handlers bot_with_ping_add
         (mkMessage "alice" "#room" "!add 5"))))).
    split.
    + eexists. split; [reflexivity |]. intros ev [<- | []]. reflexivity.
    + right. split; reflexivity.
  - apply (proj1 (proj2 (proj2 (proj2 (proj2 (proj2
      (C6_dispatch_every_matching_rule example_handlers bot_with_ping_add
         (mkMessage "alice" "#room" "!add abc")))))))).
    + eexists. split; [reflexivity |]. intros ev [<- | []]. reflexivity.
    + reflexivity.
    + reflexivity.
  - apply (proj1 (proj2 (proj2 (proj2 (proj2 (proj2 (proj2
      (C6_dispatch_every_matching_rule example_handlers bot_with_ping
         (mkMessage "alice" "#room" "!add 5"))))))))).
    + discriminate.
    + reflexivity.
Defined.

(** Two rules match one message and both are called, in the order of their
    registration; the handler of ping answers. *)
Example dispatch_two_rules :
  Dispatch.dispatch example_handlers
    (add_command bot_with_ping_add
       (Command_init "spam" (mkFunc "spam" "" [] [])
          (Predicates [fun _ m => String.eqb (to m) "#room"]) "" 0) false)
    (mkMessage "alice" "#room" "!ping")
  = (push_sent
       (add_command bot_with_ping_add
          (Command_init "spam" (mkFunc "spam" "" [] [])
             (Predicates [fun _ m => String.eqb (to m) "#room"]) "" 0) false)
       ["PRIVMSG #room :pong" ++ PyStr.CRLF],
     [Called "ping" (mkMessage "alice" "#room" "!ping") [];
      Called "spam" (mkMessage "alice" "#room" "!ping") []],
     None).
Proof. reflexivity. Qed.

(** The rejected call of the counterexample: no call, one reply. *)
Example dispatch_rejected :
  Dispatch.dispatch example_handlers bot_with_ping_add
    (mkMessage "alice" "#room" "!add abc")
  = (push_sent bot_with_ping_add
       ["PRIVMSG #room :" ++ Dispatch.error_reply ++ PyStr.CRLF],
     [], None).
Proof. reflexivity. Qed.

(** The separator U+001C, which [int] refuses, never reaches it from the
    end of a token: [parse] has stripped it.  Between the digits it stays
    and the call is rejected. *)
Example dispatch_separator :
  Dispatch.dispatch example_handlers bot_with_ping_add
    (mkMessage "alice" "#room" ("!add " ++ String (ascii_of_nat 28) "12"))
  = (bot_with_ping_add,
     [Called "add"
        (mkMessage "alice" "#room" ("!add " ++ String (ascii_of_nat 28) "12")) [VInt 12]],
     None)
  /\ Dispatch.dispatch example_handlers bot_with_ping_add
       (mkMessage "alice" "#room" ("!add 1" ++ String (ascii_of_nat 28) "2"))
     = (push_sent bot_with_ping_add
          ["PRIVMSG #room :" ++ Dispatch.error_reply ++ PyStr.CRLF],
        [], None).
Proof. split; reflexivity. Qed.

(** The scenario of the specification: the rule ping answers pong where
    the message came from. *)
Example dispatch_ping_pong :
  Dispatch.dispatch example_handlers bot_with_ping (mkMessage "alice" "#room" "!ping")
  = (push_sent bot_with_ping ["PRIVMSG #room :pong" ++ PyStr.CRLF],
     [Called "ping" (mkMessage "alice" "#room" "!ping") []],
     None).
Proof. reflexivity. Qed.

(** A handler that raises: the rule after it is not tried. *)
Example dispatch_handler_raises :
  Dispatch.dispatch example_handlers bot_with_boom_ping (mkMessage "alice" "#room" "!ping")
  = (bot_with_boom_ping,
     [Called "boom" (mkMessage "alice" "#room" "!ping") []],
     Some (OtherError "Boom")).
Proof. reflexivity. Qed.

(** A handler that registers a rule while the loop runs: the next step of
    the iteration raises. *)
Example dispatch_registry_changed :
  snd (Dispatch.dispatch
         (fun f b m args => (add_command b add_rule false, Ok tt))
         bot_with_ping (mkMessage "alice" "#room" "!ping"))
  = Some RuntimeError.
Proof. reflexivity. Qed.

(** ** The matcher *)

Section RegexFacts.
Import PyStr Re.

Lemma rep_sound : forall cls s k res,
  rep cls s k = Some res ->
  exists pre rest, s = pre ++ rest /\ all_in cls pre = true /\ k rest = Some res.
Proof.
  intros cls s k res. induction s as [| c s IH]; intros H; cbn [rep] in H.
  - exists "", "". repeat split. exact H.
  - destruct (cls c) eqn:Ec.
    + destruct (rep cls s k) as [res' |] eqn:Er.
      * injection H as ->. destruct (IH eq_refl) as [pre [rest [-> [Hall Hk]]]].
        exists (String c pre), rest. cbn [all_in]. rewrite Ec, Hall.
        repeat split. exact Hk.
      * exists "", (String c s). repeat split. exact H.
    + exists "", (String c s). repeat split. exact H.
Qed.

(** What [run] finds is a match: soundness of the matcher. *)
Lemma run_sound : forall r s cs k res,
  run r s cs k = Some res ->
  exists rest cs', Matches r s cs rest cs' /\ k rest cs' = Some res.
Proof.
  induction r as [l | cls | cls | r1 IH1 r2 IH2 | r1 IH1 r2 IH2 | r IH | name r IH];
    intros s cs k res H; cbn [run] in H.
  - destruct (String.prefix l s) eqn:Ep; [| discriminate].
    destruct (prefix_split _ _ Ep) as [rest ->].
    rewrite drop_app in H. exists rest, cs. split; [constructor | exact H].
  - destruct s as [| c s]; [discriminate |].
    destruct (cls c) eqn:Ec; [| discriminate].
    destruct (rep_sound _ _ _ _ H) as [pre [rest [-> [Hall Hk]]]].
    exists rest, cs. split; [| exact Hk].
    change (String c (pre ++ rest)) with (String c pre ++ rest).
    constructor; assumption.
  - destruct (rep_sound _ _ _ _ H) as [pre [rest [-> [Hall Hk]]]].
    exists rest, cs. split; [constructor; assumption | exact Hk].
  - destruct (IH1 _ _ _ _ H) as [mid [cs1 [H1 H']]].
    destruct (IH2 _ _ _ _ H') as [rest [cs2 [H2 Hk]]].
    exists rest, cs2. split; [econstructor; eassumption | exact Hk].
  - destruct (run r1 s cs k) as [res' |] eqn:E1.
    + injection H as ->. destruct (IH1 _ _ _ _ E1) as [rest [cs' [H1 Hk]]].
      exists rest, cs'. split; [apply MAltL; exact H1 | exact Hk].
    + destruct (IH2 _ _ _ _ H) as [rest [cs' [H2 Hk]]].
      exists rest, cs'. split; [apply MAltR; exact H2 | exact Hk].
  - destruct (run r s cs k) as [res' |] eqn:E1.
    + injection H as ->. destruct (IH _ _ _ _ E1) as [rest [cs' [H1 Hk]]].
      exists rest, cs'. split; [apply MOptSome; exact H1 | exact Hk].
    + exists s, cs. split; [apply MOptNone | exact H].
  - destruct (IH _ _ _ _ H) as [rest [cs' [H1 Hk]]].
    exists rest, ((name, take (String.length s - String.length rest) s) :: cs').
    split; [constructor; exact H1 | exact Hk].
Qed.

(** A match consumes a prefix of its input. *)
Lemma Matches_prefix : forall r s cs rest cs',
  Matches r s cs rest cs' -> exists consumed, s = consumed ++ rest.
Proof.
  intros r s cs rest cs' H. induction H.
  - exists l. reflexivity.
  - exists (String c pre). reflexivity.
  - exists pre. reflexivity.
  - destruct IHMatches1 as [c1 ->]. destruct IHMatches2 as [c2 ->].
    exists (c1 ++ c2). rewrite str_app_assoc. reflexivity.
  - exact IHMatches.
  - exact IHMatches.
  - exact IHMatches.
  - exists "". reflexivity.
  - exact IHMatches.
Qed.

Lemma take_consumed : forall consumed rest,
  take (String.length (consumed ++ rest) - String.length rest) (consumed ++ rest)
  = consumed.
Proof.
  intros consumed rest. rewrite str_length_app.
  replace (String.length consumed + String.length rest - String.length rest)%nat
    with (String.length consumed) by lia.
  apply take_app.
Qed.

Lemma match_here_sound : forall r s rest cs,
  match_here r s = Some (rest, cs) -> Matches r s [] rest cs.
Proof.
  intros r s rest cs H. unfold match_here in H.
  destruct (run_sound _ _ _ _ _ H) as [rest' [cs' [HM Hk]]].
  injection Hk as -> ->. exact HM.
Qed.

Lemma all_in_app : forall cls s p,
  all_in cls (s ++ p) = all_in cls s && all_in cls p.
Proof.
  intros cls s p. induction s as [| c s IH]; cbn [append all_in]; [reflexivity |].
  rewrite IH, andb_assoc. reflexivity.
Qed.

(** The repetition takes the whole run when what follows is accepted. *)
Lemma rep_longest : forall cls pre rest k res,
  all_in cls pre = true -> stops cls rest -> k rest = Some res ->
  rep cls (pre ++ rest) k = Some res.
Proof.
  intros cls pre rest k res Hpre Hstop Hk.
  induction pre as [| c pre IH]; cbn [append].
  - destruct rest as [| c r]; cbn [rep]; [exact Hk |].
    cbn [stops] in Hstop. rewrite Hstop. exact Hk.
  - cbn [all_in] in Hpre. apply andb_true_iff in Hpre. destruct Hpre as [Hc Hpre].
    cbn [rep]. rewrite Hc, (IH Hpre). reflexivity.
Qed.

(** It fails when no way of cutting the run is accepted. *)
Lemma rep_fails : forall cls s k,
  (forall pre rest, s = pre ++ rest -> all_in cls pre = true -> k rest = None) ->
  rep cls s k = None.
Proof.
  intros cls s k. induction s as [| c s IH]; intros H; cbn [rep].
  - apply (H "" ""); reflexivity.
  - assert (Hk : k (String c s) = None) by (apply (H "" (String c s)); reflexivity).
    destruct (cls c) eqn:Ec; [| exact Hk].
    rewrite IH; [exact Hk |].
    intros pre rest -> Hpre. apply (H (String c pre) rest); [reflexivity |].
    cbn [all_in]. rewrite Ec, Hpre. reflexivity.
Qed.

Lemma prefix_one_ne : forall a c s, a <> c -> String.prefix (String a "") (String c s) = false.
Proof.
  intros a c s H. cbn [String.prefix]. destruct (ascii_dec a c); [contradiction | reflexivity].
Qed.

Lemma prefix_one_eq : forall a s, String.prefix (String a "") (String a s) = true.
Proof.
  intros a s. apply (prefix_app (String a "") s).
Qed.

Lemma run_grp : forall name r s cs k,
  run (Grp name r) s cs k
  = run r s cs
      (fun rest cs' =>
         k rest ((name, take (String.length s - String.length rest) s) :: cs')).
Proof. reflexivity. Qed.

Lemma run_alt : forall r1 r2 s cs k,
  run (Alt r1 r2) s cs k
  = match run r1 s cs k with
    | Some res => Some res
    | None => run r2 s cs k
    end.
Proof. reflexivity. Qed.

Lemma run_seq : forall r1 r2 s cs k,
  run (Seq r1 r2) s cs k = run r1 s cs (fun rest cs' => run r2 rest cs' k).
Proof. reflexivity. Qed.

Lemma run_lit : forall l rest cs k,
  run (Lit l) (l ++ rest) cs k = k rest cs.
Proof.
  intros l rest cs k. cbn [run]. rewrite prefix_app, drop_app. reflexivity.
Qed.

(** A group around a repeated class takes the whole run when what follows
    is accepted, and records it. *)
Lemma run_group_plus : forall name cls c pre rest cs k res,
  all_in cls (String c pre) = true ->
  stops cls rest ->
  k rest ((name, String c pre) :: cs) = Some res ->
  run (Grp name (Plus cls)) (String c pre ++ rest) cs k = Some res.
Proof.
  intros name cls c pre rest cs k res Hall Hstop Hk.
  rewrite run_grp. cbn [run append].
  cbn [all_in] in Hall. apply andb_true_iff in Hall. destruct Hall as [Hc Hpre].
  rewrite Hc.
  apply rep_longest; [exact Hpre | exact Hstop |].
  change (String c (pre ++ rest)) with (String c pre ++ rest).
  rewrite take_consumed. exact Hk.
Qed.

End RegexFacts.

Section MatchesInversion.
Import PyStr Re.

Lemma Matches_lit_inv : forall l s cs rest cs',
  Matches (Lit l) s cs rest cs' -> s = l ++ rest /\ cs' = cs.
Proof. intros l s cs rest cs' H. inversion H; subst. split; reflexivity. Qed.

Lemma Matches_plus_inv : forall cls s cs rest cs',
  Matches (Plus cls) s cs rest cs' ->
  exists c pre,
    s = String c pre ++ rest /\ cls c = true /\ all_in cls pre = true /\ cs' = cs.
Proof.
  intros cls s cs rest cs' H. inversion H; subst.
  exists c, pre. repeat split; assumption.
Qed.

Lemma Matches_star_inv : forall cls s cs rest cs',
  Matches (Star cls) s cs rest cs' ->
  exists pre, s = pre ++ rest /\ all_in cls pre = true /\ cs' = cs.
Proof.
  intros cls s cs rest cs' H. inversion H; subst.
  exists pre. repeat split; assumption.
Qed.

Lemma Matches_seq_inv : forall r1 r2 s cs rest cs2,
  Matches (Seq r1 r2) s cs rest cs2 ->
  exists mid cs1, Matches r1 s cs mid cs1 /\ Matches r2 mid cs1 rest cs2.
Proof.
  intros r1 r2 s cs rest cs2 H. inversion H; subst.
  exists mid, cs1. split; assumption.
Qed.

Lemma Matches_alt_inv : forall r1 r2 s cs rest cs',
  Matches (Alt r1 r2) s cs rest cs' ->
  Matches r1 s cs rest cs' \/ Matches r2 s cs rest cs'.
Proof.
  intros r1 r2 s cs rest cs' H. inversion H; subst; [left | right]; assumption.
Qed.

Lemma Matches_opt_inv : forall r s cs rest cs',
  Matches (Opt r) s cs rest cs' ->
  Matches r s cs rest cs' \/ (rest = s /\ cs' = cs).
Proof.
  intros r s cs rest cs' H.
  inversion H; subst; [left; assumption | right; split; reflexivity].
Qed.

(** A group around a repeated class records exactly the run it matched. *)
Lemma Matches_group_plus : forall name cls s cs rest cs',
  Matches (Grp name (Plus cls)) s cs rest cs' ->
  exists c pre,
    s = String c pre ++ rest /\ cls c = true /\ all_in cls pre = true
    /\ cs' = (name, String c pre) :: cs.
Proof.
  intros name cls s cs rest cs' H. inversion H as [| | | | | | | | n r s0 cs0 rest0 cs1 HM]; subst.
  apply Matches_plus_inv in HM. destruct HM as [c [pre [-> [Hc [Hpre ->]]]]].
  exists c, pre. rewrite (take_consumed (String c pre) rest).
  repeat split; assumption.
Qed.

(** The shape of a line the pattern of [Message] matches, and its groups. *)
Lemma Message_pattern_shape : forall raw rest cs,
  Matches MessagePattern.pattern raw [] rest cs ->
  exists ca a' h ct t' cx x',
    raw = ":" ++ String ca a' ++ h ++ " PRIVMSG " ++ String ct t' ++ " :"
          ++ String cx x' ++ rest
    /\ MessagePattern.author_class ca = true
    /\ all_in MessagePattern.author_class a' = true
    /\ MessagePattern.nonspace ct = true
    /\ all_in MessagePattern.nonspace t' = true
    /\ MessagePattern.dot cx = true
    /\ all_in MessagePattern.dot x' = true
    /\ ((h = "" /\ cs = [("text", String cx x'); ("to", String ct t');
                         ("author", String ca a')])
        \/ exists ch h',
             h = "!" ++ String ch h'
             /\ MessagePattern.nonspace ch = true
             /\ all_in MessagePattern.nonspace h' = true
             /\ cs = [("text", String cx x'); ("to", String ct t');
                      ("host", String ch h'); ("author", String ca a')]).
Proof.
  intros raw rest cs H. unfold MessagePattern.pattern in H.
  apply Matches_seq_inv in H. destruct H as [m1 [cs1 [Hcolon H]]].
  apply Matches_lit_inv in Hcolon. destruct Hcolon as [-> ->].
  apply Matches_seq_inv in H. destruct H as [m2 [cs2 [Hauthor H]]].
  apply Matches_group_plus in Hauthor.
  destruct Hauthor as [ca [a' [-> [Hca [Ha' ->]]]]].
  apply Matches_seq_inv in H. destruct H as [m3 [cs3 [Hhost H]]].
  apply Matches_seq_inv in H. destruct H as [m4 [cs4 [Hpriv H]]].
  apply Matches_lit_inv in Hpriv. destruct Hpriv as [-> ->].
  apply Matches_seq_inv in H. destruct H as [m5 [cs5 [Hto H]]].
  apply Matches_group_plus in Hto.
  destruct Hto as [ct [t' [-> [Hct [Ht' ->]]]]].
  apply Matches_seq_inv in H. destruct H as [m6 [cs6 [Hsep Htext]]].
  apply Matches_lit_inv in Hsep. destruct Hsep as [-> ->].
  apply Matches_group_plus in Htext.
  destruct Htext as [cx [x' [-> [Hcx [Hx' ->]]]]].
  apply Matches_opt_inv in Hhost.
  destruct Hhost as [Hhost | [Hm ->]].
  - apply Matches_seq_inv in Hhost. destruct Hhost as [m7 [cs7 [Hbang Hhost]]].
    apply Matches_lit_inv in Hbang. destruct Hbang as [-> ->].
    apply Matches_group_plus in Hhost.
    destruct Hhost as [ch [h' [-> [Hch [Hh' ->]]]]].
    exists ca, a', ("!" ++ String ch h'), ct, t', cx, x'.
    split; [rewrite !str_app_assoc; reflexivity |].
    repeat (split; [assumption |]).
    right. exists ch, h'. repeat split; assumption.
  - exists ca, a', "", ct, t', cx, x'.
    split; [rewrite <- Hm; reflexivity |].
    repeat (split; [assumption |]).
    left. split; reflexivity.
Qed.

End MatchesInversion.

Section MessageForward.
Import PyStr Re MessagePattern.

Lemma run_opt_some : forall r s cs k res,
  run r s cs k = Some res -> run (Opt r) s cs k = Some res.
Proof. intros r s cs k res H. cbn [run]. rewrite H. reflexivity. Qed.

Lemma run_opt_none : forall r s cs k,
  run r s cs k = None -> run (Opt r) s cs k = k s cs.
Proof. intros r s cs k H. cbn [run]. rewrite H. reflexivity. Qed.

(** A line of the PRIVMSG shape without a host is matched, with these
    groups. *)
Lemma search_privmsg : forall ca a' ct t' cx x' rest,
  all_in author_class (String ca a') = true ->
  all_in nonspace (String ct t') = true ->
  all_in dot (String cx x') = true ->
  stops dot rest ->
  search (":" ++ String ca a' ++ " PRIVMSG " ++ String ct t' ++ " :"
          ++ String cx x' ++ rest)
  = Some (rest, [("text", String cx x'); ("to", String ct t');
                 ("author", String ca a')]).
Proof.
  intros ca a' ct t' cx x' rest Ha Ht Hx Hstop.
  unfold search, match_here, pattern.
  rewrite run_seq, run_lit, run_seq.
  apply run_group_plus; [exact Ha | reflexivity |].
  rewrite run_seq, run_opt_none by reflexivity.
  rewrite run_seq, run_lit, run_seq.
  apply run_group_plus; [exact Ht | reflexivity |].
  rewrite run_seq, run_lit.
  apply run_group_plus; [exact Hx | exact Hstop | reflexivity].
Qed.

(** The same with a host after the author. *)
Lemma search_privmsg_host : forall ca a' ch h' ct t' cx x' rest,
  all_in author_class (String ca a') = true ->
  all_in nonspace (String ch h') = true ->
  all_in nonspace (String ct t') = true ->
  all_in dot (String cx x') = true ->
  stops dot rest ->
  search (":" ++ String ca a' ++ "!" ++ String ch h' ++ " PRIVMSG "
          ++ String ct t' ++ " :" ++ String cx x' ++ rest)
  = Some (rest, [("text", String cx x'); ("to", String ct t');
                 ("host", String ch h'); ("author", String ca a')]).
Proof.
  intros ca a' ch h' ct t' cx x' rest Ha Hh Ht Hx Hstop.
  unfold search, match_here, pattern.
  rewrite run_seq, run_lit, run_seq.
  apply run_group_plus; [exact Ha | reflexivity |].
  rewrite run_seq. apply run_opt_some.
  rewrite run_seq, run_lit.
  apply run_group_plus; [exact Hh | reflexivity |].
  rewrite run_seq, run_lit, run_seq.
  apply run_group_plus; [exact Ht | reflexivity |].
  rewrite run_seq, run_lit.
  apply run_group_plus; [exact Hx | exact Hstop | reflexivity].
Qed.

End MessageForward.

(** ** Message *)

(** C4.  [Message.__init__] is total.  On a line the pattern matches, the
    groups author, to and text are set and the three fields are exactly
    those groups; each group is a piece of the line as it stands, the line
    being [:author], the optional [!host], [ PRIVMSG ], [to], [ :], [text]
    and what the pattern left.  On any other line the three fields are the
    empty string.  Every line of that shape is matched, and its fields are
    the author, the destination and the text as written, whatever their
    case or inner spacing. *)
Theorem C4_message_fields_are_groups :
  (forall raw : string,
     match MessagePattern.search raw with
     | Some (rest, cs) =>
         exists a h t x : string,
           Re.group cs "author" = Some a
           /\ Re.group cs "to" = Some t
           /\ Re.group cs "text" = Some x
           /\ Message_init raw = mkMessage a t x
           /\ raw = ":" ++ a ++ h ++ " PRIVMSG " ++ t ++ " :" ++ x ++ rest
           /\ a <> "" /\ t <> "" /\ x <> ""
           /\ all_in MessagePattern.author_class a = true
           /\ all_in MessagePattern.nonspace t = true
           /\ all_in MessagePattern.dot x = true
           /\ ((h = "" /\ Re.group cs "host" = None)
               \/ exists host, h = "!" ++ host /\ Re.group cs "host" = Some host)
     | None => Message_init raw = mkMessage "" "" ""
     end)
  /\ (forall (ca : ascii) (a' : string) (ct : ascii) (t' : string)
             (cx : ascii) (x' rest : string),
        all_in MessagePattern.author_class (String ca a') = true ->
        all_in MessagePattern.nonspace (String ct t') = true ->
        all_in MessagePattern.dot (String cx x') = true ->
        stops MessagePattern.dot rest ->
        Message_init (":" ++ String ca a' ++ " PRIVMSG " ++ String ct t' ++ " :"
                      ++ String cx x' ++ rest)
        = mkMessage (String ca a') (String ct t') (String cx x'))
  /\ (forall (ca : ascii) (a' : string) (ch : ascii) (h' : string)
             (ct : ascii) (t' : string) (cx : ascii) (x' rest : string),
        all_in MessagePattern.author_class (String ca a') = true ->
        all_in MessagePattern.nonspace (String ch h') = true ->
        all_in MessagePattern.nonspace (String ct t') = true ->
        all_in MessagePattern.dot (String cx x') = true ->
        stops MessagePattern.dot rest ->
        Message_init (":" ++ String ca a' ++ "!" ++ String ch h' ++ " PRIVMSG "
                      ++ String ct t' ++ " :" ++ String cx x' ++ rest)
        = mkMessage (String ca a') (String ct t') (String cx x')).
Proof.
  split; [| split].
  - intros raw. unfold Message_init.
    destruct (MessagePattern.search raw) as [[rest cs] |] eqn:E; [| reflexivity].
    apply match_here_sound in E.
    destruct (Message_pattern_shape _ _ _ E)
      as [ca [a' [h [ct [t' [cx [x' [Hraw [Hca [Ha' [Hct [Ht' [Hcx [Hx' Hcs]]]]]]]]]]]]]].
    exists (String ca a'), h, (String ct t'), (String cx x').
    assert (Hfacts :
      String ca a' <> "" /\ String ct t' <> "" /\ String cx x' <> ""
      /\ all_in MessagePattern.author_class (String ca a') = true
      /\ all_in MessagePattern.nonspace (String ct t') = true
      /\ all_in MessagePattern.dot (String cx x') = true).
    { cbn [all_in]. rewrite Hca, Ha', Hct, Ht', Hcx, Hx'.
      repeat split; discriminate. }
    destruct Hcs as [[-> ->] | [ch [h' [-> [Hch [Hh' ->]]]]]].
    + repeat (split; [reflexivity |]). split; [exact Hraw |].
      destruct Hfacts as [? [? [? [? [? ?]]]]].
      repeat (split; [assumption |]).
      left. split; reflexivity.
    + repeat (split; [reflexivity |]). split; [exact Hraw |].
      destruct Hfacts as [? [? [? [? [? ?]]]]].
      repeat (split; [assumption |]).
      right. exists (String ch h'). split; reflexivity.
  - intros ca a' ct t' cx x' rest Ha Ht Hx Hstop. unfold Message_init.
    rewrite (search_privmsg ca a' ct t' cx x' rest Ha Ht Hx Hstop). reflexivity.
  - intros ca a' ch h' ct t' cx x' rest Ha Hh Ht Hx Hstop. unfold Message_init.
    rewrite (search_privmsg_host ca a' ch h' ct t' cx x' rest Ha Hh Ht Hx Hstop).
    reflexivity.
Qed.

Lemma C4_message_fields_are_groups_witness :
  Message_init (":" ++ String "b" "ob" ++ " PRIVMSG " ++ String "#" "room" ++ " :"
                ++ String "H" "i  There " ++ "")
  = mkMessage (String "b" "ob") (String "#" "room") (String "H" "i  There ")
  /\ Message_init (":" ++ String "b" "ob" ++ "!" ++ String "~" "b@host" ++ " PRIVMSG "
                   ++ String "#" "room" ++ " :" ++ String "H" "i  There " ++ "")
     = mkMessage (String "b" "ob") (String "#" "room") (String "H" "i  There ").
Proof.
  split.
  - apply (proj1 (proj2 C4_message_fields_are_groups)); first [reflexivity | exact I].
  - apply (proj2 (proj2 C4_message_fields_are_groups)); first [reflexivity | exact I].
Defined.

Example message_parsed :
  Message_init ":alice!~a@host PRIVMSG #room :Hello  World "
  = mkMessage "alice" "#room" "Hello  World ".
Proof. reflexivity. Qed.

Example message_unparsed :
  map Message_init ["PING :irc.example.org"; ":srv 001 bot :Welcome";
                    "alice PRIVMSG #room :hi"; ":alice PRIVMSG #room :"]
  = [mkMessage "" "" ""; mkMessage "" "" ""; mkMessage "" "" ""; mkMessage "" "" ""].
Proof. reflexivity. Qed.

(** ** parse *)

Section ParseFacts.
Import PyStr Re Parse.

Lemma findall_skip : forall r pre rest,
  findall_from r (String.length pre) (pre ++ rest) = findall_from r 0 rest.
Proof.
  intros r pre rest. induction pre as [| c pre IH]; [reflexivity |].
  cbn [String.length append findall_from]. exact IH.
Qed.

(** After a match that consumed [String c pre], the scan resumes on what
    the match left. *)
Lemma findall_match : forall r c pre rest cs,
  match_here r (String c pre ++ rest) = Some (rest, cs) ->
  findall r (String c pre ++ rest) = cs :: findall r rest.
Proof.
  intros r c pre rest cs H. unfold findall.
  change (String c pre ++ rest) with (String c (pre ++ rest)) in *.
  cbn [findall_from]. rewrite H. f_equal.
  cbn [String.length]. rewrite str_length_app.
  replace (S (String.length pre + String.length rest) - String.length rest - 1)%nat
    with (String.length pre) by lia.
  apply findall_skip.
Qed.

Lemma findall_no_match : forall r c s,
  match_here r (String c s) = None -> findall r (String c s) = findall r s.
Proof.
  intros r c s H. unfold findall. cbn [findall_from]. rewrite H. reflexivity.
Qed.


(** A quoted alternative fails on an opening quote that nothing closes. *)
Lemma quoted_fails : forall qc cls body cs k,
  cls qc = false -> all_in cls body = true ->
  run (Seq (Lit (String qc "")) (Seq (Plus cls) (Seq (Lit (String qc "")) (Star blank))))
      (String qc body) cs k
  = None.
Proof.
  intros qc cls body cs k Hqc Hbody. cbn [run].
  rewrite prefix_one_eq. cbn [String.length drop].
  destruct body as [| c b]; [reflexivity |].
  cbn [all_in] in Hbody. apply andb_true_iff in Hbody. destruct Hbody as [Hc Hb].
  rewrite Hc. apply rep_fails.
  intros pre rest -> _. rewrite all_in_app in Hb.
  apply andb_true_iff in Hb. destruct Hb as [_ Hrest].
  destruct rest as [| c' r]; [reflexivity |].
  cbn [all_in] in Hrest. apply andb_true_iff in Hrest. destruct Hrest as [Hc' _].
  rewrite prefix_one_ne; [reflexivity |]. congruence.
Qed.


Lemma pattern_eq :
  pattern = Grp "1" (Alt (Grp "2" (quoted dquote not_dquote))
                       (Alt (Grp "3" (quoted squote not_squote)) (Grp "4" word))).
Proof. reflexivity. Qed.

(** A quoted alternative on a quoted run: the run, its quotes and the
    blanks after it. *)
Lemma quoted_matches : forall qc cls c q sp rest cs k res,
  cls qc = false ->
  all_in cls (String c q) = true ->
  all_in blank sp = true ->
  stops blank rest ->
  k rest cs = Some res ->
  run (quoted qc cls) (String qc (String c q ++ String qc (sp ++ rest))) cs k
  = Some res.
Proof.
  intros qc cls c q sp rest cs k res Hqc Hq Hsp Hstop Hk.
  unfold quoted. cbn [run]. rewrite prefix_one_eq. cbn [String.length drop append].
  cbn [all_in] in Hq. apply andb_true_iff in Hq. destruct Hq as [Hc Hq].
  rewrite Hc.
  apply rep_longest; [exact Hq | exact Hqc |].
  rewrite prefix_one_eq. cbn [String.length drop].
  apply rep_longest; [exact Hsp | exact Hstop | exact Hk].
Qed.

Lemma quoted_other_char : forall qc cls c s cs k,
  c <> qc -> run (quoted qc cls) (String c s) cs k = None.
Proof.
  intros qc cls c s cs k Hne. unfold quoted. cbn [run].
  rewrite prefix_one_ne by congruence. reflexivity.
Qed.

(** A run without blanks and the blanks after it. *)
Lemma word_matches : forall c w sp rest cs k res,
  all_in not_blank (String c w) = true ->
  all_in blank sp = true ->
  stops not_blank (sp ++ rest) ->
  stops blank rest ->
  k rest cs = Some res ->
  run word (String c w ++ sp ++ rest) cs k = Some res.
Proof.
  intros c w sp rest cs k res Hw Hsp Hstop1 Hstop2 Hk.
  unfold word. cbn [run append].
  cbn [all_in] in Hw. apply andb_true_iff in Hw. destruct Hw as [Hc Hw].
  rewrite Hc.
  apply rep_longest; [exact Hw | exact Hstop1 |].
  apply rep_longest; [exact Hsp | exact Hstop2 | exact Hk].
Qed.

(** The third alternative is the one that matches a run without blanks
    that does not open a quoted run. *)
Lemma match_word : forall c w sp rest,
  (c = dquote -> all_in not_dquote (w ++ sp ++ rest) = true) ->
  (c = squote -> all_in not_squote (w ++ sp ++ rest) = true) ->
  all_in not_blank (String c w) = true ->
  all_in blank sp = true ->
  stops not_blank (sp ++ rest) ->
  stops blank rest ->
  match_here pattern (String c w ++ sp ++ rest)
  = Some (rest, [("1", String c w ++ sp); ("4", String c w ++ sp)]).
Proof.
  intros c w sp rest Hdq Hsq Hw Hsp Hstop1 Hstop2.
  unfold match_here. rewrite pattern_eq.
  rewrite run_grp, run_alt, run_grp.
  change (String c w ++ sp ++ rest) with (String c (w ++ sp ++ rest)).
  replace (run (quoted dquote not_dquote) (String c (w ++ sp ++ rest)) [] _)
    with (@None matched).
  2:{ symmetry. destruct (ascii_dec c dquote) as [-> | Hne].
      - apply quoted_fails; [reflexivity | apply Hdq; reflexivity].
      - apply quoted_other_char. exact Hne. }
  rewrite run_alt, run_grp.
  replace (run (quoted squote not_squote) (String c (w ++ sp ++ rest)) [] _)
    with (@None matched).
  2:{ symmetry. destruct (ascii_dec c squote) as [-> | Hne].
      - apply quoted_fails; [reflexivity | apply Hsq; reflexivity].
      - apply quoted_other_char. exact Hne. }
  rewrite run_grp.
  change (String c (w ++ sp ++ rest)) with (String c w ++ sp ++ rest).
  erewrite word_matches; [reflexivity | exact Hw | exact Hsp | exact Hstop1 | exact Hstop2 |].
  cbv beta.
  rewrite <- (str_app_assoc (String c w) sp rest), take_consumed. reflexivity.
Qed.

Lemma match_dquoted : forall c q sp rest,
  all_in not_dquote (String c q) = true ->
  all_in blank sp = true ->
  stops blank rest ->
  match_here pattern (DQ ++ String c q ++ DQ ++ sp ++ rest)
  = Some (rest, [("1", DQ ++ String c q ++ DQ ++ sp); ("2", DQ ++ String c q ++ DQ ++ sp)]).
Proof.
  intros c q sp rest Hq Hsp Hstop.
  unfold match_here. rewrite pattern_eq.
  rewrite run_grp, run_alt, run_grp.
  change (DQ ++ String c q ++ DQ ++ sp ++ rest)
    with (String dquote (String c q ++ String dquote (sp ++ rest))).
  erewrite quoted_matches;
    [reflexivity | reflexivity | exact Hq | exact Hsp | exact Hstop |].
  cbv beta.
  replace (String dquote (String c q ++ String dquote (sp ++ rest)))
    with ((DQ ++ String c q ++ DQ ++ sp) ++ rest)
    by (rewrite !str_app_assoc; reflexivity).
  rewrite take_consumed. reflexivity.
Qed.

Lemma match_squoted : forall c q sp rest,
  all_in not_squote (String c q) = true ->
  all_in blank sp = true ->
  stops blank rest ->
  match_here pattern (SQ ++ String c q ++ SQ ++ sp ++ rest)
  = Some (rest, [("1", SQ ++ String c q ++ SQ ++ sp); ("3", SQ ++ String c q ++ SQ ++ sp)]).
Proof.
  intros c q sp rest Hq Hsp Hstop.
  unfold match_here. rewrite pattern_eq.
  rewrite run_grp, run_alt, run_grp.
  change (SQ ++ String c q ++ SQ ++ sp ++ rest)
    with (String squote (String c q ++ String squote (sp ++ rest))).
  rewrite quoted_other_char by discriminate.
  rewrite run_alt, run_grp.
  erewrite quoted_matches;
    [reflexivity | reflexivity | exact Hq | exact Hsp | exact Hstop |].
  cbv beta.
  replace (String squote (String c q ++ String squote (sp ++ rest)))
    with ((SQ ++ String c q ++ SQ ++ sp) ++ rest)
    by (rewrite !str_app_assoc; reflexivity).
  rewrite take_consumed. reflexivity.
Qed.

Lemma match_blank : forall s, match_here pattern (String " " s) = None.
Proof.
  intros s. unfold match_here. rewrite pattern_eq.
  rewrite run_grp, run_alt, run_grp, quoted_other_char by discriminate.
  rewrite run_alt, run_grp, quoted_other_char by discriminate.
  reflexivity.
Qed.

(** *** strip *)

Lemma blank_isspace : forall c, blank c = true -> isspace c = true.
Proof.
  intros c H. unfold blank in H. apply Ascii.eqb_eq in H. subst c. reflexivity.
Qed.

Lemma all_blank_isspace : forall sp, all_in blank sp = true -> all_in isspace sp = true.
Proof.
  induction sp as [| c sp IH]; cbn [all_in]; [reflexivity |].
  intros H. apply andb_true_iff in H. destruct H as [Hc Hsp].
  rewrite (blank_isspace c Hc), (IH Hsp). reflexivity.
Qed.

Lemma nonspace_not_blank : forall c,
  MessagePattern.nonspace c = true -> not_blank c = true.
Proof.
  intros c H. unfold not_blank. destruct (Ascii.eqb_spec c " "); [subst c; discriminate | reflexivity].
Qed.

Lemma all_nonspace_not_blank : forall s,
  all_in MessagePattern.nonspace s = true -> all_in not_blank s = true.
Proof.
  induction s as [| c s IH]; cbn [all_in]; [reflexivity |].
  intros H. apply andb_true_iff in H. destruct H as [Hc Hs].
  rewrite (nonspace_not_blank c Hc), (IH Hs). reflexivity.
Qed.

Lemma rstrip_spaces : forall sp, all_in isspace sp = true -> rstrip sp = "".
Proof.
  induction sp as [| c sp IH]; cbn [all_in rstrip]; [reflexivity |].
  intros H. apply andb_true_iff in H. destruct H as [Hc Hsp].
  rewrite (IH Hsp), Hc. reflexivity.
Qed.

Lemma rstrip_app_spaces : forall s sp,
  all_in isspace sp = true -> rstrip (s ++ sp) = rstrip s.
Proof.
  intros s sp Hsp. induction s as [| c s IH]; cbn [append rstrip].
  - apply rstrip_spaces. exact Hsp.
  - rewrite IH. reflexivity.
Qed.

Lemma rstrip_end : forall s c,
  isspace c = false -> rstrip (s ++ String c "") = s ++ String c "".
Proof.
  intros s c Hc. induction s as [| a s IH]; cbn [append rstrip].
  - rewrite Hc. reflexivity.
  - rewrite IH. destruct s; reflexivity.
Qed.

Lemma rstrip_nonspace : forall s,
  all_in MessagePattern.nonspace s = true -> rstrip s = s.
Proof.
  induction s as [| c s IH]; cbn [all_in rstrip]; [reflexivity |].
  intros H. apply andb_true_iff in H. destruct H as [Hc Hs].
  rewrite (IH Hs). unfold MessagePattern.nonspace in Hc. apply negb_true_iff in Hc.
  rewrite Hc. destruct s; reflexivity.
Qed.

Lemma lstrip_head : forall c s, isspace c = false -> lstrip (String c s) = String c s.
Proof. intros c s H. cbn [lstrip]. rewrite H. reflexivity. Qed.

Lemma endswith_app : forall s p, endswith p (s ++ p) = true.
Proof.
  intros s p. unfold endswith. rewrite str_length_app.
  replace (String.length s + String.length p - String.length p)%nat
    with (String.length s) by lia.
  rewrite drop_app, String.eqb_refl.
  destruct (Nat.leb_spec (String.length p) (String.length s + String.length p));
    [reflexivity | lia].
Qed.

Lemma str_snoc : forall c s, exists s' l, String c s = s' ++ String l "".
Proof.
  intros c s. revert c. induction s as [| a s IH]; intros c.
  - exists "", c. reflexivity.
  - destruct (IH a) as [s' [l E]]. exists (String c s'), l.
    cbn [append]. rewrite <- E. reflexivity.
Qed.

(** A string whose last character is not [qc] does not end with [qc]. *)
Lemma endswith_quote_false : forall qc cls s,
  cls qc = false -> all_in cls s = true -> s <> "" ->
  forall pre, endswith (String qc "") (pre ++ s) = false.
Proof.
  intros qc cls s Hqc Hs Hne pre.
  destruct s as [| c s]; [congruence |].
  destruct (str_snoc c s) as [s' [l E]]. rewrite E in *.
  rewrite all_in_app in Hs. apply andb_true_iff in Hs. destruct Hs as [_ Hl].
  cbn [all_in] in Hl. rewrite andb_true_r in Hl.
  unfold endswith. rewrite <- str_app_assoc, str_length_app.
  cbn [String.length].
  replace (String.length (pre ++ s') + 1 - 1)%nat with (String.length (pre ++ s')) by lia.
  rewrite drop_app.
  destruct (String.eqb_spec (String l "") (String qc "")) as [E' | _].
  - injection E' as ->. congruence.
  - apply andb_false_r.
Qed.

(** *** clean *)

Lemma clean_quoted : forall qc c q sp,
  (qc = dquote \/ qc = squote) ->
  all_in blank sp = true ->
  clean (String qc "" ++ String c q ++ String qc "" ++ sp) = String c q.
Proof.
  intros qc c q sp Hqc Hsp. unfold clean, strip.
  assert (Hns : isspace qc = false) by (destruct Hqc as [-> | ->]; reflexivity).
  cbn [append]. rewrite lstrip_head by exact Hns.
  change (String qc (String c (q ++ String qc sp)))
    with (String qc (String c q ++ String qc "" ++ sp)).
  replace (String qc (String c q ++ String qc "" ++ sp))
    with ((String qc (String c q) ++ String qc "") ++ sp)
    by (cbn [append]; rewrite !str_app_assoc; reflexivity).
  rewrite rstrip_app_spaces by (apply all_blank_isspace; exact Hsp).
  rewrite !rstrip_end by exact Hns.
  assert (Hwrap : startswith (String qc "") (String qc (String c q) ++ String qc "") = true
                  /\ endswith (String qc "") (String qc (String c q) ++ String qc "") = true).
  { split; [apply prefix_one_eq | apply endswith_app]. }
  destruct Hwrap as [Hs He].
  assert (Hslice : slice_1_m1 (String qc (String c q) ++ String qc "") = String c q).
  { unfold slice_1_m1. cbn [append drop String.length].
    rewrite str_length_app. cbn [String.length].
    replace (S (S (String.length q + 1)) - 2)%nat with (String.length (String c q))
      by (cbn [String.length]; lia).
    apply (take_app (String c q) (String qc "")). }
  destruct Hqc as [-> | ->]; unfold DQ, SQ.
  - rewrite Hs, He. cbn [andb orb]. exact Hslice.
  - rewrite Hs, He. cbn [andb]. rewrite orb_true_r. exact Hslice.
Qed.

Lemma clean_plain : forall c w sp,
  c <> dquote -> c <> squote ->
  all_in MessagePattern.nonspace (String c w) = true ->
  all_in blank sp = true ->
  clean (String c w ++ sp) = String c w.
Proof.
  intros c w sp Hdq Hsq Hw Hsp. unfold clean, strip.
  assert (Hc : isspace c = false).
  { cbn [all_in] in Hw. apply andb_true_iff in Hw. destruct Hw as [Hc _].
    unfold MessagePattern.nonspace in Hc. apply negb_true_iff in Hc. exact Hc. }
  cbn [append]. rewrite lstrip_head by exact Hc.
  change (String c (w ++ sp)) with (String c w ++ sp).
  rewrite rstrip_app_spaces by (apply all_blank_isspace; exact Hsp).
  rewrite (rstrip_nonspace _ Hw), (rstrip_nonspace _ Hw).
  unfold DQ, SQ, startswith. rewrite !prefix_one_ne by congruence.
  reflexivity.
Qed.

Lemma clean_unterminated : forall qc c w sp,
  (qc = dquote \/ qc = squote) ->
  all_in MessagePattern.nonspace (String c w) = true ->
  all_in (fun x => negb (Ascii.eqb x qc)) (String c w) = true ->
  all_in blank sp = true ->
  clean (String qc (String c w) ++ sp) = String qc (String c w).
Proof.
  intros qc c w sp Hqc Hw Hnq Hsp. unfold clean, strip.
  assert (Hns : isspace qc = false) by (destruct Hqc as [-> | ->]; reflexivity).
  cbn [append]. rewrite lstrip_head by exact Hns.
  change (String qc (String c (w ++ sp))) with (String qc (String c w) ++ sp).
  rewrite rstrip_app_spaces by (apply all_blank_isspace; exact Hsp).
  assert (Hall : all_in MessagePattern.nonspace (String qc (String c w)) = true).
  { cbn [all_in] in *. unfold MessagePattern.nonspace at 1. rewrite Hns. exact Hw. }
  rewrite (rstrip_nonspace _ Hall), (rstrip_nonspace _ Hall).
  assert (Hend : endswith (String qc "") (String qc (String c w)) = false).
  { apply (endswith_quote_false qc (fun x => negb (Ascii.eqb x qc)) (String c w)
             (eq_trans (f_equal negb (Ascii.eqb_refl qc)) eq_refl) Hnq
             ltac:(discriminate) (String qc "")). }
  destruct Hqc as [-> | ->]; unfold DQ, SQ, startswith.
  - rewrite Hend, andb_false_r. rewrite prefix_one_ne by discriminate. reflexivity.
  - rewrite Hend, andb_false_r. rewrite prefix_one_ne by discriminate. reflexivity.
Qed.

(** *** parse, token by token *)

Lemma parse_blank : forall s, parse (String " " s) = parse s.
Proof.
  intros s. unfold parse. rewrite findall_no_match by apply match_blank. reflexivity.
Qed.

Lemma parse_word : forall c w sp rest,
  (c = dquote -> all_in not_dquote (w ++ sp ++ rest) = true) ->
  (c = squote -> all_in not_squote (w ++ sp ++ rest) = true) ->
  all_in not_blank (String c w) = true ->
  all_in blank sp = true ->
  stops not_blank (sp ++ rest) ->
  stops blank rest ->
  parse (String c w ++ sp ++ rest) = clean (String c w ++ sp) :: parse rest.
Proof.
  intros c w sp rest Hdq Hsq Hw Hsp H1 H2. unfold parse.
  pose proof (match_word c w sp rest Hdq Hsq Hw Hsp H1 H2) as Hm.
  rewrite <- str_app_assoc in Hm |- *.
  change (String c w ++ sp) with (String c (w ++ sp)) in Hm |- * at 1.
  rewrite (findall_match _ _ _ _ _ Hm). reflexivity.
Qed.

Lemma parse_dquoted : forall c q sp rest,
  all_in not_dquote (String c q) = true ->
  all_in blank sp = true ->
  stops blank rest ->
  parse (DQ ++ String c q ++ DQ ++ sp ++ rest) = String c q :: parse rest.
Proof.
  intros c q sp rest Hq Hsp Hstop. unfold parse.
  pose proof (match_dquoted c q sp rest Hq Hsp Hstop) as Hm.
  replace (DQ ++ String c q ++ DQ ++ sp ++ rest)
    with (String dquote (String c q ++ DQ ++ sp) ++ rest) in Hm |- *
    by (unfold DQ; cbn [append]; rewrite !str_app_assoc; reflexivity).
  rewrite (findall_match _ _ _ _ _ Hm). cbn [map]. f_equal.
  cbn [group_or_empty group String.eqb Ascii.eqb Bool.eqb].
  apply (clean_quoted dquote c q sp); [left; reflexivity | exact Hsp].
Qed.

Lemma parse_squoted : forall c q sp rest,
  all_in not_squote (String c q) = true ->
  all_in blank sp = true ->
  stops blank rest ->
  parse (SQ ++ String c q ++ SQ ++ sp ++ rest) = String c q :: parse rest.
Proof.
  intros c q sp rest Hq Hsp Hstop. unfold parse.
  pose proof (match_squoted c q sp rest Hq Hsp Hstop) as Hm.
  replace (SQ ++ String c q ++ SQ ++ sp ++ rest)
    with (String squote (String c q ++ SQ ++ sp) ++ rest) in Hm |- *
    by (unfold SQ; cbn [append]; rewrite !str_app_assoc; reflexivity).
  rewrite (findall_match _ _ _ _ _ Hm). cbn [map]. f_equal.
  cbn [group_or_empty group String.eqb Ascii.eqb Bool.eqb].
  apply (clean_quoted squote c q sp); [right; reflexivity | exact Hsp].
Qed.

Lemma plain_word_inv : forall w,
  plain_word w = true ->
  exists c w', w = String c w' /\ c <> dquote /\ c <> squote
               /\ all_in MessagePattern.nonspace (String c w') = true.
Proof.
  intros [| c w'] H; [discriminate |]. cbn [plain_word] in H.
  apply andb_true_iff in H. destruct H as [H Hall].
  apply andb_true_iff in H. destruct H as [Hd Hs].
  apply negb_true_iff in Hd, Hs.
  exists c, w'. repeat split.
  - intros ->. rewrite Ascii.eqb_refl in Hd. discriminate.
  - intros ->. rewrite Ascii.eqb_refl in Hs. discriminate.
  - exact Hall.
Qed.

Lemma parse_plain : forall c w sp rest,
  c <> dquote -> c <> squote ->
  all_in MessagePattern.nonspace (String c w) = true ->
  all_in blank sp = true ->
  stops not_blank (sp ++ rest) ->
  stops blank rest ->
  parse (String c w ++ sp ++ rest) = String c w :: parse rest.
Proof.
  intros c w sp rest Hdq Hsq Hw Hsp H1 H2.
  rewrite parse_word; try assumption; try congruence.
  - rewrite clean_plain by assumption. reflexivity.
  - apply all_nonspace_not_blank. exact Hw.
Qed.

Lemma parse_unterminated : forall qc c w sp rest,
  (qc = dquote \/ qc = squote) ->
  all_in MessagePattern.nonspace (String c w) = true ->
  all_in (fun x => negb (Ascii.eqb x qc)) (String c w ++ sp ++ rest) = true ->
  all_in blank sp = true ->
  stops not_blank (sp ++ rest) ->
  stops blank rest ->
  parse (String qc (String c w) ++ sp ++ rest) = String qc (String c w) :: parse rest.
Proof.
  intros qc c w sp rest Hqc Hw Hnq Hsp H1 H2.
  assert (Hhead : all_in (fun x => negb (Ascii.eqb x qc)) (String c w) = true).
  { rewrite all_in_app in Hnq. apply andb_true_iff in Hnq. tauto. }
  assert (Hnb : all_in not_blank (String qc (String c w)) = true).
  { change (all_in not_blank (String qc (String c w)))
      with (not_blank qc && all_in not_blank (String c w)).
    rewrite (all_nonspace_not_blank _ Hw).
    destruct Hqc as [-> | ->]; reflexivity. }
  rewrite parse_word; try assumption.
  - rewrite (clean_unterminated qc c w sp Hqc Hw Hhead Hsp). reflexivity.
  - intros ->. exact Hnq.
  - intros ->. exact Hnq.
Qed.

Lemma join_blank_head : forall w ws,
  plain_word w = true -> stops blank (join_blank (w :: ws)).
Proof.
  intros w ws H. destruct (plain_word_inv w H) as [c [w' [-> [_ [_ Hall]]]]].
  assert (blank c = false) as Hb.
  { cbn [all_in] in Hall. apply andb_true_iff in Hall. destruct Hall as [Hc _].
    apply nonspace_not_blank in Hc. unfold not_blank in Hc.
    apply negb_true_iff in Hc. exact Hc. }
  destruct ws; cbn [join_blank append stops]; exact Hb.
Qed.

(** Plain words joined by one blank come back as they were. *)
Lemma parse_join_blank : forall ws,
  Forall (fun w => plain_word w = true) ws -> parse (join_blank ws) = ws.
Proof.
  induction ws as [| w ws IH]; intros H; [reflexivity |].
  inversion H as [| w0 ws0 Hw Hws]; subst.
  destruct (plain_word_inv w Hw) as [c [w' [-> [Hdq [Hsq Hall]]]]].
  destruct ws as [| w2 ws].
  - cbn [join_blank].
    transitivity (parse (String c w' ++ "" ++ "")).
    + f_equal. symmetry. apply (str_app_nil_r (String c w')).
    + rewrite parse_plain; try assumption; try reflexivity; exact I.
  - change (join_blank (String c w' :: w2 :: ws))
      with (String c w' ++ " " ++ join_blank (w2 :: ws)).
    rewrite parse_plain; try assumption; try reflexivity.
    + rewrite (IH Hws). reflexivity.
    + apply join_blank_head. inversion Hws; assumption.
Qed.

(** *** Tokens that hold whitespace other than the blank *)

Lemma rstrip_idem : forall s, rstrip (rstrip s) = rstrip s.
Proof.
  induction s as [| c s IH]; [reflexivity |].
  cbn [rstrip]. destruct (rstrip s) as [| a r] eqn:E.
  - destruct (isspace c) eqn:Ec; [reflexivity |]. cbn [rstrip]. rewrite Ec. reflexivity.
  - cbn [rstrip] in IH |- *. rewrite IH. reflexivity.
Qed.

Lemma lstrip_spaces : forall sp, all_in isspace sp = true -> lstrip sp = "".
Proof.
  induction sp as [| c sp IH]; cbn [all_in lstrip]; [reflexivity |].
  intros H. apply andb_true_iff in H. destruct H as [Hc Hsp].
  rewrite Hc. exact (IH Hsp).
Qed.

(** The blanks that the match took after the token go with the strip, and
    the second strip finds nothing more. *)
Lemma strip_app_blanks : forall w sp,
  all_in isspace sp = true -> rstrip (strip (w ++ sp)) = strip w.
Proof.
  intros w sp Hsp. unfold strip. rewrite rstrip_idem.
  induction w as [| c w IH]; cbn [append lstrip].
  - rewrite (lstrip_spaces sp Hsp). reflexivity.
  - destruct (isspace c); [exact IH |].
    change (String c (w ++ sp)) with (String c w ++ sp).
    apply rstrip_app_spaces. exact Hsp.
Qed.

Lemma clean_unquote : forall w sp,
  all_in blank sp = true -> clean (w ++ sp) = unquote (strip w).
Proof.
  intros w sp Hsp. unfold clean, unquote.
  rewrite (strip_app_blanks w sp (all_blank_isspace sp Hsp)). reflexivity.
Qed.

Lemma lstrip_decompose : forall w,
  exists l, w = l ++ lstrip w /\ all_in isspace l = true.
Proof.
  induction w as [| c w [l [Hw Hl]]].
  - exists "". split; reflexivity.
  - cbn [lstrip]. destruct (isspace c) eqn:Ec.
    + exists (String c l). cbn [append all_in]. rewrite Ec, Hl, <- Hw.
      split; reflexivity.
    + exists "". split; reflexivity.
Qed.

Lemma rstrip_decompose : forall s,
  exists r, s = rstrip s ++ r /\ all_in isspace r = true.
Proof.
  induction s as [| c s [r [Hs Hr]]].
  - exists "". split; reflexivity.
  - cbn [rstrip]. destruct (rstrip s) as [| a t] eqn:E.
    + cbn [append] in Hs. subst r.
      destruct (isspace c) eqn:Ec.
      * exists (String c s). cbn [append all_in]. rewrite Ec, Hr. split; reflexivity.
      * exists s. split; [reflexivity | exact Hr].
    + exists r. split; [| exact Hr]. cbn [append] in *. rewrite <- Hs. reflexivity.
Qed.

Lemma rstrip_last : forall w c,
  isspace (last_char c w) = false -> rstrip (String c w) = String c w.
Proof.
  induction w as [| d w IH]; intros c H; cbn [last_char] in H.
  - cbn [rstrip]. rewrite H. reflexivity.
  - change (rstrip (String c (String d w)))
      with (match rstrip (String d w) with
            | EmptyString => if isspace c then EmptyString else String c EmptyString
            | r => String c r
            end).
    rewrite (IH d H). reflexivity.
Qed.

Lemma rstrip_ends : forall s c t,
  rstrip s = String c t -> isspace (last_char c t) = false.
Proof.
  induction s as [| a s IH]; intros c t H; [discriminate |].
  cbn [rstrip] in H. destruct (rstrip s) as [| b r] eqn:E.
  - destruct (isspace a) eqn:Ea; [discriminate |].
    injection H as <- <-. exact Ea.
  - injection H as <- <-. cbn [last_char]. exact (IH b r eq_refl).
Qed.

Lemma rstrip_head : forall s c t,
  rstrip s = String c t -> exists s', s = String c s'.
Proof.
  intros [| a s] c t H; [discriminate |].
  cbn [rstrip] in H. destruct (rstrip s) as [| b r].
  - destruct (isspace a); [discriminate |]. injection H as <- _. exists s. reflexivity.
  - injection H as <- _. exists s. reflexivity.
Qed.

Lemma lstrip_head_nonspace : forall w c s,
  lstrip w = String c s -> isspace c = false.
Proof.
  induction w as [| a w IH]; intros c s H; [discriminate |].
  cbn [lstrip] in H. destruct (isspace a) eqn:Ea; [exact (IH c s H) |].
  injection H as <- _. exact Ea.
Qed.

(** [strip] takes whitespace from the two ends of a text and nothing
    else. *)
Lemma strip_decompose : forall w,
  (exists l r,
     w = l ++ strip w ++ r
     /\ all_in isspace l = true /\ all_in isspace r = true)
  /\ (forall c t,
        strip w = String c t ->
        isspace c = false /\ isspace (last_char c t) = false).
Proof.
  intros w. unfold strip. split.
  - destruct (lstrip_decompose w) as [l [Hw Hl]].
    destruct (rstrip_decompose (lstrip w)) as [r [Hs Hr]].
    exists l, r. split; [| split; assumption].
    rewrite <- Hs. exact Hw.
  - intros c t H. split; [| exact (rstrip_ends _ _ _ H)].
    destruct (rstrip_head _ _ _ H) as [s' Hs']. exact (lstrip_head_nonspace _ _ _ Hs').
Qed.

Lemma strip_kept : forall c w,
  isspace c = false -> isspace (last_char c w) = false ->
  strip (String c w) = String c w.
Proof.
  intros c w Hc Hl. unfold strip. rewrite (lstrip_head c w Hc). apply rstrip_last. exact Hl.
Qed.

Lemma unquote_plain : forall c w,
  c <> dquote -> c <> squote -> unquote (String c w) = String c w.
Proof.
  intros c w Hdq Hsq. unfold unquote, DQ, SQ, startswith.
  rewrite !prefix_one_ne by congruence. reflexivity.
Qed.

(** A run without blanks is one token: the run, stripped at its two ends,
    without its quotes when it is left wrapped in them. *)
Lemma parse_token : forall c w sp rest,
  (c = dquote -> all_in not_dquote (w ++ sp ++ rest) = true) ->
  (c = squote -> all_in not_squote (w ++ sp ++ rest) = true) ->
  all_in not_blank (String c w) = true ->
  all_in blank sp = true ->
  stops not_blank (sp ++ rest) ->
  stops blank rest ->
  parse (String c w ++ sp ++ rest) = unquote (strip (String c w)) :: parse rest.
Proof.
  intros c w sp rest Hdq Hsq Hw Hsp H1 H2.
  rewrite (parse_word c w sp rest Hdq Hsq Hw Hsp H1 H2).
  rewrite (clean_unquote (String c w) sp Hsp). reflexivity.
Qed.

Lemma kept_word_inv : forall w,
  kept_word w = true ->
  exists c w', w = String c w' /\ c <> dquote /\ c <> squote
               /\ all_in not_blank (String c w') = true
               /\ isspace c = false /\ isspace (last_char c w') = false.
Proof.
  intros [| c w'] H; [discriminate |]. cbn [kept_word] in H.
  repeat (apply andb_true_iff in H; destruct H as [H ?]).
  repeat match goal with
         | Hx : negb _ = true |- _ => apply negb_true_iff in Hx
         end.
  exists c, w'. repeat split; try assumption.
  - intros ->. rewrite Ascii.eqb_refl in H. discriminate.
  - intros ->. match goal with
               | Hx : Ascii.eqb squote squote = false |- _ =>
                   rewrite Ascii.eqb_refl in Hx; discriminate
               end.
Qed.

(** A token without whitespace at its ends that does not begin with a
    quote is kept as it is, with the whitespace it holds inside. *)
Lemma parse_kept : forall c w sp rest,
  c <> dquote -> c <> squote ->
  all_in not_blank (String c w) = true ->
  isspace c = false -> isspace (last_char c w) = false ->
  all_in blank sp = true ->
  stops not_blank (sp ++ rest) ->
  stops blank rest ->
  parse (String c w ++ sp ++ rest) = String c w :: parse rest.
Proof.
  intros c w sp rest Hdq Hsq Hw Hc Hl Hsp H1 H2.
  rewrite parse_token; try assumption; try congruence.
  rewrite (strip_kept c w Hc Hl), (unquote_plain c w Hdq Hsq). reflexivity.
Qed.

Lemma join_blank_head_kept : forall w ws,
  kept_word w = true -> stops blank (join_blank (w :: ws)).
Proof.
  intros w ws H. destruct (kept_word_inv w H) as [c [w' [-> [_ [_ [Hall _]]]]]].
  assert (blank c = false) as Hb.
  { cbn [all_in] in Hall. apply andb_true_iff in Hall. destruct Hall as [Hc _].
    unfold not_blank in Hc. apply negb_true_iff in Hc. exact Hc. }
  destruct ws; cbn [join_blank append stops]; exact Hb.
Qed.

(** Such tokens joined by one blank come back as they were. *)
Lemma parse_join_kept : forall ws,
  Forall (fun w => kept_word w = true) ws -> parse (join_blank ws) = ws.
Proof.
  induction ws as [| w ws IH]; intros H; [reflexivity |].
  inversion H as [| w0 ws0 Hw Hws]; subst.
  destruct (kept_word_inv w Hw) as [c [w' [-> [Hdq [Hsq [Hall [Hc Hl]]]]]]].
  destruct ws as [| w2 ws].
  - cbn [join_blank].
    transitivity (parse (String c w' ++ "" ++ "")).
    + f_equal. symmetry. apply (str_app_nil_r (String c w')).
    + rewrite parse_kept; try assumption; try reflexivity; exact I.
  - change (join_blank (String c w' :: w2 :: ws))
      with (String c w' ++ " " ++ join_blank (w2 :: ws)).
    rewrite parse_kept; try assumption; try reflexivity.
    + rewrite (IH Hws). reflexivity.
    + apply join_blank_head_kept. inversion Hws; assumption.
Qed.

End ParseFacts.

(** C9 as stated fails on whitespace other than the blank: the text
    cmd a<TAB>b has no quote and its one token after the command holds a
    tab, so the tokens are not what whitespace delimits. *)
Lemma C9_tab_counterexample :
  ~ (forall text : string,
       all_in (fun c => Parse.not_dquote c && Parse.not_squote c) text = true ->
       Forall (fun tok => all_in MessagePattern.nonspace tok = true)
              (tl (Parse.parse text))).
Proof.
  intros H.
  specialize (H ("cmd a" ++ String PyStr.TAB "b") eq_refl).
  vm_compute in H.
  inversion H as [| tok toks Htok Htoks]. discriminate Htok.
Qed.

(** C9, amended.  [parse] reads the text from the left; blanks before a
    token are skipped.  A run between double quotes, or between single
    quotes, that is not empty and starts a token is one token with the
    quotes stripped, whatever it holds.  Any other token runs up to the
    next blank: a tab or another whitespace character does not end it.
    The token is that run with the whitespace at its two ends stripped,
    and nothing else of it, and without its quotes when it is left wrapped
    in two quotes of one kind.  So a token that has no whitespace at its
    ends and does not begin with a quote is kept as it is, with the tabs
    it may hold inside, and so is a token that begins with a quote which
    nothing closes in the rest of the text and that has more characters
    than the quote.  [Bot.start] drops the first token: such words joined
    by blanks give the words after the first, and the text cmd "a b" c
    gives a b and c. *)
Theorem C9_parse_tokens :
  tl (Parse.parse ("cmd " ++ Parse.DQ ++ "a b" ++ Parse.DQ ++ " c")) = ["a b"; "c"]
  /\ (forall s : string, Parse.parse (String " " s) = Parse.parse s)
  /\ (forall (c : ascii) (q sp rest : string),
        all_in Parse.not_dquote (String c q) = true ->
        all_in Parse.blank sp = true ->
        stops Parse.blank rest ->
        Parse.parse (Parse.DQ ++ String c q ++ Parse.DQ ++ sp ++ rest)
        = String c q :: Parse.parse rest)
  /\ (forall (c : ascii) (q sp rest : string),
        all_in Parse.not_squote (String c q) = true ->
        all_in Parse.blank sp = true ->
        stops Parse.blank rest ->
        Parse.parse (Parse.SQ ++ String c q ++ Parse.SQ ++ sp ++ rest)
        = String c q :: Parse.parse rest)
  /\ (forall (c : ascii) (w sp rest : string),
        c <> PyStr.dquote -> c <> PyStr.squote ->
        all_in MessagePattern.nonspace (String c w) = true ->
        all_in Parse.blank sp = true ->
        stops Parse.not_blank (sp ++ rest) ->
        stops Parse.blank rest ->
        Parse.parse (String c w ++ sp ++ rest) = String c w :: Parse.parse rest)
  /\ (forall (qc c : ascii) (w sp rest : string),
        qc = PyStr.dquote \/ qc = PyStr.squote ->
        all_in MessagePattern.nonspace (String c w) = true ->
        all_in (fun x => negb (Ascii.eqb x qc)) (String c w ++ sp ++ rest) = true ->
        all_in Parse.blank sp = true ->
        stops Parse.not_blank (sp ++ rest) ->
        stops Parse.blank rest ->
        Parse.parse (String qc (String c w) ++ sp ++ rest)
        = String qc (String c w) :: Parse.parse rest)
  /\ (forall (cmd : string) (args : list string),
        Forall (fun w => plain_word w = true) (cmd :: args) ->
        tl (Parse.parse (join_blank (cmd :: args))) = args)
  /\ (forall (c : ascii) (w sp rest : string),
        (c = PyStr.dquote -> all_in Parse.not_dquote (w ++ sp ++ rest) = true) ->
        (c = PyStr.squote -> all_in Parse.not_squote (w ++ sp ++ rest) = true) ->
        all_in Parse.not_blank (String c w) = true ->
        all_in Parse.blank sp = true ->
        stops Parse.not_blank (sp ++ rest) ->
        stops Parse.blank rest ->
        Parse.parse (String c w ++ sp ++ rest)
        = unquote (PyStr.strip (String c w)) :: Parse.parse rest)
  /\ (forall w : string,
        (exists l r,
           w = l ++ PyStr.strip w ++ r
           /\ all_in PyStr.isspace l = true /\ all_in PyStr.isspace r = true)
        /\ (forall c t,
              PyStr.strip w = String c t ->
              PyStr.isspace c = false /\ PyStr.isspace (last_char c t) = false))
  /\ (forall (c : ascii) (w sp rest : string),
        c <> PyStr.dquote -> c <> PyStr.squote ->
        all_in Parse.not_blank (String c w) = true ->
        PyStr.isspace c = false -> PyStr.isspace (last_char c w) = false ->
        all_in Parse.blank sp = true ->
        stops Parse.not_blank (sp ++ rest) ->
        stops Parse.blank rest ->
        Parse.parse (String c w ++ sp ++ rest) = String c w :: Parse.parse rest)
  /\ (forall (cmd : string) (args : list string),
        Forall (fun w => kept_word w = true) (cmd :: args) ->
        tl (Parse.parse (join_blank (cmd :: args))) = args).
Proof.
  split; [reflexivity |].
  split; [apply parse_blank |].
  split; [apply parse_dquoted |].
  split; [apply parse_squoted |].
  split; [apply parse_plain |].
  split; [apply parse_unterminated |].
  split; [intros cmd args H; rewrite (parse_join_blank _ H); reflexivity |].
  split; [apply parse_token |].
  split; [apply strip_decompose |].
  split; [apply parse_kept |].
  intros cmd args H. rewrite (parse_join_kept _ H). reflexivity.
Qed.

Lemma C9_parse_tokens_witness :
  Parse.parse (Parse.DQ ++ String "a" " b" ++ Parse.DQ ++ " " ++ "c")
  = String "a" " b" :: Parse.parse "c"
  /\ Parse.parse (String "a" (String PyStr.TAB "b") ++ " " ++ "c")
     = String "a" (String PyStr.TAB "b") :: Parse.parse "c"
  /\ Parse.parse (String PyStr.TAB (String "a" (String PyStr.TAB "")) ++ " " ++ "c")
     = unquote (PyStr.strip (String PyStr.TAB (String "a" (String PyStr.TAB ""))))
       :: Parse.parse "c"
  /\ Parse.parse (String PyStr.dquote (String "a" "bc") ++ " " ++ "d")
     = String PyStr.dquote (String "a" "bc") :: Parse.parse "d"
  /\ tl (Parse.parse (join_blank ["!add"; "5"; "it's"; String "a" (String PyStr.TAB "b")]))
     = ["5"; "it's"; String "a" (String PyStr.TAB "b")].
Proof.
  split; [| split; [| split; [| split]]].
  - apply (proj1 (proj2 (proj2 C9_parse_tokens))); [reflexivity | reflexivity | reflexivity].
  - apply (proj1 (proj2 (proj2 (proj2 (proj2 (proj2 (proj2 (proj2 (proj2
             (proj2 C9_parse_tokens)))))))))); try discriminate; reflexivity.
  - apply (proj1 (proj2 (proj2 (proj2 (proj2 (proj2 (proj2 (proj2 C9_parse_tokens))))))));
      try discriminate; reflexivity.
  - apply (proj1 (proj2 (proj2 (proj2 (proj2 (proj2 C9_parse_tokens))))));
      [left; reflexivity | reflexivity | reflexivity | reflexivity | reflexivity | reflexivity].
  - apply (proj2 (proj2 (proj2 (proj2 (proj2 (proj2 (proj2 (proj2 (proj2
             (proj2 C9_parse_tokens)))))))))).
    repeat constructor.
Defined.

(** Whitespace other than the blank: kept inside a token, stripped at its
    ends, and never the end of a token. *)
Example parse_tabs :
  Parse.parse ("cmd a" ++ String PyStr.TAB "b " ++ String PyStr.TAB ("c" ++ String PyStr.TAB " d"))
  = ["cmd"; "a" ++ String PyStr.TAB "b"; "c"; "d"].
Proof. reflexivity. Qed.

(** A token made of one quote character comes out empty. *)
Example parse_lone_quote :
  tl (Parse.parse ("cmd " ++ Parse.DQ)) = [""].
Proof. reflexivity. Qed.

(** A token follows a quoted run without a blank between them, and a quote
    inside a token does not open a quoted run. *)
Example parse_adjacent :
  Parse.parse ("cmd " ++ Parse.DQ ++ "a b" ++ Parse.DQ ++ "c x" ++ Parse.DQ ++ "y z" ++ Parse.DQ)
  = ["cmd"; "a b"; "c"; "x" ++ Parse.DQ ++ "y"; "z" ++ Parse.DQ].
Proof. reflexivity. Qed.

(** ** The main loop *)

Section MainLoopFacts.
Import Dispatch.

Lemma receive_in_shorter : forall q message q',
  IRC.receive_in q = Some (message, q') -> (List.length q' < List.length q)%nat.
Proof.
  induction q as [| line q IH]; intros message q' H; cbn [IRC.receive_in] in H;
    [discriminate |].
  destruct (PyStr.contains " PRIVMSG " line).
  - injection H as _ <-. cbn. lia.
  - specialize (IH _ _ H). cbn. lia.
Qed.

(** A part of the bot that [Bot.send] does not touch and the handlers
    leave alone is the same after a dispatch, however it ends. *)
Lemma invoke_keeps : forall (A : Type) (part : Bot -> A) call b message cb args,
  keeps part call ->
  part (fst (fst (invoke call b message cb args))) = part b.
Proof.
  intros A part call b message cb args Hk. unfold invoke, Command_call.
  specialize (Hk (func cb) b message args).
  destruct (call (func cb) b message args) as [b' [u | e]]; exact Hk.
Qed.

Lemma run_callback_keeps : forall (A : Type) (part : Bot -> A) call b message cb,
  (forall b0 target text0, part (Bot_send b0 target text0) = part b0) ->
  keeps part call ->
  part (fst (fst (run_callback call b message cb))) = part b.
Proof.
  intros A part call b message cb Hsend Hk. unfold run_callback.
  destruct (all_events b message cb) as [[|] | e]; try reflexivity.
  destruct (cmnd_type cb =? 0)%Z; [apply invoke_keeps; exact Hk |].
  destruct (cmnd_type cb =? 1)%Z; [| reflexivity].
  destruct (check_args (func cb) (tl (Parse.parse (text message)))) as [[args |] | e];
    [apply invoke_keeps; exact Hk | apply Hsend | reflexivity].
Qed.

Lemma loop_keeps : forall (A : Type) (part : Bot -> A) call keys0 message,
  (forall b0 target text0, part (Bot_send b0 target text0) = part b0) ->
  keeps part call ->
  forall todo b done,
    part (fst (fst (loop call keys0 message todo b done))) = part b.
Proof.
  intros A part call keys0 message Hsend Hk.
  induction todo as [| todo IH]; intros b done; cbn [loop];
    destruct (negb (same_keys (Dict.keys (callbacks b)) keys0)); try reflexivity.
  destruct (nth_error (Dict.values (callbacks b)) (List.length keys0 - S todo))
    as [cb |]; [| reflexivity].
  pose proof (run_callback_keeps A part call b message cb Hsend Hk) as H1.
  destruct (run_callback call b message cb) as [[b' acts] [e |]]; cbn [fst] in *;
    [exact H1 |].
  rewrite IH. exact H1.
Qed.

Lemma dispatch_keeps : forall (A : Type) (part : Bot -> A) call b message,
  (forall b0 target text0, part (Bot_send b0 target text0) = part b0) ->
  keeps part call ->
  part (fst (fst (dispatch call b message))) = part b.
Proof.
  intros A part call b message Hsend Hk. unfold dispatch. apply loop_keeps; assumption.
Qed.

(** A turn of the loop on a bot that holds a [History] object: the message
    is recorded, then dispatched. *)
Lemma start_iteration_with_history : forall call b h h' message q',
  IRC.receive_in (IRC.inbox (irc b)) = Some (message, q') ->
  history b = HistoryObj h ->
  History.add h message = Ok h' ->
  start_iteration call b
  = match dispatch call
            (with_history (with_irc b (IRC.with_inbox (irc b) q')) (HistoryObj h'))
            message with
    | (b2, acts, None) => (b2, acts, Returned tt)
    | (b2, acts, Some e) => (b2, acts, Raised e)
    end.
Proof.
  intros call b h h' message q' Hrecv Hhist Hadd.
  unfold start_iteration, IRC.receive. rewrite Hrecv.
  cbn [with_irc history]. rewrite Hhist, Hadd. reflexivity.
Qed.

(** A loop that has ended, blocked or on an exception, has not ended for
    want of fuel: more fuel gives the same result. *)
Lemma mainloop_fuel : forall call fuel b done extra,
  snd (mainloop call fuel b done) <> Returned tt ->
  mainloop call (fuel + extra) b done = mainloop call fuel b done.
Proof.
  intros call. induction fuel as [| fuel IH]; intros b done extra Hend.
  - cbn [mainloop snd] in Hend. congruence.
  - cbn [Nat.add mainloop] in *.
    destruct (start_iteration call b) as [[b' acts] [u | e |]]; try reflexivity.
    apply IH. exact Hend.
Qed.

End MainLoopFacts.

(* ================================================================= *)
(** * Further properties of irc.py *)

Section QueueFacts.
Import PyStr.

(** The lines of [q] that come before the first one satisfying [cond]. *)
Lemma waitfor_in_some : forall cond q msg q',
  IRC.waitfor_in cond q = Some (msg, q') ->
  cond msg = true
  /\ exists pre,
       q = (pre ++ msg :: q')%list
       /\ forallb (fun l => negb (cond l)) pre = true.
Proof.
  intros cond q. induction q as [| l q IH]; intros msg q' H; cbn [IRC.waitfor_in] in H;
    [discriminate |].
  destruct (cond l) eqn:E.
  - injection H as <- <-. split; [exact E |]. exists []. split; reflexivity.
  - destruct (IH _ _ H) as [Hc [pre [-> Hpre]]]. split; [exact Hc |].
    exists (l :: pre). split; [reflexivity |].
    cbn [forallb]. rewrite E, Hpre. reflexivity.
Qed.

Lemma waitfor_in_none : forall cond q,
  IRC.waitfor_in cond q = None -> forallb (fun l => negb (cond l)) q = true.
Proof.
  intros cond q. induction q as [| l q IH]; intros H; cbn [IRC.waitfor_in] in H;
    [reflexivity |].
  destruct (cond l) eqn:E; [discriminate |].
  cbn [forallb]. rewrite E, (IH H). reflexivity.
Qed.

Lemma waitfor_in_found : forall cond pre msg q',
  forallb (fun l => negb (cond l)) pre = true ->
  cond msg = true ->
  IRC.waitfor_in cond (pre ++ msg :: q')%list = Some (msg, q').
Proof.
  intros cond pre msg q' Hpre Hmsg. induction pre as [| l pre IH]; cbn [app IRC.waitfor_in].
  - rewrite Hmsg. reflexivity.
  - cbn [forallb] in Hpre. apply andb_true_iff in Hpre. destruct Hpre as [Hl Hpre].
    apply negb_true_iff in Hl. rewrite Hl. exact (IH Hpre).
Qed.

Lemma waitfor_in_absent : forall cond q,
  forallb (fun l => negb (cond l)) q = true -> IRC.waitfor_in cond q = None.
Proof.
  intros cond q. induction q as [| l q IH]; intros H; cbn [IRC.waitfor_in]; [reflexivity |].
  cbn [forallb] in H. apply andb_true_iff in H. destruct H as [Hl Hq].
  apply negb_true_iff in Hl. rewrite Hl. exact (IH Hq).
Qed.

Lemma receive_in_waitfor : forall q,
  IRC.receive_in q
  = match IRC.waitfor_in (contains " PRIVMSG ") q with
    | Some (line, q') => Some (Message_init line, q')
    | None => None
    end.
Proof.
  induction q as [| l q IH]; cbn [IRC.receive_in IRC.waitfor_in]; [reflexivity |].
  destruct (contains " PRIVMSG " l); [reflexivity | exact IH].
Qed.

End QueueFacts.

(** X1.  [waitfor] returns the first queued line that satisfies the
    condition (not, as its docstring has it, the last line that does not):
    the line returned satisfies it, every line before it fails it and is
    gone from the queue, and what followed it stays queued.  When no queued
    line satisfies the condition the call stays blocked with the queue
    emptied.  Nothing is sent and [connected] keeps its value. *)
Theorem X1_waitfor_first_satisfying :
  forall (st : IRC.t) (condition : string -> bool),
    match IRC.waitfor st condition with
    | (st', Returned msg) =>
        condition msg = true
        /\ (exists pre,
              IRC.inbox st = (pre ++ msg :: IRC.inbox st')%list
              /\ forallb (fun l => negb (condition l)) pre = true)
        /\ IRC.sent st' = IRC.sent st
        /\ IRC.connected st' = IRC.connected st
    | (st', Blocked) =>
        forallb (fun l => negb (condition l)) (IRC.inbox st) = true
        /\ IRC.inbox st' = []
        /\ IRC.sent st' = IRC.sent st
        /\ IRC.connected st' = IRC.connected st
    | (_, Raised _) => False
    end.
Proof.
  intros st condition. unfold IRC.waitfor.
  destruct (IRC.waitfor_in condition (IRC.inbox st)) as [[msg q'] |] eqn:E.
  - destruct (waitfor_in_some _ _ _ _ E) as [Hc Hpre].
    cbn [IRC.with_inbox IRC.inbox IRC.sent IRC.connected].
    repeat split; assumption.
  - cbn [IRC.with_inbox IRC.inbox IRC.sent IRC.connected].
    repeat split. exact (waitfor_in_none _ _ E).
Qed.

(** X2.  [receive] returns the Message built from the first queued line
    that contains [" PRIVMSG "], whatever the parse of that line gave: a
    line the pattern does not match comes back as the Message with three
    empty fields, it is not skipped.  The lines before it are dropped and
    the lines after it stay queued; with no such line the call stays
    blocked. *)
Theorem X2_receive_first_privmsg_line :
  forall st : IRC.t,
    match IRC.receive st with
    | (st', Returned m) =>
        exists pre line,
          IRC.inbox st = (pre ++ line :: IRC.inbox st')%list
          /\ forallb (fun l => negb (PyStr.contains " PRIVMSG " l)) pre = true
          /\ PyStr.contains " PRIVMSG " line = true
          /\ m = Message_init line
          /\ (MessagePattern.search line = None -> m = mkMessage "" "" "")
          /\ IRC.sent st' = IRC.sent st
    | (st', Blocked) =>
        forallb (fun l => negb (PyStr.contains " PRIVMSG " l)) (IRC.inbox st) = true
        /\ IRC.inbox st' = []
    | (_, Raised _) => False
    end.
Proof.
  intros st. unfold IRC.receive. rewrite receive_in_waitfor.
  destruct (IRC.waitfor_in (PyStr.contains " PRIVMSG ") (IRC.inbox st))
    as [[line q'] |] eqn:E.
  - destruct (waitfor_in_some _ _ _ _ E) as [Hc [pre [Hq Hpre]]].
    exists pre, line. cbn [IRC.with_inbox IRC.inbox IRC.sent].
    repeat split; try assumption.
    intros Hnone. unfold Message_init. rewrite Hnone. reflexivity.
  - cbn [IRC.with_inbox IRC.inbox]. split; [exact (waitfor_in_none _ _ E) | reflexivity].
Qed.

(** A line with [" PRIVMSG "] in it that is not a message: it is received
    as the empty Message. *)
Example receive_unparsed_line :
  IRC.receive (IRC.mk true [":srv 001 bot :Welcome"; "NOTICE PRIVMSG x"; ":a PRIVMSG #c :hi"] [])
  = (IRC.mk true [":a PRIVMSG #c :hi"] [], Returned (mkMessage "" "" "")).
Proof. reflexivity. Qed.

(** X3.  Without [auth] the handshake sends USER and NICK and nothing
    else.  It connects exactly when a queued line holds the confirmation:
    the lines up to and including the first such line are consumed,
    whatever they are, and the rest stays queued.  With no such line the
    call stays blocked and [connected] keeps its value. *)
Theorem X3_connexion_without_auth :
  forall (st : IRC.t) (nick : string),
    (forall pre line post,
       IRC.inbox st = (pre ++ line :: post)%list ->
       forallb (fun l => negb (IRC.logged_in l)) pre = true ->
       IRC.logged_in line = true ->
       IRC.connexion st nick []
       = (IRC.mk true post
            (IRC.sent st
             ++ [("USER " ++ nick ++ " * * :" ++ nick ++ PyStr.CRLF)%string;
                 ("NICK " ++ nick ++ PyStr.CRLF)%string])%list,
          Returned tt))
    /\ (forallb (fun l => negb (IRC.logged_in l)) (IRC.inbox st) = true ->
        IRC.connexion st nick []
        = (IRC.mk (IRC.connected st) []
             (IRC.sent st
              ++ [("USER " ++ nick ++ " * * :" ++ nick ++ PyStr.CRLF)%string;
                  ("NICK " ++ nick ++ PyStr.CRLF)%string])%list,
           Blocked)).
Proof.
  intros st nick. split.
  - intros pre line post Hq Hpre Hline.
    unfold IRC.connexion, IRC.connexion_finish, IRC.waitfor.
    cbn [IRC.send IRC.inbox IRC.sent IRC.connected].
    rewrite Hq, (waitfor_in_found _ _ _ _ Hpre Hline).
    unfold IRC.set_connected, IRC.with_inbox, IRC.send.
    cbn [IRC.inbox IRC.sent IRC.connected].
    rewrite <- ?app_assoc, ?str_app_assoc. cbn.
    rewrite ?str_app_assoc. reflexivity.
  - intros Hnone.
    unfold IRC.connexion, IRC.connexion_finish, IRC.waitfor.
    cbn [IRC.send IRC.inbox IRC.sent IRC.connected].
    rewrite (waitfor_in_absent _ _ Hnone).
    unfold IRC.with_inbox, IRC.send.
    cbn [IRC.inbox IRC.sent IRC.connected].
    rewrite <- ?app_assoc, ?str_app_assoc. cbn.
    rewrite ?str_app_assoc. reflexivity.
Qed.

Lemma X3_connexion_without_auth_witness :
  IRC.connexion
    (IRC.mk false [":a PRIVMSG #c :early"; ":srv 900 :You are now logged in"; ":b PRIVMSG #c :late"] [])
    "bot" []
  = (IRC.mk true [":b PRIVMSG #c :late"]
       ([] ++ [("USER " ++ "bot" ++ " * * :" ++ "bot" ++ PyStr.CRLF)%string;
               ("NICK " ++ "bot" ++ PyStr.CRLF)%string])%list,
     Returned tt)
  /\ IRC.connexion (IRC.mk false [":srv 001 bot :Welcome"] []) "bot" []
     = (IRC.mk false []
          ([] ++ [("USER " ++ "bot" ++ " * * :" ++ "bot" ++ PyStr.CRLF)%string;
                  ("NICK " ++ "bot" ++ PyStr.CRLF)%string])%list,
        Blocked).
Proof.
  split.
  - apply (proj1 (X3_connexion_without_auth
                    (IRC.mk false [":a PRIVMSG #c :early";
                                   ":srv 900 :You are now logged in";
                                   ":b PRIVMSG #c :late"] []) "bot")
             [":a PRIVMSG #c :early"] ":srv 900 :You are now logged in"
             [":b PRIVMSG #c :late"]); reflexivity.
  - apply (proj2 (X3_connexion_without_auth
                    (IRC.mk false [":srv 001 bot :Welcome"] []) "bot")).
    reflexivity.
Defined.

(** X4.  One read that carries whole lines, each ended by CR LF, and
    possibly the beginning of another line: the reader takes the lines in
    their order, the unfinished tail as a line of its own.  The lines that
    are not empty and do not start with PING are appended to the inbound
    queue in that order, one PONG line is sent for each line that starts
    with PING, in that order, and [connected] is left alone. *)
Theorem X4_handle_takes_lines_in_order :
  forall (st : IRC.t) (lines : list string) (tail : string),
    forallb (fun l => negb (PyStr.contains PyStr.CRLF l)) lines = true ->
    PyStr.contains PyStr.CRLF tail = false ->
    IRC.handle st (frame lines ++ tail)
    = IRC.mk (IRC.connected st)
        (IRC.inbox st ++ filter enqueued (lines ++ [tail]))%list
        (IRC.sent st
         ++ map pong (filter (PyStr.startswith "PING") (lines ++ [tail])))%list.
Proof.
  intros st lines tail Hl Ht. apply handle_framed_lines; assumption.
Qed.

Lemma X4_handle_takes_lines_in_order_witness :
  IRC.handle (IRC.mk true ["old"] [])
    (frame ["PING :a"; ":srv 001 bot :Welcome"; ""; ":x PRIVMSG #c :hi"] ++ ":y PRIV")
  = IRC.mk (IRC.connected (IRC.mk true ["old"] []))
      (IRC.inbox (IRC.mk true ["old"] [])
       ++ filter enqueued
            (["PING :a"; ":srv 001 bot :Welcome"; ""; ":x PRIVMSG #c :hi"] ++ [":y PRIV"]))%list
      (IRC.sent (IRC.mk true ["old"] [])
       ++ map pong
            (filter (PyStr.startswith "PING")
               (["PING :a"; ":srv 001 bot :Welcome"; ""; ":x PRIVMSG #c :hi"]
                ++ [":y PRIV"])))%list.
Proof.
  apply (X4_handle_takes_lines_in_order (IRC.mk true ["old"] [])
           ["PING :a"; ":srv 001 bot :Welcome"; ""; ":x PRIVMSG #c :hi"] ":y PRIV");
    reflexivity.
Defined.

(** X5.  Whatever the reads bring, the reader never puts an empty line or
    a line that starts with PING on the inbound queue: a queue free of
    such lines stays free of them, and the reader never changes
    [connected]. *)
Theorem X5_inbox_never_holds_ping :
  forall (chunks : list string) (st : IRC.t),
    forallb enqueued (IRC.inbox st) = true ->
    forallb enqueued (IRC.inbox (fold_left IRC.handle chunks st)) = true
    /\ IRC.connected (fold_left IRC.handle chunks st) = IRC.connected st.
Proof.
  induction chunks as [| data chunks IH]; intros st H; cbn [fold_left].
  - split; [exact H | reflexivity].
  - assert (Hstep : forallb enqueued (IRC.inbox (IRC.handle st data)) = true
                    /\ IRC.connected (IRC.handle st data) = IRC.connected st).
    { unfold IRC.handle. rewrite handle_lines. cbn [IRC.inbox IRC.connected].
      rewrite forallb_app, H, filter_enqueued_ok. split; reflexivity. }
    destruct Hstep as [Hin Hc].
    destruct (IH _ Hin) as [IH1 IH2]. split; [exact IH1 | congruence].
Qed.

Lemma X5_inbox_never_holds_ping_witness :
  forallb enqueued (IRC.inbox IRC.init) = true
  /\ forallb enqueued
       (IRC.inbox (fold_left IRC.handle ["PING :a" ++ PyStr.CRLF ++ "x"; PyStr.CRLF ++ "PI"] IRC.init))
     = true
  /\ IRC.connected (fold_left IRC.handle ["PING :a" ++ PyStr.CRLF ++ "x"; PyStr.CRLF ++ "PI"] IRC.init)
     = IRC.connected IRC.init.
Proof.
  split; [reflexivity |].
  apply (X5_inbox_never_holds_ping
           ["PING :a" ++ PyStr.CRLF ++ "x"; PyStr.CRLF ++ "PI"] IRC.init).
  reflexivity.
Defined.

(** X6.  The reader keeps nothing from one read to the next: a line that
    arrives in two reads is taken as two lines.  When neither part starts
    with PING and neither is empty, both parts are queued and nothing is
    sent, also when the whole line starts with PING. *)
Theorem X6_line_cut_by_two_reads :
  forall (st : IRC.t) (a b : string),
    PyStr.contains PyStr.CRLF a = false ->
    PyStr.contains PyStr.CRLF b = false ->
    enqueued a = true ->
    enqueued b = true ->
    IRC.handle (IRC.handle st a) (b ++ PyStr.CRLF)
    = IRC.mk (IRC.connected st) (IRC.inbox st ++ [a; b])%list (IRC.sent st).
Proof.
  intros st a b Ha Hb Ea Eb.
  assert (Hfa : a = frame [] ++ a) by reflexivity.
  assert (Hfb : (b ++ PyStr.CRLF) = frame [b] ++ "")
    by (cbn [frame]; rewrite !str_app_nil_r; reflexivity).
  rewrite Hfb, Hfa.
  assert (Hnp : forall l, enqueued l = true -> PyStr.startswith "PING" l = false).
  { intros l H. unfold enqueued in H. apply andb_true_iff in H.
    destruct H as [H _]. apply negb_true_iff in H. exact H. }
  rewrite (handle_framed_lines st [] a eq_refl Ha).
  rewrite handle_framed_lines; [| cbn [forallb]; rewrite Hb; reflexivity | reflexivity].
  cbn [app filter map IRC.connected IRC.inbox IRC.sent].
  rewrite Ea, Eb, (Hnp a Ea), (Hnp b Eb).
  cbn [map]. rewrite !app_nil_r, <- app_assoc. reflexivity.
Qed.

Lemma X6_line_cut_by_two_reads_witness :
  IRC.handle (IRC.handle IRC.init "PI") ("NG :irc.example.org" ++ PyStr.CRLF)
  = IRC.mk (IRC.connected IRC.init)
      (IRC.inbox IRC.init ++ ["PI"; "NG :irc.example.org"])%list
      (IRC.sent IRC.init).
Proof.
  apply (X6_line_cut_by_two_reads IRC.init "PI" "NG :irc.example.org"); reflexivity.
Defined.

Section HistoryEdges.
Context {A : Type}.

Lemma add_negative_limit : forall (h : History.t A) (e : A),
  (History.limit h < 0)%Z ->
  History.add h e = Ok (History.mk (History.content h ++ [e])%list (History.limit h)).
Proof.
  intros h e Hneg. unfold History.add.
  destruct (Z.eqb_spec (Z.of_nat (List.length (History.content h))) (History.limit h));
    [lia | reflexivity].
Qed.

Lemma add_all_negative_limit : forall (xs : list A) (h : History.t A),
  (History.limit h < 0)%Z ->
  History.add_all h xs
  = Ok (History.mk (History.content h ++ xs)%list (History.limit h)).
Proof.
  induction xs as [| x xs IH]; intros h Hneg; cbn [History.add_all].
  - rewrite app_nil_r. destruct h; reflexivity.
  - rewrite (add_negative_limit h x Hneg), IH by exact Hneg.
    cbn [History.content History.limit]. rewrite <- app_assoc. reflexivity.
Qed.

End HistoryEdges.

(** X7.  A History constructed with a negative limit is not bounded: the
    limit is stored as given, no length ever equals it, and every element
    inserted is kept, in insertion order. *)
Theorem X7_history_negative_limit_unbounded :
  forall (A : Type) (lim : Z) (xs : list A),
    (lim < 0)%Z ->
    History.add_all (History.init lim) xs = Ok (History.mk xs lim)
    /\ History.len (History.mk xs lim) = List.length xs.
Proof.
  intros A lim xs Hneg. split; [| reflexivity].
  assert (Hs : History.stored_limit lim = lim).
  { unfold History.stored_limit. destruct (Z.eqb_spec lim 0); [lia | reflexivity]. }
  unfold History.init. rewrite Hs.
  rewrite add_all_negative_limit by exact Hneg. reflexivity.
Qed.

Lemma X7_history_negative_limit_unbounded_witness :
  (-2 < 0)%Z
  /\ History.add_all (History.init (-2)) [1; 2; 3; 4]%nat = Ok (History.mk [1; 2; 3; 4]%nat (-2))
  /\ History.len (History.mk [1; 2; 3; 4]%nat (-2)) = List.length [1; 2; 3; 4]%nat.
Proof.
  split; [lia |].
  apply (X7_history_negative_limit_unbounded nat (-2) [1; 2; 3; 4]%nat). lia.
Defined.

(* ================================================================= *)
(** * Further properties of api.py *)

Section SendFacts.
Import PyStr.

Lemma no_linebreak_snoc : forall cur c,
  no_linebreak cur = true -> islinebreak c = false ->
  no_linebreak (cur ++ String c "") = true.
Proof.
  intros cur c Hcur Hc. unfold no_linebreak in *.
  rewrite all_in_app, Hcur. cbn [all_in]. rewrite Hc. reflexivity.
Qed.

Lemma splitlines_from_no_linebreak : forall s,
  (forall cur, no_linebreak cur = true ->
     forallb no_linebreak (splitlines_from cur s) = true)
  /\ (forall cur c, no_linebreak cur = true ->
        forallb no_linebreak (splitlines_from cur (String c s)) = true).
Proof.
  induction s as [| c' s [IH1 IH2]].
  - split.
    + intros cur Hcur. cbn [splitlines_from].
      destruct cur; [reflexivity |]. cbn [forallb]. rewrite Hcur. reflexivity.
    + intros cur c Hcur. cbn [splitlines_from].
      destruct (islinebreak c) eqn:Ec.
      * cbn [forallb]. rewrite Hcur. reflexivity.
      * pose proof (no_linebreak_snoc cur c Hcur Ec) as Hs.
        destruct (cur ++ String c ""); [reflexivity |].
        cbn [forallb]. rewrite Hs. reflexivity.
  - split; [intros cur Hcur; apply IH2; exact Hcur |].
    intros cur c Hcur. cbn [splitlines_from].
    destruct (islinebreak c) eqn:Ec.
    + destruct (Ascii.eqb c CR && Ascii.eqb c' LF)%bool; cbn [forallb]; rewrite Hcur.
      * apply IH1. reflexivity.
      * apply IH2. reflexivity.
    + apply IH2. apply no_linebreak_snoc; assumption.
Qed.

Lemma splitlines_no_linebreak : forall message,
  forallb no_linebreak (splitlines message) = true.
Proof.
  intros message. unfold splitlines.
  apply (proj1 (splitlines_from_no_linebreak message)). reflexivity.
Qed.

Lemma fold_send : forall (f : string -> string) lines i,
  fold_left (fun i' line => IRC.send i' (f line)) lines i
  = IRC.mk (IRC.connected i) (IRC.inbox i)
      (IRC.sent i ++ map (fun line => (f line ++ CRLF)%string) lines)%list.
Proof.
  intros f lines. induction lines as [| l lines IH]; intros i; cbn [fold_left map].
  - rewrite app_nil_r. destruct i; reflexivity.
  - rewrite IH. cbn [IRC.send IRC.connected IRC.inbox IRC.sent].
    rewrite <- app_assoc. reflexivity.
Qed.

Lemma Bot_send_lines : forall b target message,
  Bot_send b target message
  = push_sent b (map (privmsg target) (splitlines message)).
Proof.
  intros b target message. unfold Bot_send, push_sent, privmsg.
  rewrite (fold_send (fun line => "PRIVMSG " ++ target ++ " :" ++ line)).
  do 3 f_equal. apply map_ext. intros line. rewrite !str_app_assoc. reflexivity.
Qed.

End SendFacts.

(** X8.  [Bot.send] writes one PRIVMSG line per line of the message, in
    order, and changes nothing else of the bot; the text of each of these
    lines holds no line break, so a message cannot end a protocol line
    early; an empty message sends nothing. *)
Theorem X8_send_one_privmsg_per_line :
  forall (b : Bot) (target message : string),
    Bot_send b target message
    = push_sent b (map (privmsg target) (PyStr.splitlines message))
    /\ forallb no_linebreak (PyStr.splitlines message) = true
    /\ Bot_send b target "" = b.
Proof.
  intros b target message.
  split; [apply Bot_send_lines |].
  split; [apply splitlines_no_linebreak |].
  rewrite Bot_send_lines. cbn [PyStr.splitlines PyStr.splitlines_from map].
  apply push_sent_nil.
Qed.

Example send_three_lines :
  IRC.sent (irc (Bot_send (Bot_init [] [] "!" 10) "#room"
                   ("one" ++ PyStr.CRLF ++ "two" ++ String PyStr.LF "three")))
  = ["PRIVMSG #room :one" ++ PyStr.CRLF; "PRIVMSG #room :two" ++ PyStr.CRLF;
     "PRIVMSG #room :three" ++ PyStr.CRLF].
Proof. reflexivity. Qed.

Section DecoratorFacts.
Import Dispatch.

Lemma matches_snoc : forall b message cmnd cmnd' evs ev,
  events cmnd = Predicates evs ->
  events cmnd' = Predicates (evs ++ [ev])%list ->
  (matches b message cmnd'
   <-> matches b message cmnd /\ ev (PREFIX b) message = true).
Proof.
  intros b message cmnd cmnd' evs ev He He'. unfold matches. split.
  - intros [evs' [E H]]. rewrite He' in E. injection E as <-. split.
    + exists evs. split; [exact He |]. intros ev0 H0. apply H.
      apply in_or_app. left. exact H0.
    + apply H. apply in_or_app. right. left. reflexivity.
  - intros [[evs' [E H]] Hev]. rewrite He in E. injection E as <-.
    exists (evs ++ [ev])%list. split; [exact He' |].
    intros ev0 H0. apply in_app_or in H0. destruct H0 as [H0 | [<- | []]];
      [apply H; exact H0 | exact Hev].
Qed.

Lemma attach_adds : forall (cond : Message -> bool),
  adds_condition (Decorators.attach (fun _ m => cond m)) cond.
Proof.
  intros cond b message description. split; [| split].
  - intros cmnd evs He. unfold Decorators.attach, Decorators.events_append.
    rewrite He. eexists. split; [reflexivity |].
    cbn [name func desc cmnd_type].
    split; [reflexivity |]. split; [reflexivity |]. split; [reflexivity |].
    split; [reflexivity |].
    apply (matches_snoc b message cmnd
             (mkCommand (name cmnd) (func cmnd)
                (Predicates (evs ++ [fun _ m => cond m])%list)
                (desc cmnd) (cmnd_type cmnd))
             evs (fun _ m => cond m) He eq_refl).
  - intros cmnd time He. unfold Decorators.attach, Decorators.events_append.
    rewrite He. reflexivity.
  - intros f. unfold Decorators.attach. eexists. split; [reflexivity |].
    cbn [Command_init name func cmnd_type].
    split; [reflexivity |]. split; [reflexivity |]. split; [reflexivity |].
    unfold matches. cbn [Command_init events]. split.
    + intros [evs [E H]]. injection E as <-. apply (H _ (or_introl eq_refl)).
    + intros H. eexists. split; [reflexivity |]. intros ev [<- | []]. exact H.
Qed.

End DecoratorFacts.

(** X9.  What the decorators [channel], [user] and [on] do with what they
    are put on.  A command that holds a list of predicates (one made by
    [command] or by one of the three) gets one more: afterwards it matches
    a message exactly when it matched before and the destination is the
    channel, the author is the user, or the event is true; it keeps its
    name, function, type and description, the description given to the
    decorator being dropped.  A command made by [every] holds its interval
    where the predicates go, and the decorator raises AttributeError on
    it.  A plain function becomes an event rule named after it that
    matches exactly when the condition holds. *)
Theorem X9_decorators_add_a_condition :
  forall (channel_name user_name : string) (ev : Message -> bool),
    adds_condition (Decorators.channel channel_name)
      (fun m => String.eqb (to m) channel_name)
    /\ adds_condition (Decorators.user user_name)
         (fun m => String.eqb (author m) user_name)
    /\ adds_condition (Decorators.on ev) ev
    /\ (forall (time : Z) (text0 description : string) (f : pyfunc),
          Decorators.channel channel_name description
            (inr (Decorators.every time text0 f)) = Raise AttributeError
          /\ Decorators.user user_name description
               (inr (Decorators.every time text0 f)) = Raise AttributeError
          /\ Decorators.on ev description
               (inr (Decorators.every time text0 f)) = Raise AttributeError).
Proof.
  intros channel_name user_name ev.
  split; [exact (attach_adds (fun m => String.eqb (to m) channel_name)) |].
  split; [exact (attach_adds (fun m => String.eqb (author m) user_name)) |].
  split; [exact (attach_adds ev) |].
  intros time text0 description f. repeat split.
Qed.

(** A Named rule restricted to a channel and to a user: it is called for
    that user on that channel only. *)
Example stacked_decorators :
  match Decorators.channel "#room" "" (inr ping_command) with
  | Ok on_room =>
      match Decorators.user "alice" "" (inr on_room) with
      | Ok rule =>
          map (fun m => Dispatch.all_events (Bot_init [] [] "!" 10) m rule)
            [mkMessage "alice" "#room" "!ping"; mkMessage "bob" "#room" "!ping";
             mkMessage "alice" "#other" "!ping"; mkMessage "alice" "#room" "hello"]
          = [Ok true; Ok false; Ok false; Ok false]
      | Raise _ => False
      end
  | Raise _ => False
  end.
Proof. reflexivity. Qed.

(** A periodic command cannot be restricted to a channel. *)
Example decorator_on_periodic :
  Decorators.channel "#room" "" (inr (Decorators.every 5 "Say hello." (mkFunc "spam" "" [] [])))
  = Raise AttributeError.
Proof. reflexivity. Qed.

Section DictMore.
Context {V : Type}.
Implicit Types (d : Dict.t V) (k : string) (v : V).

Lemma dict_get_set_same : forall d k v, Dict.get (Dict.set d k v) k = Some v.
Proof.
  intros d k v. induction d as [| [k' v'] d IH]; cbn [Dict.set Dict.get].
  - rewrite String.eqb_refl. reflexivity.
  - destruct (String.eqb k' k) eqn:E; cbn [Dict.get]; rewrite E; [reflexivity | exact IH].
Qed.

Lemma dict_get_set_other : forall d k v k',
  k' <> k -> Dict.get (Dict.set d k v) k' = Dict.get d k'.
Proof.
  intros d k v k' Hne. induction d as [| [k0 v0] d IH]; cbn [Dict.set Dict.get].
  - destruct (String.eqb_spec k k'); [congruence | reflexivity].
  - destruct (String.eqb_spec k0 k) as [-> | Hk0]; cbn [Dict.get].
    + destruct (String.eqb_spec k k'); [congruence | reflexivity].
    + destruct (String.eqb k0 k'); [reflexivity | exact IH].
Qed.

Lemma dict_mem_set_same : forall d k v, Dict.mem (Dict.set d k v) k = true.
Proof. intros d k v. unfold Dict.mem. rewrite dict_get_set_same. reflexivity. Qed.

Lemma dict_mem_set_keeps : forall d k v k',
  Dict.mem d k' = true -> Dict.mem (Dict.set d k v) k' = true.
Proof.
  intros d k v k' H. destruct (String.eqb_spec k' k) as [-> | Hne].
  - apply dict_mem_set_same.
  - unfold Dict.mem in *. rewrite dict_get_set_other by exact Hne. exact H.
Qed.

Lemma dict_remove_absent : forall d k, Dict.mem d k = false -> Dict.remove d k = d.
Proof.
  intros d k. unfold Dict.mem, Dict.remove.
  induction d as [| [k' v'] d IH]; cbn [Dict.get filter fst]; [reflexivity |].
  destruct (String.eqb k' k); [discriminate |].
  intros H. cbn [negb]. rewrite (IH H). reflexivity.
Qed.

Lemma dict_remove_set_fresh : forall d k v,
  Dict.mem d k = false -> Dict.remove (Dict.set d k v) k = d.
Proof.
  intros d k v H. rewrite dict_set_fresh by exact H.
  unfold Dict.remove. rewrite filter_app. cbn [filter fst].
  rewrite String.eqb_refl. cbn [negb]. rewrite app_nil_r.
  apply dict_remove_absent. exact H.
Qed.

Lemma dict_get_mem : forall d k v, Dict.get d k = Some v -> Dict.mem d k = true.
Proof. intros d k v H. unfold Dict.mem. rewrite H. reflexivity. Qed.

End DictMore.

Section RegistryFacts.

Lemma bot_eta : forall b,
  with_commands_help (with_callbacks b (callbacks b)) (commands_help b) = b.
Proof. intros []. reflexivity. Qed.

End RegistryFacts.

(** X10.  After [add_command] with a command that is not periodic, the
    name of the command maps to that command in [callbacks], whatever the
    name mapped to before, and every other name maps to what it did; the
    same holds of [commands_help] when [add_to_help] is set, and
    [commands_help] is untouched when it is not.  No thread is started. *)
Theorem X10_add_command_registers :
  forall (b : Bot) (c : Command) (add_to_help : bool),
    cmnd_type c <> 2%Z ->
    Dict.get (callbacks (add_command b c add_to_help)) (name c) = Some c
    /\ (forall k, k <> name c ->
          Dict.get (callbacks (add_command b c add_to_help)) k
          = Dict.get (callbacks b) k)
    /\ (add_to_help = true ->
        Dict.get (commands_help (add_command b c add_to_help)) (name c) = Some c
        /\ forall k, k <> name c ->
             Dict.get (commands_help (add_command b c add_to_help)) k
             = Dict.get (commands_help b) k)
    /\ (add_to_help = false ->
        commands_help (add_command b c add_to_help) = commands_help b)
    /\ threads (add_command b c add_to_help) = threads b.
Proof.
  intros b c h Hty. unfold add_command.
  destruct (Z.eqb_spec (cmnd_type c) 2) as [E | _]; [contradiction |].
  destruct h; cbn [callbacks commands_help threads with_callbacks with_commands_help].
  - split; [apply dict_get_set_same |].
    split; [intros k Hk; apply dict_get_set_other; exact Hk |].
    split; [| split; [discriminate | reflexivity]].
    intros _. split; [apply dict_get_set_same |].
    intros k Hk. apply dict_get_set_other. exact Hk.
  - split; [apply dict_get_set_same |].
    split; [intros k Hk; apply dict_get_set_other; exact Hk |].
    split; [discriminate |]. split; reflexivity.
Qed.

Lemma X10_add_command_registers_witness :
  cmnd_type add_rule <> 2%Z
  /\ Dict.get (callbacks (add_command bot_with_ping add_rule true)) (name add_rule)
     = Some add_rule
  /\ (forall k, k <> name add_rule ->
        Dict.get (callbacks (add_command bot_with_ping add_rule true)) k
        = Dict.get (callbacks bot_with_ping) k).
Proof.
  assert (H : cmnd_type add_rule <> 2%Z) by discriminate.
  split; [exact H |].
  split.
  - exact (proj1 (X10_add_command_registers bot_with_ping add_rule true H)).
  - exact (proj1 (proj2 (X10_add_command_registers bot_with_ping add_rule true H))).
Defined.

(** X11.  A periodic command never enters [callbacks]: [add_command] only
    starts its thread.  With [add_to_help] it is still written to
    [commands_help], and then [remove_command] cannot take it out again:
    unless a callback bears the same name the call returns and leaves the
    bot, the help entry included, as it was. *)
Theorem X11_periodic_command_not_removable :
  forall (b : Bot) (c : Command) (add_to_help : bool),
    cmnd_type c = 2%Z ->
    callbacks (add_command b c add_to_help) = callbacks b
    /\ threads (add_command b c add_to_help) = (threads b ++ [name c])%list
    /\ (add_to_help = true ->
        Dict.get (commands_help (add_command b c add_to_help)) (name c) = Some c)
    /\ (Dict.mem (callbacks b) (name c) = false ->
        remove_command (add_command b c add_to_help) (name c)
        = (add_command b c add_to_help, Ok tt)).
Proof.
  intros b c h Hty. unfold add_command. rewrite Hty. cbn [Z.eqb Pos.eqb].
  destruct h; cbn [callbacks commands_help threads with_threads with_commands_help].
  - split; [reflexivity |]. split; [reflexivity |].
    split; [intros _; apply dict_get_set_same |].
    intros Hnew. unfold remove_command.
    cbn [callbacks with_threads with_commands_help]. rewrite Hnew. reflexivity.
  - split; [reflexivity |]. split; [reflexivity |].
    split; [discriminate |].
    intros Hnew. unfold remove_command.
    cbn [callbacks with_threads]. rewrite Hnew. reflexivity.
Qed.

Lemma X11_periodic_command_not_removable_witness :
  cmnd_type (Decorators.every 5 "Say hello." (mkFunc "spam" "" [] [])) = 2%Z
  /\ Dict.get
       (commands_help
          (add_command bot_with_ping
             (Decorators.every 5 "Say hello." (mkFunc "spam" "" [] [])) true))
       (name (Decorators.every 5 "Say hello." (mkFunc "spam" "" [] [])))
     = Some (Decorators.every 5 "Say hello." (mkFunc "spam" "" [] []))
  /\ remove_command
       (add_command bot_with_ping
          (Decorators.every 5 "Say hello." (mkFunc "spam" "" [] [])) true)
       (name (Decorators.every 5 "Say hello." (mkFunc "spam" "" [] [])))
     = (add_command bot_with_ping
          (Decorators.every 5 "Say hello." (mkFunc "spam" "" [] [])) true, Ok tt).
Proof.
  assert (H : cmnd_type (Decorators.every 5 "Say hello." (mkFunc "spam" "" [] [])) = 2%Z)
    by reflexivity.
  split; [exact H |].
  split.
  - exact (proj1 (proj2 (proj2
      (X11_periodic_command_not_removable bot_with_ping
         (Decorators.every 5 "Say hello." (mkFunc "spam" "" [] [])) true H))) eq_refl).
  - exact (proj2 (proj2 (proj2
      (X11_periodic_command_not_removable bot_with_ping
         (Decorators.every 5 "Say hello." (mkFunc "spam" "" [] [])) true H))) eq_refl).
Defined.

(** X12.  Adding a documented command under a name that is new to both
    dicts and removing it again gives back the bot as it was. *)
Theorem X12_add_then_remove :
  forall (b : Bot) (c : Command),
    cmnd_type c <> 2%Z ->
    Dict.mem (callbacks b) (name c) = false ->
    Dict.mem (commands_help b) (name c) = false ->
    remove_command (add_command b c true) (name c) = (b, Ok tt).
Proof.
  intros b c Hty Hcb Hhelp. unfold add_command.
  destruct (Z.eqb_spec (cmnd_type c) 2) as [E | _]; [contradiction |].
  unfold remove_command.
  cbn [callbacks commands_help with_callbacks with_commands_help].
  rewrite dict_mem_set_same.
  unfold Dict.pop. rewrite !dict_get_set_same.
  cbn [callbacks commands_help with_callbacks with_commands_help].
  rewrite ?dict_get_set_same.
  rewrite !dict_remove_set_fresh by assumption.
  unfold with_commands_help, with_callbacks. cbn. destruct b; reflexivity.
Qed.

Lemma X12_add_then_remove_witness :
  cmnd_type add_rule <> 2%Z
  /\ Dict.mem (callbacks bot_with_ping) (name add_rule) = false
  /\ Dict.mem (commands_help bot_with_ping) (name add_rule) = false
  /\ remove_command (add_command bot_with_ping add_rule true) (name add_rule)
     = (bot_with_ping, Ok tt).
Proof.
  assert (H1 : cmnd_type add_rule <> 2%Z) by discriminate.
  assert (H2 : Dict.mem (callbacks bot_with_ping) (name add_rule) = false) by reflexivity.
  assert (H3 : Dict.mem (commands_help bot_with_ping) (name add_rule) = false) by reflexivity.
  split; [exact H1 | split; [exact H2 | split; [exact H3 |]]].
  exact (X12_add_then_remove bot_with_ping add_rule H1 H2 H3).
Defined.

(** X13.  [remove_command] on a name that is a key of both dicts returns:
    the name is gone from both, every other name maps to what it did in
    both, and the rest of the bot is unchanged. *)
Theorem X13_remove_documented_command :
  forall (b : Bot) (command_name : string),
    Dict.mem (callbacks b) command_name = true ->
    Dict.mem (commands_help b) command_name = true ->
    exists b' : Bot,
      remove_command b command_name = (b', Ok tt)
      /\ Dict.mem (callbacks b') command_name = false
      /\ Dict.mem (commands_help b') command_name = false
      /\ (forall k, k <> command_name ->
            Dict.get (callbacks b') k = Dict.get (callbacks b) k
            /\ Dict.get (commands_help b') k = Dict.get (commands_help b) k)
      /\ irc b' = irc b /\ history b' = history b /\ threads b' = threads b.
Proof.
  intros b k Hcb Hhelp. unfold remove_command. rewrite Hcb.
  destruct (dict_pop_present _ _ Hcb) as [v Hpop]. rewrite Hpop.
  cbn [commands_help with_callbacks].
  destruct (dict_pop_present _ _ Hhelp) as [v' Hpop']. rewrite Hpop'.
  eexists. split; [reflexivity |].
  cbn [callbacks commands_help with_callbacks with_commands_help irc history threads].
  split; [apply dict_mem_remove |]. split; [apply dict_mem_remove |].
  split; [| repeat split].
  intros k' Hk'. split; apply dict_get_remove_other; exact Hk'.
Qed.

Lemma X13_remove_documented_command_witness :
  Dict.mem (callbacks (add_command bot_with_ping add_rule true)) "add" = true
  /\ Dict.mem (commands_help (add_command bot_with_ping add_rule true)) "add" = true
  /\ exists b' : Bot,
       remove_command (add_command bot_with_ping add_rule true) "add" = (b', Ok tt)
       /\ Dict.mem (callbacks b') "add" = false
       /\ Dict.mem (commands_help b') "add" = false
       /\ (forall k, k <> "add" ->
             Dict.get (callbacks b') k
             = Dict.get (callbacks (add_command bot_with_ping add_rule true)) k
             /\ Dict.get (commands_help b') k
                = Dict.get (commands_help (add_command bot_with_ping add_rule true)) k)
       /\ irc b' = irc (add_command bot_with_ping add_rule true)
       /\ history b' = history (add_command bot_with_ping add_rule true)
       /\ threads b' = threads (add_command bot_with_ping add_rule true).
Proof.
  split; [reflexivity | split; [reflexivity |]].
  apply (X13_remove_documented_command (add_command bot_with_ping add_rule true) "add");
    reflexivity.
Defined.

Section AddCommandsFacts.

Lemma add_command_help_false : forall b c,
  commands_help (add_command b c false) = commands_help b.
Proof.
  intros b c. unfold add_command. destruct (cmnd_type c =? 2)%Z; reflexivity.
Qed.

Lemma add_command_help_true : forall b c,
  Dict.mem (commands_help (add_command b c true)) (name c) = true.
Proof.
  intros b c. unfold add_command.
  destruct (cmnd_type c =? 2)%Z; cbn [commands_help with_commands_help];
    apply dict_mem_set_same.
Qed.

Lemma add_command_help_keeps : forall b c h k,
  Dict.mem (commands_help b) k = true ->
  Dict.mem (commands_help (add_command b c h)) k = true.
Proof.
  intros b c h k H. unfold add_command.
  destruct (cmnd_type c =? 2)%Z; destruct h;
    cbn [commands_help with_commands_help with_callbacks with_threads];
    try exact H; apply dict_mem_set_keeps; exact H.
Qed.

Lemma add_command_callbacks_mem : forall b c h,
  cmnd_type c <> 2%Z ->
  Dict.mem (callbacks (add_command b c h)) (name c) = true.
Proof.
  intros b c h Hty. unfold add_command.
  destruct (Z.eqb_spec (cmnd_type c) 2); [contradiction |].
  destruct h; cbn [callbacks with_commands_help with_callbacks];
    apply dict_mem_set_same.
Qed.

Lemma add_command_callbacks_keeps : forall b c h k,
  Dict.mem (callbacks b) k = true ->
  Dict.mem (callbacks (add_command b c h)) k = true.
Proof.
  intros b c h k H. unfold add_command.
  destruct (cmnd_type c =? 2)%Z; destruct h;
    cbn [callbacks with_commands_help with_callbacks with_threads];
    try exact H; apply dict_mem_set_keeps; exact H.
Qed.

(** The loop of [add_commands] and of [add_commands_module], on what is
    left to add. *)
Lemma fold_add_help_false : forall (cs : list Command) b,
  commands_help (fold_left (fun b' c => add_command b' c false) cs b)
  = commands_help b.
Proof.
  induction cs as [| c cs IH]; intros b; cbn [fold_left]; [reflexivity |].
  rewrite IH. apply add_command_help_false.
Qed.

Lemma fold_add_help_keeps : forall (cs : list Command) h b k,
  Dict.mem (commands_help b) k = true ->
  Dict.mem (commands_help (fold_left (fun b' c => add_command b' c h) cs b)) k = true.
Proof.
  induction cs as [| c cs IH]; intros h b k H; cbn [fold_left]; [exact H |].
  apply IH. apply add_command_help_keeps. exact H.
Qed.

Lemma fold_add_help_true : forall (cs : list Command) b c,
  In c cs ->
  Dict.mem (commands_help (fold_left (fun b' c' => add_command b' c' true) cs b))
    (name c) = true.
Proof.
  induction cs as [| c0 cs IH]; intros b c Hin; [contradiction |].
  cbn [fold_left]. destruct Hin as [-> | Hin].
  - apply fold_add_help_keeps. apply add_command_help_true.
  - apply IH. exact Hin.
Qed.

Lemma fold_add_callbacks_keeps : forall (cs : list Command) h b k,
  Dict.mem (callbacks b) k = true ->
  Dict.mem (callbacks (fold_left (fun b' c => add_command b' c h) cs b)) k = true.
Proof.
  induction cs as [| c cs IH]; intros h b k H; cbn [fold_left]; [exact H |].
  apply IH. apply add_command_callbacks_keeps. exact H.
Qed.

Lemma fold_add_callbacks : forall (cs : list Command) h b c,
  In c cs -> cmnd_type c <> 2%Z ->
  Dict.mem (callbacks (fold_left (fun b' c' => add_command b' c' h) cs b)) (name c)
  = true.
Proof.
  induction cs as [| c0 cs IH]; intros h b c Hin Hty; [contradiction |].
  cbn [fold_left]. destruct Hin as [-> | Hin].
  - apply fold_add_callbacks_keeps. apply add_command_callbacks_mem. exact Hty.
  - apply IH; assumption.
Qed.

Lemma fold_module : forall (m : pymodule) h b,
  fold_left
    (fun b' (attr : string * option Command) =>
       match snd attr with
       | Some cmnd => add_command b' cmnd h
       | None => b'
       end) m b
  = fold_left (fun b' c => add_command b' c h) (module_commands m) b.
Proof.
  induction m as [| [n [c |]] m IH]; intros h b;
    cbn [fold_left module_commands flat_map snd app]; [reflexivity | | ]; apply IH.
Qed.

End AddCommandsFacts.

(** X14.  [add_commands] documents all of its commands or none: none when
    no command of the call is named auto_help, all of them, the periodic
    ones included, when one is.  Every command of the call that is not
    periodic is a callback afterwards.  The help command of the library is
    named help, so handing it to [add_commands] documents nothing. *)
Theorem X14_add_commands_all_or_none :
  forall (b : Bot) (commands : list Command),
    (existsb (fun c => String.eqb "auto_help" (name c)) commands = false ->
     commands_help (add_commands b commands) = commands_help b)
    /\ (existsb (fun c => String.eqb "auto_help" (name c)) commands = true ->
        forall c, In c commands ->
          Dict.mem (commands_help (add_commands b commands)) (name c) = true)
    /\ (forall c, In c commands -> cmnd_type c <> 2%Z ->
          Dict.mem (callbacks (add_commands b commands)) (name c) = true)
    /\ ((forall c, In c commands -> name c <> "auto_help") ->
        commands_help (add_commands b (AutoHelp.command :: commands))
        = commands_help b).
Proof.
  intros b commands. unfold add_commands.
  split; [| split; [| split]].
  - intros Hflag. rewrite Hflag. apply fold_add_help_false.
  - intros Hflag c Hin. rewrite Hflag. apply fold_add_help_true. exact Hin.
  - intros c Hin Hty. apply fold_add_callbacks; assumption.
  - intros Hnames.
    assert (Hflag : existsb (fun c => String.eqb "auto_help" (name c))
                      (AutoHelp.command :: commands) = false).
    { cbn [existsb]. change (String.eqb "auto_help" (name AutoHelp.command)) with false.
      cbn [orb].
      destruct (existsb (fun c => String.eqb "auto_help" (name c)) commands) eqn:E;
        [| reflexivity].
      apply existsb_exists in E. destruct E as [c [Hin Hc]].
      apply String.eqb_eq in Hc. exfalso. apply (Hnames c Hin). symmetry. exact Hc. }
    rewrite Hflag. apply fold_add_help_false.
Qed.

Lemma X14_add_commands_all_or_none_witness :
  commands_help (add_commands (Bot_init [] [] "!" 10) [ping_command; add_rule])
  = commands_help (Bot_init [] [] "!" 10)
  /\ Dict.mem
       (commands_help
          (add_commands (Bot_init [] [] "!" 10)
             [ping_command;
              Decorators.command "auto_help" [] "" (mkFunc "h" "" [] [])]))
       (name ping_command) = true
  /\ commands_help
       (add_commands (Bot_init [] [] "!" 10) (AutoHelp.command :: [ping_command]))
     = commands_help (Bot_init [] [] "!" 10).
Proof.
  split; [| split].
  - apply (proj1 (X14_add_commands_all_or_none (Bot_init [] [] "!" 10)
                    [ping_command; add_rule])).
    reflexivity.
  - apply (proj1 (proj2 (X14_add_commands_all_or_none (Bot_init [] [] "!" 10)
                    [ping_command;
                     Decorators.command "auto_help" [] "" (mkFunc "h" "" [] [])]))).
    + reflexivity.
    + left. reflexivity.
  - apply (proj2 (proj2 (proj2 (X14_add_commands_all_or_none (Bot_init [] [] "!" 10)
                    [ping_command])))).
    intros c [<- | []]. discriminate.
Defined.

(** X15.  [add_commands_modules] decides per module, on the names of its
    attributes: the commands of a module are all documented when the
    module has an attribute called auto_help, whatever that attribute is,
    and none of them is when it has not.  Every command of the module that
    is not periodic is a callback afterwards. *)
Theorem X15_add_commands_module_by_attribute :
  forall (b : Bot) (commands_module : pymodule),
    add_commands_modules b [commands_module] = add_commands_module b commands_module
    /\ (existsb (String.eqb "auto_help") (map fst commands_module) = false ->
        commands_help (add_commands_module b commands_module) = commands_help b)
    /\ (existsb (String.eqb "auto_help") (map fst commands_module) = true ->
        forall attr c, In (attr, Some c) commands_module ->
          Dict.mem (commands_help (add_commands_module b commands_module)) (name c)
          = true)
    /\ (forall attr c, In (attr, Some c) commands_module -> cmnd_type c <> 2%Z ->
          Dict.mem (callbacks (add_commands_module b commands_module)) (name c) = true).
Proof.
  intros b m. split; [reflexivity |].
  assert (Hin : forall attr c, In (attr, Some c) m -> In c (module_commands m)).
  { intros attr c H. unfold module_commands. apply in_flat_map.
    exists (attr, Some c). split; [exact H | left; reflexivity]. }
  unfold add_commands_module. rewrite fold_module.
  split; [| split].
  - intros Hflag. rewrite Hflag. apply fold_add_help_false.
  - intros Hflag attr c H. rewrite Hflag. apply fold_add_help_true.
    exact (Hin attr c H).
  - intros attr c H Hty. apply fold_add_callbacks; [exact (Hin attr c H) | exact Hty].
Qed.

Lemma X15_add_commands_module_by_attribute_witness :
  commands_help
    (add_commands_module (Bot_init [] [] "!" 10)
       [("__name__", None); ("foo", Some ping_command)])
  = commands_help (Bot_init [] [] "!" 10)
  /\ Dict.mem
       (commands_help
          (add_commands_module (Bot_init [] [] "!" 10)
             [("auto_help", None); ("foo", Some ping_command)]))
       (name ping_command) = true.
Proof.
  split.
  - apply (proj1 (proj2 (X15_add_commands_module_by_attribute (Bot_init [] [] "!" 10)
                    [("__name__", None); ("foo", Some ping_command)]))).
    reflexivity.
  - apply (proj1 (proj2 (proj2 (X15_add_commands_module_by_attribute
                    (Bot_init [] [] "!" 10)
                    [("auto_help", None); ("foo", Some ping_command)]))) eq_refl "foo").
    right. left. reflexivity.
Defined.

(** X16.  [auto_help] asked for a documented command sends the header for
    that command and one line per line of its description.  Asked for
    nothing, or for a name that is not documented, it lists: it sends the
    header alone when no command is documented, and raises AttributeError
    without sending anything as soon as one is, because the loop reads the
    attribute [type], which a [Command] does not have. *)
Theorem X16_auto_help_listing_raises :
  forall (bar : string) (b : Bot) (msg : Message) (fct_name : string),
    (forall cmnd,
       fct_name <> "" ->
       Dict.get (commands_help b) fct_name = Some cmnd ->
       AutoHelp.auto_help bar b msg fct_name
       = (Bot_send b (to msg)
            (AutoHelp.describe bar (PyStr.splitlines (desc cmnd))
               ("Help on the command: " ++ prefix b ++ fct_name ++ AutoHelp.LFs)),
          Ok tt))
    /\ (fct_name = "" \/ Dict.mem (commands_help b) fct_name = false ->
        commands_help b = [] ->
        AutoHelp.auto_help bar b msg fct_name
        = (Bot_send b (to msg)
             ("List of available commands (" ++ PREFIX b
              ++ "help <cmnd> for more informations)" ++ AutoHelp.LFs),
           Ok tt))
    /\ (fct_name = "" \/ Dict.mem (commands_help b) fct_name = false ->
        commands_help b <> [] ->
        AutoHelp.auto_help bar b msg fct_name = (b, Raise AttributeError)).
Proof.
  intros bar b msg fct_name.
  assert (Hbranch : fct_name = "" \/ Dict.mem (commands_help b) fct_name = false ->
                    negb (String.eqb fct_name "") && Dict.mem (commands_help b) fct_name
                    = false).
  { intros [-> | H]; [reflexivity |]. rewrite H. apply andb_false_r. }
  split; [| split].
  - intros cmnd Hne Hget. unfold AutoHelp.auto_help.
    rewrite (dict_get_mem _ _ _ Hget), Hget.
    destruct (String.eqb_spec fct_name ""); [contradiction |]. reflexivity.
  - intros Hcase Hempty. unfold AutoHelp.auto_help.
    rewrite (Hbranch Hcase), Hempty. reflexivity.
  - intros Hcase Hne. unfold AutoHelp.auto_help.
    rewrite (Hbranch Hcase).
    destruct (commands_help b) as [| [k c] items]; [congruence |].
    reflexivity.
Qed.

Lemma X16_auto_help_listing_raises_witness :
  AutoHelp.auto_help " | " (add_command bot_with_ping add_rule true)
    (mkMessage "alice" "#room" "!help add") "add"
  = (Bot_send (add_command bot_with_ping add_rule true)
       (to (mkMessage "alice" "#room" "!help add"))
       (AutoHelp.describe " | " (PyStr.splitlines (desc add_rule))
          ("Help on the command: " ++ prefix (add_command bot_with_ping add_rule true)
           ++ "add" ++ AutoHelp.LFs)),
     Ok tt)
  /\ AutoHelp.auto_help " | " bot_with_ping (mkMessage "alice" "#room" "!help") ""
     = (Bot_send bot_with_ping (to (mkMessage "alice" "#room" "!help"))
          ("List of available commands (" ++ PREFIX bot_with_ping
           ++ "help <cmnd> for more informations)" ++ AutoHelp.LFs),
        Ok tt)
  /\ AutoHelp.auto_help " | " (add_command bot_with_ping add_rule true)
       (mkMessage "alice" "#room" "!help") ""
     = (add_command bot_with_ping add_rule true, Raise AttributeError).
Proof.
  split; [| split].
  - apply (proj1 (X16_auto_help_listing_raises " | "
                    (add_command bot_with_ping add_rule true)
                    (mkMessage "alice" "#room" "!help add") "add") add_rule).
    + discriminate.
    + reflexivity.
  - apply (proj1 (proj2 (X16_auto_help_listing_raises " | " bot_with_ping
                    (mkMessage "alice" "#room" "!help") ""))).
    + left. reflexivity.
    + reflexivity.
  - apply (proj2 (proj2 (X16_auto_help_listing_raises " | "
                    (add_command bot_with_ping add_rule true)
                    (mkMessage "alice" "#room" "!help") ""))).
    + left. reflexivity.
    + discriminate.
Defined.

Section DefaultsFacts.

Lemma skipn_cons_nth : forall (A : Type) (l : list A) (n : nat) (x : A),
  nth_error l n = Some x -> skipn n l = x :: skipn (S n) l.
Proof.
  intros A l. induction l as [| a l IH]; intros [| n] x H; cbn in *; try discriminate.
  - injection H as ->. reflexivity.
  - apply IH. exact H.
Qed.

(** Without tokens every position takes its default. *)
Lemma coerce_from_defaults : forall func types i,
  (List.length (annotations func) <= List.length (defaults func))%nat ->
  (i + List.length types = List.length (annotations func))%nat ->
  all_some (coerce_from func [] i types)
  = Some (skipn (i + (List.length (defaults func) - List.length (annotations func)))
            (defaults func)).
Proof.
  intros func types. induction types as [| ty types IH]; intros i Hle Hi;
    cbn [coerce_from all_some List.length] in *.
  - rewrite skipn_all2 by lia. reflexivity.
  - unfold coerce_at. rewrite nth_error_nil. unfold default_at, required.
    destruct (Z.leb_spec (Z.of_nat (List.length (annotations func))
                          - Z.of_nat (List.length (defaults func))) (Z.of_nat i));
      [| lia].
    replace (Z.to_nat (Z.of_nat i - (Z.of_nat (List.length (annotations func))
                                     - Z.of_nat (List.length (defaults func)))))
      with (i + (List.length (defaults func) - List.length (annotations func)))%nat
      by lia.
    destruct (nth_error (defaults func)
                (i + (List.length (defaults func) - List.length (annotations func))))
      as [d |] eqn:E; [| apply nth_error_None in E; lia].
    rewrite (IH (S i) Hle) by lia.
    rewrite (skipn_cons_nth _ _ _ _ E). reflexivity.
Qed.

End DefaultsFacts.

(** X17.  A handler called without any token, all of whose annotated
    parameters have a default, is given its defaults: [check_args] returns
    the defaults of the annotated parameters, which are the last ones of
    [__defaults__] when the function has more defaults than annotations. *)
Theorem X17_check_args_without_tokens :
  forall func : pyfunc,
    (List.length (annotations func) <= List.length (defaults func))%nat ->
    check_args func []
    = Ok (Some (lastn (List.length (annotations func)) (defaults func))).
Proof.
  intros func Hle. rewrite check_args_refines. f_equal.
  unfold coerce_spec, required. cbn [List.length].
  destruct (Z.ltb_spec (Z.of_nat 0)
              (Z.of_nat (List.length (annotations func))
               - Z.of_nat (List.length (defaults func)))); [lia |].
  rewrite (coerce_from_defaults func (annotations func) 0 Hle eq_refl).
  reflexivity.
Qed.

Lemma X17_check_args_without_tokens_witness :
  (List.length (annotations (mkFunc "f" "" [TInt; TStr] [VBool true; VInt 7; VStr "hi"]))
   <= List.length (defaults (mkFunc "f" "" [TInt; TStr] [VBool true; VInt 7; VStr "hi"])))%nat
  /\ check_args (mkFunc "f" "" [TInt; TStr] [VBool true; VInt 7; VStr "hi"]) []
     = Ok (Some (lastn
                   (List.length (annotations
                      (mkFunc "f" "" [TInt; TStr] [VBool true; VInt 7; VStr "hi"])))
                   (defaults (mkFunc "f" "" [TInt; TStr] [VBool true; VInt 7; VStr "hi"])))).
Proof.
  assert (H : (List.length (annotations (mkFunc "f" "" [TInt; TStr] [VBool true; VInt 7; VStr "hi"]))
               <= List.length (defaults (mkFunc "f" "" [TInt; TStr] [VBool true; VInt 7; VStr "hi"])))%nat)
    by (cbn; lia).
  split; [exact H |].
  exact (X17_check_args_without_tokens
           (mkFunc "f" "" [TInt; TStr] [VBool true; VInt 7; VStr "hi"]) H).
Defined.

Section RunFacts.
Import PyStr Dispatch.

Lemma receive_in_received_some : forall q message q',
  IRC.receive_in q = Some (message, q') ->
  received q = message :: received q'.
Proof.
  unfold received. induction q as [| l q IH]; intros message q' H;
    cbn [IRC.receive_in] in H; [discriminate |].
  cbn [filter]. destruct (contains " PRIVMSG " l).
  - injection H as <- <-. reflexivity.
  - apply IH. exact H.
Qed.

Lemma receive_in_received_none : forall q,
  IRC.receive_in q = None -> received q = [].
Proof.
  unfold received. induction q as [| l q IH]; intros H; cbn [IRC.receive_in] in H;
    [reflexivity |].
  cbn [filter]. destruct (contains " PRIVMSG " l); [discriminate | apply IH; exact H].
Qed.

Lemma calls_for_ext : forall b1 b2 message,
  PREFIX b1 = PREFIX b2 -> callbacks b1 = callbacks b2 ->
  calls_for b1 message = calls_for b2 message.
Proof.
  intros b1 b2 message HP Hcb. unfold calls_for. rewrite Hcb.
  apply flat_map_ext. intros cb. apply calls_of_PREFIX. exact HP.
Qed.

Lemma Bot_send_inbox : forall b target message,
  IRC.inbox (irc (Bot_send b target message)) = IRC.inbox (irc b).
Proof. intros b target message. rewrite Bot_send_lines. reflexivity. Qed.

(** The main loop on a bot that holds a [History] object, with handlers
    that return and leave the rules, the history and the queue alone. *)
Lemma mainloop_records : forall call,
  keeps_rules call ->
  keeps history call ->
  keeps (fun b => IRC.inbox (irc b)) call ->
  returns call ->
  forall fuel b h done,
    history b = HistoryObj h ->
    (0 < History.limit h)%Z ->
    (Z.of_nat (List.length (History.content h)) <= History.limit h)%Z ->
    (forall cb, In cb (Dict.values (callbacks b)) ->
                exists evs, events cb = Predicates evs) ->
    (List.length (IRC.inbox (irc b)) < fuel)%nat ->
    exists b',
      mainloop call fuel b done
      = (b', (done ++ flat_map (calls_for b) (received (IRC.inbox (irc b))))%list, Blocked)
      /\ history b'
         = HistoryObj
             (History.mk
                (lastn (Z.to_nat (History.limit h))
                   (History.content h ++ received (IRC.inbox (irc b))))
                (History.limit h))
      /\ IRC.inbox (irc b') = []
      /\ callbacks b' = callbacks b.
Proof.
  intros call Hk Hkh Hkq Hret.
  induction fuel as [| fuel IH]; intros b h done Hh HN Hlen Hwf Hfuel; [lia |].
  cbn [mainloop].
  destruct (IRC.receive_in (IRC.inbox (irc b))) as [[message q'] |] eqn:Hrecv.
  - pose proof (add_keeps_last h message HN Hlen) as Hadd.
    rewrite (start_iteration_with_history call b h _ message q' Hrecv Hh Hadd).
    set (h' := History.mk
                 (lastn (Z.to_nat (History.limit h)) (History.content h ++ [message]))
                 (History.limit h)).
    set (b1 := with_history (with_irc b (IRC.with_inbox (irc b) q')) (HistoryObj h')).
    pose proof (dispatch_keeps _ history call b1 message
                  (fun b0 t0 m0 => eq_refl) Hkh) as Hhist2.
    pose proof (dispatch_keeps _ (fun b0 => IRC.inbox (irc b0)) call b1 message
                  Bot_send_inbox Hkq) as Hq2.
    rewrite (dispatch_run_rules call b1 message (proj1 Hk)) in Hhist2, Hq2 |- *.
    destruct (run_rules_all call message b1 (Dict.values (callbacks b1)) Hk Hwf
                (fun cb args b' _ _ => Hret (func cb) b' message args)
                b1 [] eq_refl) as [b2 [Hrun [HP2 Hcb2]]].
    rewrite Hrun in Hhist2, Hq2 |- *. cbn [fst app] in Hhist2, Hq2 |- *.
    destruct (IH b2 h' (done ++ flat_map (calls_of b1 message) (Dict.values (callbacks b1)))%list)
      as [b' [Hloop [Hhist [Hinbox Hcb]]]].
    + rewrite Hhist2. reflexivity.
    + exact HN.
    + subst h'. cbn [History.content History.limit]. rewrite lastn_length. lia.
    + rewrite Hcb2. exact Hwf.
    + rewrite Hq2. subst b1. cbn. pose proof (receive_in_shorter _ _ _ Hrecv). lia.
    + exists b'. rewrite Hloop.
      rewrite (receive_in_received_some _ _ _ Hrecv).
      replace (IRC.inbox (irc b2)) with q' in * by (rewrite Hq2; reflexivity).
      assert (Hcalls : forall m, calls_for b2 m = calls_for b m)
        by (intros m; apply calls_for_ext; [exact HP2 | exact Hcb2]).
      rewrite (flat_map_ext _ _ Hcalls).
      split; [| split; [| split; [exact Hinbox | rewrite Hcb, Hcb2; reflexivity]]].
      * cbn [flat_map]. rewrite <- app_assoc. reflexivity.
      * rewrite Hhist. subst h'. cbn [History.content History.limit].
        rewrite lastn_app_lastn, <- app_assoc. reflexivity.
  - unfold start_iteration, IRC.receive. rewrite Hrecv.
    exists (with_irc b (IRC.with_inbox (irc b) [])).
    rewrite (receive_in_received_none _ Hrecv). cbn [flat_map].
    rewrite !app_nil_r.
    split; [reflexivity |]. split; [| split; reflexivity].
    cbn [history with_irc]. rewrite Hh, lastn_short by lia.
    destruct h; reflexivity.
Qed.

Lemma sent_more_refl : forall b, sent_more b b.
Proof. intros b. split; [exists []; rewrite app_nil_r; reflexivity | reflexivity]. Qed.

Lemma sent_more_trans : forall b1 b2 b3,
  sent_more b1 b2 -> sent_more b2 b3 -> sent_more b1 b3.
Proof.
  intros b1 b2 b3 [[m1 H1] C1] [[m2 H2] C2]. split; [| congruence].
  exists (m1 ++ m2)%list. rewrite H2, H1, app_assoc. reflexivity.
Qed.

Lemma Bot_send_more : forall b target message,
  sent_more b (Bot_send b target message).
Proof.
  intros b target message. rewrite Bot_send_lines.
  split; [eexists; reflexivity | reflexivity].
Qed.

Lemma run_callback_more : forall call b message cb,
  only_sends call -> sent_more b (fst (fst (run_callback call b message cb))).
Proof.
  intros call b message cb Hs. unfold run_callback.
  assert (Hinv : forall args, sent_more b (fst (fst (invoke call b message cb args)))).
  { intros args. unfold invoke, Command_call. specialize (Hs (func cb) b message args).
    destruct (call (func cb) b message args) as [b' [u | e]]; exact Hs. }
  destruct (all_events b message cb) as [[|] | e]; try apply sent_more_refl.
  destruct (cmnd_type cb =? 0)%Z; [apply Hinv |].
  destruct (cmnd_type cb =? 1)%Z; [| apply sent_more_refl].
  destruct (check_args (func cb) (tl (Parse.parse (text message)))) as [[args |] | e];
    [apply Hinv | apply Bot_send_more | apply sent_more_refl].
Qed.

Lemma loop_more : forall call keys0 message,
  only_sends call ->
  forall todo b done,
    sent_more b (fst (fst (loop call keys0 message todo b done))).
Proof.
  intros call keys0 message Hs.
  induction todo as [| todo IH]; intros b done; cbn [loop];
    destruct (negb (same_keys (Dict.keys (callbacks b)) keys0));
    try apply sent_more_refl.
  destruct (nth_error (Dict.values (callbacks b)) (List.length keys0 - S todo))
    as [cb |]; [| apply sent_more_refl].
  pose proof (run_callback_more call b message cb Hs) as H1.
  destruct (run_callback call b message cb) as [[b' acts] [e |]]; cbn [fst] in *;
    [exact H1 |].
  exact (sent_more_trans _ _ _ H1 (IH b' _)).
Qed.

Lemma start_iteration_more : forall call b,
  only_sends call -> sent_more b (fst (fst (start_iteration call b))).
Proof.
  intros call b Hs. unfold start_iteration, IRC.receive.
  destruct (IRC.receive_in (IRC.inbox (irc b))) as [[message q'] |];
    cbn [with_irc history].
  - destruct (history b) as [limit | h].
    + split; [exists []; cbn; rewrite app_nil_r; reflexivity | reflexivity].
    + destruct (History.add h message) as [h' | e].
      * match goal with
        | |- context [dispatch call ?b1 message] =>
            pose proof (loop_more call (Dict.keys (callbacks b1)) message Hs
                          (List.length (Dict.keys (callbacks b1))) b1 []) as H1;
            fold (dispatch call b1 message) in H1;
            destruct (dispatch call b1 message) as [[b2 acts] [e |]]
        end; cbn [fst] in *; exact H1.
      * split; [exists []; cbn; rewrite app_nil_r; reflexivity | reflexivity].
  - split; [exists []; cbn; rewrite app_nil_r; reflexivity | reflexivity].
Qed.

Lemma mainloop_more : forall call,
  only_sends call ->
  forall fuel b done, sent_more b (fst (fst (mainloop call fuel b done))).
Proof.
  intros call Hs. induction fuel as [| fuel IH]; intros b done; cbn [mainloop].
  - apply sent_more_refl.
  - pose proof (start_iteration_more call b Hs) as H1.
    destruct (start_iteration call b) as [[b' acts] [u | e |]]; cbn [fst] in *;
      [| exact H1 | exact H1].
    exact (sent_more_trans _ _ _ H1 (IH b' _)).
Qed.

Lemma fold_join : forall channels i,
  fold_left IRC.join channels i
  = IRC.mk (IRC.connected i) (IRC.inbox i)
      (IRC.sent i ++ map join_line channels)%list.
Proof.
  intros channels i.
  change (fold_left IRC.join channels i)
    with (fold_left (fun i' ch => IRC.send i' ((fun c => "JOIN " ++ c) ch)) channels i).
  rewrite (fold_send (fun c => "JOIN " ++ c)). reflexivity.
Qed.

Lemma pong_handlers_keep_rules : keeps_rules pong_handlers.
Proof. split; intros f b m args; reflexivity. Qed.

Lemma example_handlers_only_send : only_sends example_handlers.
Proof.
  intros f b m args. unfold example_handlers.
  destruct (String.eqb (fn_name f) "foo"); [apply Bot_send_more |].
  destruct (String.eqb (fn_name f) "boom"); apply sent_more_refl.
Qed.

End RunFacts.

(** X18.  With a [History] object in the attribute, and handlers that
    return and leave the rules, the history and the queue alone, the main
    loop takes every queued line that contains [" PRIVMSG "], in order, as
    a Message (the empty Message when the line does not parse): each is
    added to the history and then dispatched.  When the queue is used up
    the loop is blocked in [receive], the history holds the last [limit]
    messages of its old content followed by the messages received, and the
    calls made are the calls of each message in turn. *)
Theorem X18_mainloop_records_every_message :
  forall (call : handlers) (b : Bot) (h : History.t Message),
    keeps_rules call ->
    keeps history call ->
    keeps (fun b0 => IRC.inbox (irc b0)) call ->
    returns call ->
    (forall cb, In cb (Dict.values (callbacks b)) ->
                exists evs, events cb = Predicates evs) ->
    history b = HistoryObj h ->
    (0 < History.limit h)%Z ->
    (Z.of_nat (List.length (History.content h)) <= History.limit h)%Z ->
    exists b' : Bot,
      mainloop call (S (List.length (IRC.inbox (irc b)))) b []
      = (b', flat_map (calls_for b) (received (IRC.inbox (irc b))), Blocked)
      /\ history b'
         = HistoryObj
             (History.mk
                (lastn (Z.to_nat (History.limit h))
                   (History.content h ++ received (IRC.inbox (irc b))))
                (History.limit h))
      /\ IRC.inbox (irc b') = []
      /\ callbacks b' = callbacks b.
Proof.
  intros call b h Hk Hkh Hkq Hret Hwf Hh HN Hlen.
  apply (mainloop_records call Hk Hkh Hkq Hret
           (S (List.length (IRC.inbox (irc b)))) b h [] Hh HN Hlen Hwf).
  lia.
Qed.

Lemma X18_mainloop_records_every_message_witness :
  exists b' : Bot,
    mainloop pong_handlers (S (List.length (IRC.inbox (irc bot_with_history))))
      bot_with_history []
    = (b', flat_map (calls_for bot_with_history)
             (received (IRC.inbox (irc bot_with_history))), Blocked)
    /\ history b'
       = HistoryObj
           (History.mk
              (lastn (Z.to_nat (History.limit (History.mk [mkMessage "carol" "#room" "old"] 2)))
                 (History.content (History.mk [mkMessage "carol" "#room" "old"] 2)
                  ++ received (IRC.inbox (irc bot_with_history))))
              (History.limit (History.mk [mkMessage "carol" "#room" "old"] 2)))
    /\ IRC.inbox (irc b') = []
    /\ callbacks b' = callbacks bot_with_history.
Proof.
  apply (X18_mainloop_records_every_message pong_handlers bot_with_history
           (History.mk [mkMessage "carol" "#room" "old"] 2)).
  - exact pong_handlers_keep_rules.
  - intros f b m args. reflexivity.
  - intros f b m args. apply Bot_send_inbox.
  - intros f b m args. reflexivity.
  - intros cb [<- | []]. eexists. reflexivity.
  - reflexivity.
  - reflexivity.
  - cbn. lia.
Defined.

(** The run of the witness: three lines hold [" PRIVMSG "], the second of
    them does not parse; the history keeps the last two messages, and the
    handler of ping has answered the one message that called it. *)
Example mainloop_run :
  mainloop pong_handlers 5 bot_with_history []
  = (with_history
       (with_irc bot_with_ping
          (IRC.mk true [] ["PRIVMSG #room :pong" ++ PyStr.CRLF]))
       (HistoryObj (History.mk [mkMessage "" "" ""; mkMessage "bob" "#room" "hello"] 2)),
     [Called "ping" (mkMessage "alice" "#room" "!ping") []],
     Blocked).
Proof. reflexivity. Qed.

Section StartFacts.

Lemma connexion_no_auth_found : forall st nick pre line post,
  IRC.inbox st = (pre ++ line :: post)%list ->
  forallb (fun l => negb (IRC.logged_in l)) pre = true ->
  IRC.logged_in line = true ->
  IRC.connexion st nick []
  = (IRC.mk true post
       (IRC.sent st
        ++ [("USER " ++ nick ++ " * * :" ++ nick ++ PyStr.CRLF)%string;
            ("NICK " ++ nick ++ PyStr.CRLF)%string])%list,
     Returned tt).
Proof.
  intros st nick pre line post Hq Hpre Hline.
  unfold IRC.connexion, IRC.connexion_finish, IRC.waitfor.
  cbn [IRC.send IRC.inbox IRC.sent IRC.connected].
  rewrite Hq, (waitfor_in_found _ _ _ _ Hpre Hline).
  unfold IRC.set_connected, IRC.with_inbox, IRC.send.
  cbn [IRC.inbox IRC.sent IRC.connected].
  rewrite <- ?app_assoc, ?str_app_assoc. cbn.
  rewrite ?str_app_assoc. reflexivity.
Qed.

Lemma connexion_no_auth_absent : forall st nick,
  forallb (fun l => negb (IRC.logged_in l)) (IRC.inbox st) = true ->
  IRC.connexion st nick []
  = (IRC.mk (IRC.connected st) []
       (IRC.sent st
        ++ [("USER " ++ nick ++ " * * :" ++ nick ++ PyStr.CRLF)%string;
            ("NICK " ++ nick ++ PyStr.CRLF)%string])%list,
     Blocked).
Proof.
  intros st nick Hnone.
  unfold IRC.connexion, IRC.connexion_finish, IRC.waitfor.
  cbn [IRC.send IRC.inbox IRC.sent IRC.connected].
  rewrite (waitfor_in_absent _ _ Hnone).
  unfold IRC.with_inbox, IRC.send.
  cbn [IRC.inbox IRC.sent IRC.connected].
  rewrite <- ?app_assoc, ?str_app_assoc. cbn.
  rewrite ?str_app_assoc. reflexivity.
Qed.

Lemma connexion_auth_stops : forall st nick a auth',
  (snd (IRC.connexion st nick (a :: auth')) = Raised NameError
   \/ snd (IRC.connexion st nick (a :: auth')) = Blocked)
  /\ IRC.sent (fst (IRC.connexion st nick (a :: auth')))
     = (IRC.sent st
        ++ [("USER " ++ nick ++ " * * :" ++ nick ++ PyStr.CRLF)%string;
            ("NICK " ++ nick ++ PyStr.CRLF)%string])%list
  /\ IRC.connected (fst (IRC.connexion st nick (a :: auth'))) = IRC.connected st.
Proof.
  intros st nick a auth'.
  unfold IRC.connexion, IRC.waitfor.
  cbn [IRC.send IRC.inbox IRC.sent IRC.connected].
  destruct (IRC.waitfor_in IRC.login_prompt (IRC.inbox st)) as [[msg q'] |];
    cbn; rewrite <- !app_assoc, !str_app_assoc; cbn;
    rewrite ?str_app_assoc; (split; [| split; reflexivity]);
    [left | right]; reflexivity.
Qed.

End StartFacts.

(** X19.  A bot that was given [auth] never gets past the handshake:
    whatever its handlers are and however many turns its loop is allowed,
    [Bot.start] sends USER and NICK and then either stays blocked waiting
    for the login prompt or raises NameError.  It joins no channel, makes
    no call, and leaves [connected] and the history as they were. *)
Theorem X19_start_with_auth_never_joins :
  forall (call : handlers) (fuel : nat) (b : Bot) (nick : string),
    auth b <> [] ->
    (snd (start call fuel b nick) = Raised NameError
     \/ snd (start call fuel b nick) = Blocked)
    /\ snd (fst (start call fuel b nick)) = []
    /\ IRC.sent (irc (fst (fst (start call fuel b nick))))
       = (IRC.sent (irc b)
          ++ [("USER " ++ nick ++ " * * :" ++ nick ++ PyStr.CRLF)%string;
              ("NICK " ++ nick ++ PyStr.CRLF)%string])%list
    /\ IRC.connected (irc (fst (fst (start call fuel b nick)))) = IRC.connected (irc b)
    /\ history (fst (fst (start call fuel b nick))) = history b.
Proof.
  intros call fuel b nick Hauth. unfold start.
  destruct (auth b) as [| a auth']; [congruence |].
  destruct (connexion_auth_stops (irc b) nick a auth') as [Hout [Hsent Hconn]].
  destruct (IRC.connexion (irc b) nick (a :: auth')) as [i [u | e |]];
    cbn [fst snd] in *.
  - destruct Hout; discriminate.
  - split; [left; destruct Hout as [H | H]; [exact H | discriminate] |].
    repeat split; assumption.
  - split; [right; reflexivity |]. repeat split; assumption.
Qed.

Lemma X19_start_with_auth_never_joins_witness :
  auth (with_irc (add_command (Bot_init ["user"; "secret"] ["#general"] "!" 100)
                    ping_command false)
          (IRC.mk false [":srv NOTICE * :please /AUTH"; ":srv 900 :You are now logged in"] []))
  <> []
  /\ snd (fst (start example_handlers 5
                 (with_irc (add_command (Bot_init ["user"; "secret"] ["#general"] "!" 100)
                              ping_command false)
                    (IRC.mk false [":srv NOTICE * :please /AUTH";
                                   ":srv 900 :You are now logged in"] []))
                 "bot")) = [].
Proof.
  assert (H : auth (with_irc (add_command (Bot_init ["user"; "secret"] ["#general"] "!" 100)
                                ping_command false)
                      (IRC.mk false [":srv NOTICE * :please /AUTH";
                                     ":srv 900 :You are now logged in"] []))
              <> []) by discriminate.
  split; [exact H |].
  exact (proj1 (proj2 (X19_start_with_auth_never_joins example_handlers 5 _ "bot" H))).
Defined.

(** X20.  Without [auth], [Bot.start] joins its channels only once the
    confirmation has arrived: with no confirmation queued it sends USER and
    NICK, no JOIN, and stays blocked, whatever the handlers are; with one
    it sends one JOIN per channel, in the order of the list, before
    anything the main loop sends, and, the handlers leaving [connected]
    alone and taking back nothing of what was sent, it is connected from
    then on, however the loop ends. *)
Theorem X20_start_joins_after_confirmation :
  forall (call : handlers) (fuel : nat) (b : Bot) (nick : string),
    auth b = [] ->
    (forallb (fun l => negb (IRC.logged_in l)) (IRC.inbox (irc b)) = true ->
     start call fuel b nick
     = (with_irc b
          (IRC.mk (IRC.connected (irc b)) []
             (IRC.sent (irc b)
              ++ [("USER " ++ nick ++ " * * :" ++ nick ++ PyStr.CRLF)%string;
                  ("NICK " ++ nick ++ PyStr.CRLF)%string])%list),
        [], Blocked))
    /\ (forall pre line post,
          only_sends call ->
          IRC.inbox (irc b) = (pre ++ line :: post)%list ->
          forallb (fun l => negb (IRC.logged_in l)) pre = true ->
          IRC.logged_in line = true ->
          IRC.connected (irc (fst (fst (start call fuel b nick)))) = true
          /\ exists more,
               IRC.sent (irc (fst (fst (start call fuel b nick))))
               = (IRC.sent (irc b)
                  ++ [("USER " ++ nick ++ " * * :" ++ nick ++ PyStr.CRLF)%string;
                      ("NICK " ++ nick ++ PyStr.CRLF)%string]
                  ++ map join_line (channels b) ++ more)%list).
Proof.
  intros call fuel b nick Hauth. split.
  - intros Hnone. unfold start. rewrite Hauth.
    rewrite (connexion_no_auth_absent _ nick Hnone). reflexivity.
  - intros pre line post Hs Hq Hpre Hline. unfold start. rewrite Hauth.
    rewrite (connexion_no_auth_found _ nick pre line post Hq Hpre Hline).
    rewrite fold_join. cbn [IRC.connected IRC.inbox IRC.sent].
    match goal with
    | |- context [mainloop call fuel ?b1 ?d] =>
        destruct (mainloop_more call Hs fuel b1 d) as [[more Hmore] Hconn]
    end.
    split; [exact Hconn |].
    exists more. rewrite Hmore. cbn [irc with_irc IRC.sent].
    rewrite <- !app_assoc. reflexivity.
Qed.

Lemma X20_start_joins_after_confirmation_witness :
  start example_handlers 5
    (with_irc (Bot_init [] ["#a"; "#b"] "!" 100) (IRC.mk false [":srv 001 bot :Welcome"] []))
    "bot"
  = (with_irc (with_irc (Bot_init [] ["#a"; "#b"] "!" 100)
                 (IRC.mk false [":srv 001 bot :Welcome"] []))
       (IRC.mk (IRC.connected (irc (with_irc (Bot_init [] ["#a"; "#b"] "!" 100)
                                      (IRC.mk false [":srv 001 bot :Welcome"] []))))
          []
          (IRC.sent (irc (with_irc (Bot_init [] ["#a"; "#b"] "!" 100)
                            (IRC.mk false [":srv 001 bot :Welcome"] [])))
           ++ [("USER " ++ "bot" ++ " * * :" ++ "bot" ++ PyStr.CRLF)%string;
               ("NICK " ++ "bot" ++ PyStr.CRLF)%string])%list),
     [], Blocked)
  /\ IRC.connected
       (irc (fst (fst (start example_handlers 5
          (with_irc (Bot_init [] ["#a"; "#b"] "!" 100)
             (IRC.mk false [":srv 900 :You are now logged in"] [])) "bot")))) = true.
Proof.
  split.
  - apply (proj1 (X20_start_joins_after_confirmation example_handlers 5
                    (with_irc (Bot_init [] ["#a"; "#b"] "!" 100)
                       (IRC.mk false [":srv 001 bot :Welcome"] [])) "bot" eq_refl)).
    reflexivity.
  - apply (proj2 (X20_start_joins_after_confirmation example_handlers 5
                    (with_irc (Bot_init [] ["#a"; "#b"] "!" 100)
                       (IRC.mk false [":srv 900 :You are now logged in"] [])) "bot" eq_refl)
             [] ":srv 900 :You are now logged in" []);
      [exact example_handlers_only_send | reflexivity | reflexivity | reflexivity].
Defined.

Example start_joins_in_order :
  IRC.sent (irc (fst (fst (start example_handlers 5
     (with_irc (Bot_init [] ["#a"; "#b"] "!" 100)
        (IRC.mk false [":srv 900 :You are now logged in"] [])) "bot"))))
  = ["USER bot * * :bot" ++ PyStr.CRLF; "NICK bot" ++ PyStr.CRLF;
     "JOIN #a" ++ PyStr.CRLF; "JOIN #b" ++ PyStr.CRLF].
Proof. reflexivity. Qed.

Section DispatchMore.
Import Dispatch.

Lemma all_some_total : forall (A : Type) (l : list (option A)),
  (forall o, In o l -> o <> None) -> exists r, all_some l = Some r.
Proof.
  intros A l. induction l as [| [a |] l IH]; intros H; cbn [all_some].
  - exists []. reflexivity.
  - destruct IH as [r Hr]; [intros o Ho; apply H; right; exact Ho |].
    rewrite Hr. exists (a :: r). reflexivity.
  - exfalso. apply (H None); [left; reflexivity | reflexivity].
Qed.

Lemma coerce_from_in : forall func tokens types index o,
  In o (coerce_from func tokens index types) ->
  exists i ty, nth_error types i = Some ty /\ o = coerce_at func tokens (index + i) ty.
Proof.
  intros func tokens types. induction types as [| ty types IH]; intros index o H;
    cbn [coerce_from] in H; [contradiction |].
  destruct H as [<- | H].
  - exists 0%nat, ty. rewrite Nat.add_0_r. split; reflexivity.
  - destruct (IH _ _ H) as [i [ty' [Hi ->]]].
    exists (S i), ty'. split; [exact Hi |]. f_equal. lia.
Qed.

(** The one parameter of [auto_help] takes the first token, or its
    default. *)
Lemma check_args_auto_help : forall tokens,
  check_args (func AutoHelp.command) tokens = Ok (Some [VStr (hd EmptyString tokens)]).
Proof.
  intros tokens. rewrite check_args_refines. unfold coerce_spec.
  change (required (func AutoHelp.command)) with 0%Z.
  destruct (Z.ltb_spec (Z.of_nat (List.length tokens)) 0) as [H | _]; [lia |].
  destruct tokens as [| tok tokens]; reflexivity.
Qed.

(** A function annotated with its result only has one annotation and no
    annotated parameter.  The loop of [check_args] takes the annotation of
    the result for the type of a first parameter; [None], called on a
    token, raises, and no default stands in: the call is always
    rejected. *)
Lemma check_args_return_annotation : forall (f : pyfunc) (tokens : list string),
  annotations f = [TCallable (fun _ => None)] ->
  defaults f = [] ->
  check_args f tokens = Ok None.
Proof.
  intros f tokens Hann Hdef. rewrite check_args_refines.
  unfold coerce_spec, required. rewrite Hann, Hdef. cbn [List.length].
  destruct tokens as [| tok tokens]; [reflexivity |].
  destruct (Z.ltb_spec (Z.of_nat (List.length (tok :: tokens))) (Z.of_nat 1 - Z.of_nat 0))
    as [H | _]; [reflexivity |].
  cbn [coerce_from]. unfold coerce_at, default_at, required.
  rewrite Hann, Hdef. reflexivity.
Qed.

Lemma auto_help_listing : forall bar b msg fct_name,
  (fct_name = EmptyString \/ Dict.mem (commands_help b) fct_name = false) ->
  commands_help b <> [] ->
  AutoHelp.auto_help bar b msg fct_name = (b, Raise AttributeError).
Proof.
  intros bar b msg fct_name Hcase Hne. unfold AutoHelp.auto_help.
  replace (negb (String.eqb fct_name EmptyString) && Dict.mem (commands_help b) fct_name)
    with false
    by (destruct Hcase as [-> | H]; [reflexivity | rewrite H, andb_false_r; reflexivity]).
  destruct (commands_help b) as [| [k c] items]; [congruence |].
  reflexivity.
Qed.

Lemma help_first_rule : forall call b message post keys0 done r,
  Dict.values (callbacks b) = AutoHelp.command :: post ->
  keys0 = Dict.keys (callbacks b) ->
  run_callback call b message AutoHelp.command = (b, r, Some AttributeError) ->
  loop call keys0 message (List.length keys0) b done
  = (b, (done ++ r)%list, Some AttributeError).
Proof.
  intros call b message post keys0 done r Hvals -> Hrun.
  assert (Hlen : List.length (Dict.keys (callbacks b)) = S (List.length post)).
  { unfold Dict.keys. rewrite length_map.
    rewrite <- (length_map snd (callbacks b)). fold (Dict.values (callbacks b)).
    rewrite Hvals. reflexivity. }
  rewrite Hlen. cbn [loop].
  rewrite (proj2 (same_keys_eq _ _) eq_refl). cbn [negb].
  rewrite Hlen, Nat.sub_diag, Hvals. cbn [nth_error]. rewrite Hrun. reflexivity.
Qed.

End DispatchMore.

(** X21.  A Named rule whose function has an empty [__annotations__] (no
    annotated parameter and no annotated result) is never rejected:
    whenever its predicates hold it is called with no argument, whatever
    follows the command in the text.  What the call does is the handler's
    business: when it returns the loop goes on from the bot it leaves, and
    when it raises, for one because the function has more parameters than
    the two it is given, the exception leaves the loop. *)
Theorem X21_named_rule_without_annotations :
  forall (call : handlers) (b : Bot) (message : Message) (cb : Command),
    cmnd_type cb = 1%Z ->
    annotations (func cb) = [] ->
    matches b message cb ->
    Dispatch.run_callback call b message cb = Dispatch.invoke call b message cb []
    /\ (snd (call (func cb) b message []) = Ok tt ->
        Dispatch.run_callback call b message cb
        = (fst (call (func cb) b message []), [Called (name cb) message []], None))
    /\ (forall e,
          snd (call (func cb) b message []) = Raise e ->
          Dispatch.run_callback call b message cb
          = (fst (call (func cb) b message []), [Called (name cb) message []], Some e)).
Proof.
  intros call b message cb Hty Hann Hev. apply all_events_iff in Hev.
  assert (Hrun : Dispatch.run_callback call b message cb
                 = Dispatch.invoke call b message cb []).
  { unfold Dispatch.run_callback. rewrite Hev, Hty. cbn [Z.eqb].
    unfold check_args. rewrite Hann. reflexivity. }
  split; [exact Hrun |]. rewrite Hrun. unfold Dispatch.invoke, Command_call.
  destruct (call (func cb) b message []) as [b' [[] | e0]]; cbn [fst snd].
  - split; [reflexivity |]. intros e H. discriminate.
  - split; [intros H; discriminate |]. intros e H. injection H as <-. reflexivity.
Qed.

Lemma X21_named_rule_without_annotations_witness :
  cmnd_type ping_command = 1%Z
  /\ Dispatch.run_callback example_handlers bot_with_ping
       (mkMessage "alice" "#room" "!ping now 1 2 3") ping_command
     = (fst (example_handlers (func ping_command) bot_with_ping
               (mkMessage "alice" "#room" "!ping now 1 2 3") []),
        [Called (name ping_command) (mkMessage "alice" "#room" "!ping now 1 2 3") []],
        None)
  /\ Dispatch.run_callback example_handlers bot_with_boom_ping
       (mkMessage "alice" "#room" "!boom") boom_rule
     = (fst (example_handlers (func boom_rule) bot_with_boom_ping
               (mkMessage "alice" "#room" "!boom") []),
        [Called (name boom_rule) (mkMessage "alice" "#room" "!boom") []],
        Some (OtherError "Boom")).
Proof.
  assert (H : cmnd_type ping_command = 1%Z) by reflexivity.
  assert (Hm : matches bot_with_ping (mkMessage "alice" "#room" "!ping now 1 2 3")
                 ping_command).
  { eexists. split; [reflexivity |]. intros ev [<- | []]. reflexivity. }
  assert (Hb : matches bot_with_boom_ping (mkMessage "alice" "#room" "!boom") boom_rule).
  { eexists. split; [reflexivity |]. intros ev [<- | []]. reflexivity. }
  split; [exact H | split].
  - exact (proj1 (proj2 (X21_named_rule_without_annotations example_handlers bot_with_ping
                           (mkMessage "alice" "#room" "!ping now 1 2 3") ping_command
                           H eq_refl Hm)) eq_refl).
  - exact (proj2 (proj2 (X21_named_rule_without_annotations example_handlers
                           bot_with_boom_ping (mkMessage "alice" "#room" "!boom") boom_rule
                           eq_refl eq_refl Hb)) (OtherError "Boom") eq_refl).
Defined.

(** X22.  The help command of the library ends the bot.  With the function
    [auto_help] of api.py as its handler, a message that matches the rule
    help and asks for the list, or names a command that is not documented,
    calls the handler with the first token after the command (the empty
    text when there is none), and as soon as one command is documented the
    call raises AttributeError without sending anything.  The exception is
    not caught: where the rule is the first of [callbacks] the dispatch
    stops at it, and the turn of the main loop that received the message
    ends with that exception, the message recorded and the rest of the
    queue left unread. *)
Theorem X22_help_listing_ends_the_loop :
  forall (bar : string) (user : handlers) (b : Bot) (message : Message),
    matches b message AutoHelp.command ->
    commands_help b <> [] ->
    (hd EmptyString (tl (Parse.parse (text message))) = EmptyString
     \/ Dict.mem (commands_help b) (hd EmptyString (tl (Parse.parse (text message))))
        = false) ->
    Dispatch.run_callback (AutoHelp.with_auto_help bar user) b message AutoHelp.command
    = (b,
       [Called "help" message [VStr (hd EmptyString (tl (Parse.parse (text message))))]],
       Some AttributeError)
    /\ (forall post,
          Dict.values (callbacks b) = AutoHelp.command :: post ->
          Dispatch.dispatch (AutoHelp.with_auto_help bar user) b message
          = (b,
             [Called "help" message
                [VStr (hd EmptyString (tl (Parse.parse (text message))))]],
             Some AttributeError))
    /\ (forall post h h' q',
          Dict.values (callbacks b) = AutoHelp.command :: post ->
          IRC.receive_in (IRC.inbox (irc b)) = Some (message, q') ->
          history b = HistoryObj h ->
          History.add h message = Ok h' ->
          start_iteration (AutoHelp.with_auto_help bar user) b
          = (with_history (with_irc b (IRC.with_inbox (irc b) q')) (HistoryObj h'),
             [Called "help" message
                [VStr (hd EmptyString (tl (Parse.parse (text message))))]],
             Raised AttributeError)).
Proof.
  intros bar user b message Hev Hdoc Hname.
  assert (Hrun : forall b0,
            PREFIX b0 = PREFIX b -> commands_help b0 = commands_help b ->
            Dispatch.run_callback (AutoHelp.with_auto_help bar user) b0 message
              AutoHelp.command
            = (b0,
               [Called "help" message
                  [VStr (hd EmptyString (tl (Parse.parse (text message))))]],
               Some AttributeError)).
  { intros b0 HP Hhelp. apply all_events_iff in Hev.
    rewrite <- (all_events_PREFIX b0 b message AutoHelp.command HP) in Hev.
    unfold Dispatch.run_callback. rewrite Hev.
    change (cmnd_type AutoHelp.command) with 1%Z. cbn [Z.eqb Pos.eqb].
    rewrite check_args_auto_help.
    unfold Dispatch.invoke, Command_call, AutoHelp.with_auto_help.
    change (fn_name (func AutoHelp.command)) with "auto_help".
    change (String.eqb "auto_help" "auto_help") with true. cbv iota.
    cbn [AutoHelp.call_auto_help].
    rewrite <- Hhelp in Hname, Hdoc.
    rewrite (auto_help_listing bar b0 message _ Hname Hdoc). reflexivity. }
  split; [apply Hrun; reflexivity |].
  split.
  - intros post Hvals. unfold Dispatch.dispatch.
    apply (help_first_rule _ b message post _ [] _ Hvals eq_refl).
    apply Hrun; reflexivity.
  - intros post h h' q' Hvals Hrecv Hh Hadd.
    rewrite (start_iteration_with_history _ b h h' message q' Hrecv Hh Hadd).
    unfold Dispatch.dispatch.
    rewrite (help_first_rule _
               (with_history (with_irc b (IRC.with_inbox (irc b) q')) (HistoryObj h'))
               message post _ [] _ Hvals eq_refl
               (Hrun (with_history (with_irc b (IRC.with_inbox (irc b) q'))
                        (HistoryObj h')) eq_refl eq_refl)).
    reflexivity.
Qed.

Lemma X22_help_listing_ends_the_loop_witness :
  matches bot_with_help (mkMessage "alice" "#room" "!help") AutoHelp.command
  /\ commands_help bot_with_help <> []
  /\ Dispatch.dispatch (AutoHelp.with_auto_help " | " example_handlers) bot_with_help
       (mkMessage "alice" "#room" "!help")
     = (bot_with_help,
        [Called "help" (mkMessage "alice" "#room" "!help")
           [VStr (hd EmptyString
                    (tl (Parse.parse (text (mkMessage "alice" "#room" "!help")))))]],
        Some AttributeError).
Proof.
  assert (Hm : matches bot_with_help (mkMessage "alice" "#room" "!help") AutoHelp.command).
  { eexists. split; [reflexivity |]. intros ev [<- | []]. reflexivity. }
  assert (Hdoc : commands_help bot_with_help <> []) by discriminate.
  split; [exact Hm | split; [exact Hdoc |]].
  exact (proj1 (proj2 (X22_help_listing_ends_the_loop " | " example_handlers bot_with_help
                         (mkMessage "alice" "#room" "!help") Hm Hdoc
                         (or_introl eq_refl)))
           [ping_command] eq_refl).
Defined.

(** The whole run: the bot connects, joins, receives the request for help
    and stops; the message that follows it is never read. *)
Example start_help_stops_the_bot :
  start (AutoHelp.with_auto_help " | " example_handlers) 5
    (with_history
       (with_irc bot_with_help
          (IRC.mk false [":srv 900 :You are now logged in";
                         ":alice!a@host PRIVMSG #general :!help";
                         ":bob!b@host PRIVMSG #general :!ping"] []))
       (HistoryObj (History.init 100)))
    "bot"
  = (with_history
       (with_irc bot_with_help
          (IRC.mk true [":bob!b@host PRIVMSG #general :!ping"]
             ["USER bot * * :bot" ++ PyStr.CRLF; "NICK bot" ++ PyStr.CRLF;
              "JOIN #general" ++ PyStr.CRLF]))
       (HistoryObj (History.mk [mkMessage "alice" "#general" "!help"] 100)),
     [Called "help" (mkMessage "alice" "#general" "!help") [VStr ""]],
     Raised AttributeError).
Proof. reflexivity. Qed.

(** X23.  A handler whose annotated parameters are all [str] is rejected
    for want of tokens only: with at least as many tokens as parameters
    without a default, [check_args] returns a list, in which each position
    that has a token holds that token unchanged. *)
Theorem X23_str_parameters_never_fail :
  forall (func : pyfunc) (tokens : list string),
    (forall ty, In ty (annotations func) -> ty = TStr) ->
    (required func <= Z.of_nat (List.length tokens))%Z ->
    exists args : list pyval,
      check_args func tokens = Ok (Some args)
      /\ List.length args = List.length (annotations func)
      /\ forall i tok,
           (i < List.length (annotations func))%nat ->
           nth_error tokens i = Some tok ->
           nth_error args i = Some (VStr tok).
Proof.
  intros func tokens Hstr Henough.
  assert (Hsome : forall o,
            In o (coerce_from func tokens 0 (annotations func)) -> o <> None).
  { intros o Ho. destruct (coerce_from_in _ _ _ _ _ Ho) as [i [ty [Hi ->]]].
    cbn [Nat.add]. rewrite (Hstr ty (nth_error_In _ _ Hi)).
    unfold coerce_at.
    destruct (nth_error tokens i) as [tok |] eqn:Etok; [discriminate |].
    apply nth_error_None in Etok.
    assert (i < List.length (annotations func))%nat
      by (apply nth_error_Some; congruence).
    unfold default_at.
    destruct (Z.leb_spec (required func) (Z.of_nat i)); [| lia].
    intros Hnone. apply nth_error_None in Hnone. unfold required in *. lia. }
  destruct (all_some_total _ _ Hsome) as [args Hargs].
  exists args. rewrite check_args_refines. unfold coerce_spec.
  destruct (Z.ltb_spec (Z.of_nat (List.length tokens)) (required func)); [lia |].
  rewrite Hargs. split; [reflexivity |].
  destruct (all_some_nth _ _ _ Hargs) as [Hlen Hnth].
  rewrite coerce_from_length in Hlen. split; [exact Hlen |].
  intros i tok Hi Htok.
  destruct (nth_error (annotations func) i) as [ty |] eqn:Ety;
    [| apply nth_error_None in Ety; lia].
  pose proof (coerce_from_nth func tokens _ 0 i ty Ety) as Hc.
  cbn [Nat.add] in Hc.
  rewrite <- (Hnth i _ Hc).
  rewrite (Hstr ty (nth_error_In _ _ Ety)).
  unfold coerce_at. rewrite Htok. reflexivity.
Qed.

Lemma X23_str_parameters_never_fail_witness :
  (forall ty, In ty (annotations (mkFunc "say" "" [TStr; TStr] [VStr "!"])) -> ty = TStr)
  /\ (required (mkFunc "say" "" [TStr; TStr] [VStr "!"]) <= Z.of_nat (List.length ["42"]))%Z
  /\ exists args : list pyval,
       check_args (mkFunc "say" "" [TStr; TStr] [VStr "!"]) ["42"] = Ok (Some args)
       /\ List.length args = List.length (annotations (mkFunc "say" "" [TStr; TStr] [VStr "!"]))
       /\ forall i tok,
            (i < List.length (annotations (mkFunc "say" "" [TStr; TStr] [VStr "!"])))%nat ->
            nth_error ["42"] i = Some tok ->
            nth_error args i = Some (VStr tok).
Proof.
  assert (H1 : forall ty, In ty (annotations (mkFunc "say" "" [TStr; TStr] [VStr "!"]))
                          -> ty = TStr).
  { intros ty [<- | [<- | []]]; reflexivity. }
  assert (H2 : (required (mkFunc "say" "" [TStr; TStr] [VStr "!"])
                <= Z.of_nat (List.length ["42"]))%Z) by (cbv; discriminate).
  split; [exact H1 | split; [exact H2 |]].
  exact (X23_str_parameters_never_fail (mkFunc "say" "" [TStr; TStr] [VStr "!"]) ["42"] H1 H2).
Defined.
